(** * Rebar shape cut list: a shallow embedding of
      [RebarShapeCutList/RebarShapeCutListfunc.py]

    The development embeds the functions of the module,
    [getBaseRebarsList], [getVertexesMinMaxXY], [getRebarShapeSVG] and
    [getRebarShapeCutList], and states the properties of the specification
    over them.

    Modelling conventions.
    - Python numbers are exact rationals ([Q]); [/] is the only fallible
      arithmetic operation ([ZeroDivisionError]).  The inputs on which a
      property is shown to fail are dyadic (stroke width 1/8 or -1, whole
      lengths), so that binary floating point computes the sizes shown
      exactly.  Bounds on a rounded size are stated against the bound
      rounded up to a whole number, which an error below one half in the
      unrounded size cannot break.
    - [str] of a float follows Python: positional notation for zero and for
      [1e-4 <= |x| < 1e16], exponent notation otherwise; the digits are
      those of the exact decimal that [round(x, ndigits)] denotes.
    - Exceptions and [FreeCAD.Console.PrintError] are threaded through a
      writer/error monad [M].
    - The geometry kernel of the host application (projection, filleting,
      edge sorting, colours, unit precision) is an interface, the class
      [Host]; the SVG primitives of [SVGfunc] and [getRoundCornerSVG] are
      uninterpreted constructors of the tree type [Svg] that record their
      arguments.
    - Formatted attribute values are kept structured ([AttrVal]) instead of
      being flattened to text; the dimension label, whose text matters, is
      a real string. *)

From Stdlib Require Import ZArith QArith Qround Lqa Lia List String Ascii Bool.
From Stdlib Require Import Decimal DecimalString DecimalN.
From Stdlib Require Import Permutation Sorted.
Import ListNotations.

Set Warnings "-register-all".
Local Open Scope Q_scope.

(* ------------------------------------------------------------------ *)
(** ** Python numbers *)

(** [bool(x)] of a number: non-zero. *)
Definition truthy (x : Q) : bool := negb (Qeq_bool x 0).

Definition Qltb (a b : Q) : bool := negb (Qle_bool b a).

(** [min(a, b)] and [max(a, b)]: the first argument is kept unless the
    second one is strictly better. *)
Definition py_min (a b : Q) : Q := if Qltb b a then b else a.
Definition py_max (a b : Q) : Q := if Qltb a b then b else a.

(** [round(x)]: nearest integer, ties to the even one. *)
Definition py_round (x : Q) : Z :=
  let f := Qfloor x in
  match Qcompare (x - inject_Z f) (1 # 2) with
  | Lt => f
  | Gt => (f + 1)%Z
  | Eq => if Z.even f then f else (f + 1)%Z
  end.

(* ------------------------------------------------------------------ *)
(** ** Exceptions and console output *)

Inductive PyExc : Set :=
| ZeroDivisionError
| IndexError
| TypeError
| AttributeError
| ValueError.

(** A computation yields the text printed on the console and either an
    exception or a value. *)
Definition M (A : Type) : Type := (list string * (PyExc + A))%type.

Definition ret {A} (x : A) : M A := ([], inr x).
Definition raise {A} (e : PyExc) : M A := ([], inl e).
Definition bind {A B} (m : M A) (k : A -> M B) : M B :=
  match m with
  | (out, inl e) => (out, inl e)
  | (out, inr x) => let (out', r) := k x in ((out ++ out')%list, r)
  end.
Definition PrintError (msg : string) : M unit := ([msg], inr tt).

Notation "x <- m ;; k" := (bind m (fun x => k))
  (at level 61, m at next level, right associativity).
Notation "' pat <- m ;; k" := (bind m (fun x => match x with pat => k end))
  (at level 61, pat pattern, m at next level, right associativity).
Notation "m ;;; k" := (bind m (fun _ => k))
  (at level 61, right associativity).

(** Computations that print nothing. *)
Definition silent {A} (m : M A) : Prop := fst m = [].

(** [a / b] on Python floats. *)
Definition py_div (a b : Q) : M Q :=
  if Qeq_bool b 0 then raise ZeroDivisionError else ret (a / b).

(** [l[i]]. *)
Definition py_index {A} (l : list A) (i : nat) : M A :=
  match nth_error l i with
  | Some x => ret x
  | None => raise IndexError
  end.

(* ------------------------------------------------------------------ *)
(** ** Data of the host application *)

(** [FreeCAD.Vector]. *)
Record Vector : Set := mkVector { x_ : Q; y_ : Q; z_ : Q }.

(** [WorkingPlane.Plane]: origin and frame. *)
Record Plane : Set := mkPlane
  { position : Vector; u_axis : Vector; v_axis : Vector; axis : Vector }.

(** Result of [DraftGeomUtils.geomType]. *)
Inductive GeomType : Set := Line | Circle | OtherGeom.

(** [Part.Edge]. *)
Record Edge : Set := mkEdge
  { geomType : GeomType; EdgeVertexes : list Vector; Length : Q }.

(** [Part.Wire]. *)
Record Wire : Set := mkWire { Edges : list Edge; Vertexes : list Vector }.

(** A bar.  [Mark] and [MarkNumber] are present or not ([hasattr]);
    [Diameter] is [rebar.Diameter.Value] and [BaseWire] is
    [rebar.Base.Shape.Wires[0]]. *)
Record Rebar : Set := mkRebar
  { Name : string;
    Mark : option string;
    MarkNumber : option Z;
    Rounding : Q;
    Diameter : Q;
    BaseWire : Wire }.

(** The values a caller can pass where a view direction is expected. *)
Inductive PyVal : Set :=
| PyNone
| PyInt (n : Z)
| PyFloat (q : Q)
| PyStr (s : string)
| PyVector (v : Vector)
| PyPlane (p : Plane)
| PyList (l : list PyVal).

Definition zero_vector : Vector := mkVector 0 0 0.

(** [number * FreeCAD.Vector]: the number protocol of the vector type
    scales the vector; it does not repeat anything. *)
Definition int_mul_Vector (k : Z) (v : Vector) : Vector :=
  mkVector (inject_Z k * x_ v) (inject_Z k * y_ v) (inject_Z k * z_ v).

(** Iteration, as [list.extend] performs it.  A [FreeCAD.Vector] is a
    sequence of its three coordinates. *)
Definition py_iter (v : PyVal) : M (list PyVal) :=
  match v with
  | PyList l => ret l
  | PyVector v => ret [PyFloat (x_ v); PyFloat (y_ v); PyFloat (z_ v)]
  | PyStr s => ret (map (fun c => PyStr (String c EmptyString)) (list_ascii_of_string s))
  | _ => raise TypeError
  end.

(** [v[i]]. *)
Definition py_getitem (v : PyVal) (i : nat) : M PyVal :=
  match v with
  | PyList l => py_index l i
  | PyVector v => py_index [PyFloat (x_ v); PyFloat (y_ v); PyFloat (z_ v)] i
  | PyStr s =>
      py_index (map (fun c => PyStr (String c EmptyString)) (list_ascii_of_string s)) i
  | _ => raise TypeError
  end.

(* ------------------------------------------------------------------ *)
(** ** The SVG tree *)

(** Rotation of a dimension label: [math.degrees(math.atan(slope))], kept
    symbolic, or a literal number of degrees. *)
Inductive Angle : Set :=
| AtanDegrees (slope : Q)
| Degrees (d : Z).

(** Attribute values, by the format string that produces them. *)
Inductive AttrVal : Set :=
| AStr (s : string)
| AMm (n : Q)                            (* "{}mm" *)
| AViewBox (w h : Q)                     (* "0 0 {} {}" *)
| AScaleTranslate (s : Q) (tx ty : Z)    (* "scale({}) translate({} {})" *)
| ATranslate (tx ty : Q)                 (* "translate({} {})" *)
| ARotate (a : Angle) (cx cy : Z).       (* "rotate({} {} {})" *)

(** The text of a label: a string or an integer mark number. *)
Inductive Label : Set :=
| LStr (s : string)
| LInt (n : Z).

(** [xml.etree.ElementTree.Element] and the elements built by the
    helpers of [SVGfunc] and [ReinforcementDrawingfunc].  [SetAttr] is a
    helper-built element after a later [set] call. *)
Inductive Svg : Set :=
| Element (tag : string) (attrib : list (string * AttrVal)) (children : list Svg)
| getPointSVG (p : Vector) (radius : Q) (fill : string)
| getLineSVG (p1 p2 : Vector) (stroke_width : Q) (color : string)
| getRoundCornerSVG (e : Edge) (radius : Q) (view_plane : Plane)
    (stroke_width : Q) (color : string)
| getSVGTextElement (data : Label) (x y : Q) (font_family : string)
    (font_size : Q) (text_anchor : option string)
| getSVGRectangle (x y width height : Q) (element_id : string)
| SetAttr (key : string) (value : AttrVal) (e : Svg).

Fixpoint attrib_set (a : list (string * AttrVal)) (key : string) (v : AttrVal)
  : list (string * AttrVal) :=
  match a with
  | [] => [(key, v)]
  | (k, w) :: a' =>
      if String.eqb k key then (k, v) :: a' else (k, w) :: attrib_set a' key v
  end.

Fixpoint attrib_get (a : list (string * AttrVal)) (key : string) : option AttrVal :=
  match a with
  | [] => None
  | (k, w) :: a' => if String.eqb k key then Some w else attrib_get a' key
  end.

(** [e.set(key, v)]. *)
Definition svg_set (e : Svg) (key : string) (v : AttrVal) : Svg :=
  match e with
  | Element t a c => Element t (attrib_set a key v) c
  | _ => SetAttr key v e
  end.

(** [e.get(key)]; [None] when the attribute is absent. *)
Fixpoint svg_get (e : Svg) (key : string) : option AttrVal :=
  match e with
  | Element _ a _ => attrib_get a key
  | SetAttr k v e' => if String.eqb k key then Some v else svg_get e' key
  | _ => None
  end.

(** [e.append(c)]. *)
Definition svg_append (e c : Svg) : Svg :=
  match e with
  | Element t a cs => Element t a (cs ++ [c])
  | _ => e
  end.

(** [e.find("./g[@id='...']")]: the first child [g] with that id. *)
Definition is_g_with_id (id : string) (c : Svg) : bool :=
  match c with
  | Element t a _ =>
      String.eqb t "g" &&
      match attrib_get a "id" with
      | Some (AStr s) => String.eqb s id
      | _ => false
      end
  | _ => false
  end.

Definition svg_find_g (e : Svg) (id : string) : option Svg :=
  match e with
  | Element _ _ cs => find (is_g_with_id id) cs
  | _ => None
  end.

(** [float(e.get(key).rstrip("mm"))]. *)
Definition svg_get_mm (e : Svg) (key : string) : M Q :=
  match svg_get e key with
  | None => raise AttributeError
  | Some (AMm n) => ret n
  | Some _ => raise ValueError
  end.

(* ------------------------------------------------------------------ *)
(** ** Text of a dimension label *)

(** [s.rstrip(c)] for a single character [c]. *)
Fixpoint rstrip (c : ascii) (s : string) : string :=
  match s with
  | EmptyString => EmptyString
  | String a s' =>
      match rstrip c s' with
      | EmptyString => if Ascii.eqb a c then EmptyString else String a EmptyString
      | r => String a r
      end
  end.

(** [c in s]. *)
Fixpoint contains (c : ascii) (s : string) : bool :=
  match s with
  | EmptyString => false
  | String a s' => Ascii.eqb a c || contains c s'
  end.

(** A float whose value is the decimal [dmant / 10 ^ dexp]: what
    [round(x, ndigits)] returns. *)
Record DecFloat : Set := mkDecFloat { dmant : Z; dexp : nat }.


(** [round(x, ndigits)]: nearest multiple of [10 ^ -ndigits], ties to
    even. *)
Definition py_round_ndigits (x : Q) (ndigits : nat) : DecFloat :=
  mkDecFloat (py_round (x * inject_Z (10 ^ Z.of_nat ndigits))) ndigits.

Definition digit_char (d : Z) : ascii :=
  ascii_of_nat (48 + Z.to_nat (d mod 10)).

(** The [n] low decimal digits of [f], most significant first. *)
Fixpoint low_digits (n : nat) (f : Z) : string :=
  match n with
  | O => EmptyString
  | S k => (low_digits k (f / 10) ++ String (digit_char f) EmptyString)%string
  end.

Definition int_digits (i : Z) : string :=
  NilEmpty.string_of_uint (N.to_uint (Z.to_N i)).

(** [str(d)] in positional notation: sign, integer part, point, and the
    fraction digits without trailing zeros but never empty
    ([str(50.0) = "50.0"]). *)
Definition positional_str (d : DecFloat) : string :=
  let p := (10 ^ Z.of_nat (dexp d))%Z in
  let a := Z.abs (dmant d) in
  let frac := rstrip "0" (low_digits (dexp d) (a mod p)) in
  ((if (dmant d <? 0)%Z then "-" else "") ++
   int_digits (a / p) ++ "." ++
   (match frac with EmptyString => "0" | _ => frac end))%string.

(** Whether [str(d)] is written in positional notation: [d] is zero or
    [1e-4 <= |d| < 1e16]. *)
Definition in_positional_range (d : DecFloat) : bool :=
  let a := Z.abs (dmant d) in
  (a =? 0)%Z
  || ((10 ^ Z.of_nat (dexp d) <=? a * 10 ^ 4)%Z
      && (a <? 10 ^ (16 + Z.of_nat (dexp d)))%Z).

(** [str(d)] in exponent notation: sign, first significant digit, the
    other significant digits after a point when there are any, [e], the
    sign of the exponent and at least two exponent digits
    ([str(2e-05) = "2e-05"], [str(1.5e-10) = "1.5e-10"],
    [str(1e16) = "1e+16"]). *)
Definition exponent_str (d : DecFloat) : string :=
  let a := Z.abs (dmant d) in
  let digits := int_digits a in
  let e := (Z.of_nat (String.length digits) - 1 - Z.of_nat (dexp d))%Z in
  let exp_digits := int_digits (Z.abs e) in
  ((if (dmant d <? 0)%Z then "-" else "") ++
   (match rstrip "0" digits with
    | String c EmptyString => String c EmptyString
    | String c rest => String c ("." ++ rest)
    | EmptyString => EmptyString
    end) ++
   "e" ++ (if (e <? 0)%Z then "-" else "+") ++
   (if (Z.abs e <? 10)%Z then "0" ++ exp_digits else exp_digits))%string.

(** [str(d)] of a float: positional notation within the range above,
    exponent notation outside it. *)
Definition py_str (d : DecFloat) : string :=
  if in_positional_range d then positional_str d else exponent_str d.


(** The label text: [str(round(length, precision))], stripped of trailing
    zeros and of a trailing point when it contains a point. *)
Definition edge_length_label (length : Q) (precision : nat) : string :=
  let edge_length := py_str (py_round_ndigits length precision) in
  if contains "." edge_length
  then rstrip "." (rstrip "0" edge_length)
  else edge_length.

(* ------------------------------------------------------------------ *)
(** ** The host application *)

(** What the module imports from FreeCAD and from its sibling modules.
    [Decimals] is the unit precision preference; [root_attrib] are the
    attributes of the element returned by [getSVGRootElement()]. *)
Class Host : Type := mkHost
  { getRebarsSpanAxis : Rebar -> Vector;
    getSVGPlaneFromAxis : Vector -> Plane;
    getProjectionToSVGPlane : Vector -> Plane -> Vector;
    getRebarColor : Rebar -> string -> string;
    isNull : Vector -> bool;
    filletWire : Wire -> Q -> Wire;
    sortEdges : list Edge -> list Edge;
    Decimals : nat;
    root_attrib : list (string * AttrVal) }.

Definition newline : string := String (ascii_of_nat 10) EmptyString.

Definition invalid_view_direction : string :=
  ("Invalid view_direction type. Supported view_direction types: " ++
   "FreeCAD.Vector, WorkingPlane.Plane" ++ newline)%string.

(** State of the edge loop of [getRebarShapeSVG]:
    [current_straight_edge_index] and the children appended so far to
    [rebar_edges_svg] and to [edge_dimension_svg]. *)
Record LoopState : Set := mkLoopState
  { current_straight_edge_index : nat;
    rebar_edges_svg : list Svg;
    edge_dimension_svg : list Svg }.

Section Renderer.

Context {host : Host}.

Definition getSVGRootElement : Svg := Element "svg" root_attrib [].

(** ** [getVertexesMinMaxXY] *)
Definition getVertexesMinMaxXY (vertex_list : list Vector) (view_plane : Plane)
  : M (Q * Q * Q * Q) :=
  v0 <- py_index vertex_list 0 ;;
  let point := getProjectionToSVGPlane v0 view_plane in
  ret (fold_left
         (fun '(min_x, min_y, max_x, max_y) vertex =>
            let point := getProjectionToSVGPlane vertex view_plane in
            (py_min (x_ point) min_x, py_min (y_ point) min_y,
             py_max (x_ point) max_x, py_max (y_ point) max_y))
         (tl vertex_list)
         (x_ point, y_ point, x_ point, y_ point)).

(** ** [getRebarShapeSVG] *)

(** Lines 205-216: the view plane, or [None] for an unsupported type. *)
Definition view_plane_of (rebar : Rebar) (view_direction : PyVal) : option Plane :=
  match view_direction with
  | PyVector v =>
      let v := if isNull v then getRebarsSpanAxis rebar else v in
      Some (getSVGPlaneFromAxis v)
  | PyPlane p => Some p
  | _ => None
  end.

(** Lines 233-238: the wire that is drawn. *)
Definition fillet_basewire_of (rebar : Rebar) : Wire :=
  let basewire := BaseWire rebar in
  let fillet_radius := Rounding rebar * Diameter rebar in
  if truthy fillet_radius then filletWire basewire fillet_radius else basewire.

(** Lines 251-262: the scaling factor. *)
Definition shape_scale (include_mark : bool)
  (rebar_stroke_width dimension_font_size scale max_height max_width : Q)
  (rebar_shape_height rebar_shape_width : Q) : M Q :=
  v_scaling_factor <-
    (if truthy max_height
     then py_div (max_height
                  - dimension_font_size * (if include_mark then 4 else 2)
                  - 2 * rebar_stroke_width) rebar_shape_height
     else ret scale) ;;
  h_scaling_factor <-
    (if truthy max_width
     then py_div (max_width - 2 * dimension_font_size - 2 * rebar_stroke_width)
                 rebar_shape_width
     else ret scale) ;;
  ret (py_min h_scaling_factor v_scaling_factor).

(** Lines 263-272. *)
Definition svg_height_of (include_mark : bool)
  (rebar_stroke_width dimension_font_size rebar_shape_height scale : Q) : Q :=
  rebar_shape_height * scale
  + dimension_font_size * (if include_mark then 4 else 2)
  - 2 * rebar_stroke_width.

Definition svg_width_of
  (rebar_stroke_width dimension_font_size rebar_shape_width scale : Q) : Q :=
  rebar_shape_width * scale + 2 * dimension_font_size - 2 * rebar_stroke_width.

(** Lines 276-288. *)
Definition translate_x_of (rebar_stroke_width dimension_font_size scale min_x : Q)
  : M Z :=
  d <- py_div (dimension_font_size + rebar_stroke_width) scale ;;
  ret (py_round (- (min_x - d))).

Definition translate_y_of (include_mark : bool)
  (rebar_stroke_width dimension_font_size scale min_y : Q) : M Z :=
  a <- py_div ((if include_mark then 3 else 1) * dimension_font_size) scale ;;
  b <- py_div rebar_stroke_width scale ;;
  ret (py_round (- (min_y - a - b))).

(** Lines 304-310. *)
Definition mark_of (rebar : Rebar) : Label :=
  match Mark rebar with
  | Some m => LStr m
  | None =>
      match MarkNumber rebar with
      | Some n => LInt n
      | None => LStr ""
      end
  end.

Definition same_round (a b : Q) : bool := (py_round a =? py_round b)%Z.

(** Lines 329-334: the element drawn for a straight edge. *)
Definition straight_edge_svg (p1 p2 : Vector) (rebar_stroke_width : Q)
  (rebar_color : string) : Svg :=
  if same_round (x_ p1) (x_ p2) && same_round (y_ p1) (y_ p2)
  then getPointSVG p1 (2 * rebar_stroke_width) rebar_color
  else getLineSVG p1 p2 rebar_stroke_width rebar_color.

(** Lines 324-382: one iteration of the edge loop.  [rebar_stroke_width]
    and [dimension_font_size] are the values already divided by the
    scale. *)
Definition render_edge (rebar : Rebar) (view_plane : Plane)
  (straight_edges : list Edge) (rebar_stroke_width : Q) (rebar_color : string)
  (dimension_font_family : string) (dimension_font_size : Q)
  (st : LoopState) (edge : Edge) : M LoopState :=
  match geomType edge with
  | Line =>
      v1 <- py_index (EdgeVertexes edge) 0 ;;
      v2 <- py_index (EdgeVertexes edge) 1 ;;
      let p1 := getProjectionToSVGPlane v1 view_plane in
      let p2 := getProjectionToSVGPlane v2 view_plane in
      let edge_svg := straight_edge_svg p1 p2 rebar_stroke_width rebar_color in
      let mid_point :=
        mkVector ((x_ p1 + x_ p2) / 2) ((y_ p1 + y_ p2) / 2) 0 in
      dimension_rotation <-
        (if negb (same_round (x_ p2) (x_ p1))
         then slope <- py_div (y_ p2 - y_ p1) (x_ p2 - x_ p1) ;;
              ret (AtanDegrees slope)
         else ret (Degrees (-90))) ;;
      straight_edge <- py_index straight_edges (current_straight_edge_index st) ;;
      let edge_length := edge_length_label (Length straight_edge) Decimals in
      let text :=
        svg_set
          (getSVGTextElement (LStr edge_length) (x_ mid_point)
             (y_ mid_point - rebar_stroke_width * 2)
             dimension_font_family dimension_font_size (Some "middle"%string))
          "transform"
          (ARotate dimension_rotation
             (py_round (x_ mid_point)) (py_round (y_ mid_point))) in
      ret (mkLoopState (S (current_straight_edge_index st))
             (rebar_edges_svg st ++ [edge_svg])
             (edge_dimension_svg st ++ [text]))
  | Circle =>
      v1 <- py_index (EdgeVertexes edge) 0 ;;
      v2 <- py_index (EdgeVertexes edge) 1 ;;
      let p1 := getProjectionToSVGPlane v1 view_plane in
      let p2 := getProjectionToSVGPlane v2 view_plane in
      let edge_svg :=
        if same_round (x_ p1) (x_ p2) || same_round (y_ p1) (y_ p2)
        then getLineSVG p1 p2 rebar_stroke_width rebar_color
        else getRoundCornerSVG edge (Rounding rebar * Diameter rebar) view_plane
               rebar_stroke_width rebar_color in
      ret (mkLoopState (current_straight_edge_index st)
             (rebar_edges_svg st ++ [edge_svg])
             (edge_dimension_svg st))
  | OtherGeom =>
      ret (mkLoopState (current_straight_edge_index st)
             (rebar_edges_svg st ++ [Element "g" [] []])
             (edge_dimension_svg st))
  end.

Fixpoint render_edges (rebar : Rebar) (view_plane : Plane)
  (straight_edges : list Edge) (rebar_stroke_width : Q) (rebar_color : string)
  (dimension_font_family : string) (dimension_font_size : Q)
  (edges : list Edge) (st : LoopState) : M LoopState :=
  match edges with
  | [] => ret st
  | edge :: edges' =>
      st' <- render_edge rebar view_plane straight_edges rebar_stroke_width
               rebar_color dimension_font_family dimension_font_size st edge ;;
      render_edges rebar view_plane straight_edges rebar_stroke_width
        rebar_color dimension_font_family dimension_font_size edges' st'
  end.

(** The tree assembled by [getRebarShapeSVG]: the root with its size, the
    shape group with its transform, the group of edges, the group of
    dimension labels and, if asked for, the mark.  [dimension_font_size]
    is the value already divided by the scale. *)
Definition shape_document (rebar : Rebar) (include_mark : bool)
  (dimension_font_family : string)
  (rebar_shape_min_x rebar_shape_min_y svg_width svg_height scale : Q)
  (translate_x translate_y : Z) (dimension_font_size : Q) (st : LoopState)
  : Svg :=
  let svg := getSVGRootElement in
  let svg := svg_set svg "width" (AMm (inject_Z (py_round svg_width))) in
  let svg := svg_set svg "height" (AMm (inject_Z (py_round svg_height))) in
  let svg :=
    svg_set svg "viewBox"
      (AViewBox (inject_Z (py_round svg_width))
                (inject_Z (py_round svg_height))) in
  let mark_svg :=
    if include_mark
    then [getSVGTextElement (mark_of rebar) rebar_shape_min_x
            (rebar_shape_min_y - 1.5 * dimension_font_size)
            dimension_font_family (1.5 * dimension_font_size) None]
    else [] in
  let rebar_shape_svg :=
    Element "g"
      [("id"%string, AStr (Name rebar));
       ("transform"%string, AScaleTranslate scale translate_x translate_y)]
      ([Element "g" [] (rebar_edges_svg st);
        Element "g" [] (edge_dimension_svg st)] ++ mark_svg) in
  svg_append svg rebar_shape_svg.

Definition getRebarShapeSVG (rebar : Rebar) (view_direction : PyVal)
  (include_mark : bool) (rebar_stroke_width : Q) (rebar_color_style : string)
  (dimension_font_family : string) (dimension_font_size : Q)
  (scale max_height max_width : Q) : M Svg :=
  match view_plane_of rebar view_direction with
  | None =>
      PrintError invalid_view_direction ;;;
      ret (Element "g" [] [])
  | Some view_plane =>
      let rebar_color := getRebarColor rebar rebar_color_style in
      let basewire := BaseWire rebar in
      let fillet_basewire := fillet_basewire_of rebar in
      '(rebar_shape_min_x, rebar_shape_min_y,
        rebar_shape_max_x, rebar_shape_max_y) <-
        getVertexesMinMaxXY (Vertexes fillet_basewire) view_plane ;;
      let rebar_shape_height := rebar_shape_max_y - rebar_shape_min_y in
      let rebar_shape_width := rebar_shape_max_x - rebar_shape_min_x in
      scale <- shape_scale include_mark rebar_stroke_width dimension_font_size
                 scale max_height max_width
                 rebar_shape_height rebar_shape_width ;;
      let svg_height :=
        svg_height_of include_mark rebar_stroke_width dimension_font_size
          rebar_shape_height scale in
      let svg_width :=
        svg_width_of rebar_stroke_width dimension_font_size
          rebar_shape_width scale in
      translate_x <- translate_x_of rebar_stroke_width dimension_font_size
                       scale rebar_shape_min_x ;;
      translate_y <- translate_y_of include_mark rebar_stroke_width
                       dimension_font_size scale rebar_shape_min_y ;;
      rebar_stroke_width <- py_div rebar_stroke_width scale ;;
      dimension_font_size <- py_div dimension_font_size scale ;;
      let edges := sortEdges (Edges fillet_basewire) in
      let straight_edges := sortEdges (Edges basewire) in
      st <- render_edges rebar view_plane straight_edges rebar_stroke_width
              rebar_color dimension_font_family dimension_font_size
              edges (mkLoopState 0 [] []) ;;
      ret (shape_document rebar include_mark dimension_font_family
             rebar_shape_min_x rebar_shape_min_y svg_width svg_height
             scale translate_x translate_y dimension_font_size st)
  end.

(** ** [getRebarShapeCutList] *)

(** Lines 448-455: the view directions after broadcasting or padding. *)
Definition pad_view_directions (n : nat) (view_directions : PyVal) : M PyVal :=
  match view_directions with
  | PyVector v => ret (PyList (repeat (PyVector v) n))
  | PyList l =>
      if (List.length l <? n)%nat
      then
        items <- py_iter
                   (PyVector (int_mul_Vector (Z.of_nat (n - List.length l)) zero_vector)) ;;
        ret (PyList (l ++ items))
      else ret (PyList l)
  | other => ret other
  end.

(** Lines 463-514: the row of bar [i]. *)
Definition cut_list_row (view_directions : PyVal) (include_mark : bool)
  (rebars_stroke_width : Q) (rebars_color_style : string)
  (dimension_font_family : string) (dimension_font_size : Q)
  (row_height width rebar_shape_max_height : Q)
  (i : nat) (rebar : Rebar) : M Svg :=
  view_direction <- py_getitem view_directions i ;;
  rebar_svg <- getRebarShapeSVG rebar view_direction false rebars_stroke_width
                 rebars_color_style dimension_font_family dimension_font_size
                 1 rebar_shape_max_height width ;;
  rebar_shape_svg_width <- svg_get_mm rebar_svg "width" ;;
  rebar_shape_svg_height <- svg_get_mm rebar_svg "height" ;;
  shape <- match svg_find_g rebar_svg (Name rebar) with
           | Some g => ret g
           | None => raise TypeError
           end ;;
  let rebar_shape_svg :=
    Element "g"
      [("transform"%string,
        ATranslate ((width - rebar_shape_svg_width) / 2)
          ((rebar_shape_max_height - rebar_shape_svg_height) / 2
           + (if include_mark then 2 * dimension_font_size else 0)))]
      [shape] in
  let row_border_svg :=
    getSVGRectangle 0 0 width row_height
      ("row_" ++ NilEmpty.string_of_uint (Nat.to_uint i)) in
  let mark_svg :=
    if include_mark
    then [getSVGTextElement (mark_of rebar) 2 (2 * dimension_font_size)
            dimension_font_family (1.5 * dimension_font_size) None]
    else [] in
  ret (Element "g"
         [("transform"%string,
           ATranslate 0 (inject_Z (Z.of_nat i) * row_height))]
         ([row_border_svg; rebar_shape_svg] ++ mark_svg)).

Fixpoint cut_list_rows (view_directions : PyVal) (include_mark : bool)
  (rebars_stroke_width : Q) (rebars_color_style : string)
  (dimension_font_family : string) (dimension_font_size : Q)
  (row_height width rebar_shape_max_height : Q)
  (i : nat) (rebars : list Rebar) : M (list Svg) :=
  match rebars with
  | [] => ret []
  | rebar :: rebars' =>
      row <- cut_list_row view_directions include_mark rebars_stroke_width
               rebars_color_style dimension_font_family dimension_font_size
               row_height width rebar_shape_max_height i rebar ;;
      rows <- cut_list_rows view_directions include_mark rebars_stroke_width
                rebars_color_style dimension_font_family dimension_font_size
                row_height width rebar_shape_max_height (S i) rebars' ;;
      ret (row :: rows)
  end.

(** The function, for an explicit [base_rebars_list] (the [None] default
    collects the bars of the active document and is outside the model). *)
Definition getRebarShapeCutList (base_rebars_list : list Rebar)
  (view_directions : PyVal) (include_mark : bool)
  (rebars_stroke_width : Q) (rebars_color_style : string)
  (dimension_font_family : string) (dimension_font_size : Q)
  (row_height width : Q) : M Svg :=
  match base_rebars_list with
  | [] =>
      ret (Element "svg"
             [("height"%string, AMm row_height);
              ("width"%string, AMm width);
              ("viewBox"%string, AViewBox width row_height)] [])
  | _ :: _ =>
      let n := List.length base_rebars_list in
      view_directions <- pad_view_directions n view_directions ;;
      let rebar_shape_max_height :=
        if include_mark then row_height - 2 * dimension_font_size
        else row_height in
      rows <- cut_list_rows view_directions include_mark rebars_stroke_width
                rebars_color_style dimension_font_family dimension_font_size
                row_height width rebar_shape_max_height 0 base_rebars_list ;;
      let svg := Element "svg" root_attrib rows in
      let svg := svg_set svg "width" (AMm width) in
      let svg := svg_set svg "height" (AMm (row_height * inject_Z (Z.of_nat n))) in
      let svg :=
        svg_set svg "viewBox"
          (AViewBox width (row_height * inject_Z (Z.of_nat n))) in
      ret svg
  end.

End Renderer.

(* ------------------------------------------------------------------ *)
(** ** A concrete host and two bars *)

Module Sample.

Definition dot (a b : Vector) : Q := x_ a * x_ b + y_ a * y_ b + z_ a * z_ b.

Definition sub (a b : Vector) : Vector :=
  mkVector (x_ a - x_ b) (y_ a - y_ b) (z_ a - z_ b).

(** A host whose view plane is always the XY plane seen along the given
    axis, with exact null test, no filleting and edges already in path
    order. *)
Definition top_view_host : Host :=
  {| getRebarsSpanAxis := fun _ => mkVector 0 0 1;
     getSVGPlaneFromAxis := fun v =>
       mkPlane zero_vector (mkVector 1 0 0) (mkVector 0 1 0) v;
     getProjectionToSVGPlane := fun p pl =>
       mkVector (dot (sub p (position pl)) (u_axis pl))
                (dot (sub p (position pl)) (v_axis pl)) 0;
     getRebarColor := fun _ style =>
       if String.eqb style "shape color" then "black"%string else style;
     isNull := fun v =>
       Qeq_bool (x_ v) 0 && Qeq_bool (y_ v) 0 && Qeq_bool (z_ v) 0;
     filletWire := fun w _ => w;
     sortEdges := fun es => es;
     Decimals := 2;
     root_attrib := [("version"%string, AStr "1.1")] |}.

Definition A : Vector := mkVector 0 0 0.
Definition B : Vector := mkVector 10 0 0.
Definition C : Vector := mkVector 10 20 0.

(** An L-shaped bar, 10 by 20, without rounding. *)
Definition L_bar : Rebar :=
  {| Name := "Rebar001"; Mark := Some "1"%string; MarkNumber := None;
     Rounding := 0; Diameter := 8;
     BaseWire := mkWire [mkEdge Line [A; B] 10; mkEdge Line [B; C] 20] [A; B; C] |}.

(** A straight bar of length 50 along X. *)
Definition straight_bar : Rebar :=
  {| Name := "Rebar002"; Mark := Some "2"%string; MarkNumber := None;
     Rounding := 0; Diameter := 8;
     BaseWire := mkWire [mkEdge Line [A; mkVector 50 0 0] 50]
                        [A; mkVector 50 0 0] |}.

(** A bar bent out of the view plane: its second leg runs along Z and
    projects to a point. *)
Definition hook_bar : Rebar :=
  {| Name := "Rebar003"; Mark := None; MarkNumber := Some 3%Z;
     Rounding := 0; Diameter := 8;
     BaseWire := mkWire [mkEdge Line [A; B] 10; mkEdge Line [B; mkVector 10 0 30] 30]
                        [A; B; mkVector 10 0 30] |}.

(** A bar with the two lengths of the labelling example, 50 and
    33.333. *)
Definition label_bar : Rebar :=
  {| Name := "Rebar004"; Mark := Some "4"%string; MarkNumber := None;
     Rounding := 0; Diameter := 8;
     BaseWire :=
       mkWire [mkEdge Line [A; mkVector 50 0 0] 50;
               mkEdge Line [mkVector 50 0 0; mkVector 50 33.333 0] 33.333]
              [A; mkVector 50 0 0; mkVector 50 33.333 0] |}.

(** A bar whose wire holds a straight edge, an arc and an edge of another
    geometry. *)
Definition arc_bar : Rebar :=
  {| Name := "Rebar005"; Mark := Some "5"%string; MarkNumber := None;
     Rounding := 0; Diameter := 8;
     BaseWire :=
       mkWire [mkEdge Line [A; B] 10;
               mkEdge Circle [B; mkVector 13 4 0] 5;
               mkEdge OtherGeom [] 0]
              [A; B; mkVector 13 4 0] |}.

(** A bar shape numbered 1. *)
Definition numbered_bar : Rebar :=
  {| Name := "RebarShape001"; Mark := None; MarkNumber := Some 1%Z;
     Rounding := 0; Diameter := 8;
     BaseWire := mkWire [mkEdge Line [A; B] 10; mkEdge Line [B; C] 20] [A; B; C] |}.


Definition auto : PyVal := PyVector zero_vector.

(** The view plane of the sample host. *)
Definition top_plane : Plane :=
  mkPlane zero_vector (mkVector 1 0 0) (mkVector 0 1 0) (mkVector 0 0 1).

End Sample.

(* ------------------------------------------------------------------ *)
(** ** Observations on a rendered tree *)

(** Every [stroke-width] handed to a line or round-corner element. *)
Fixpoint stroke_widths (e : Svg) : list Q :=
  match e with
  | Element _ _ cs => flat_map stroke_widths cs
  | getLineSVG _ _ w _ => [w]
  | getRoundCornerSVG _ _ _ w _ => [w]
  | SetAttr _ _ e' => stroke_widths e'
  | _ => []
  end.

(** Every [font-size] handed to a text element. *)
Fixpoint font_sizes (e : Svg) : list Q :=
  match e with
  | Element _ _ cs => flat_map font_sizes cs
  | getSVGTextElement _ _ _ _ s _ => [s]
  | SetAttr _ _ e' => font_sizes e'
  | _ => []
  end.

(** The text of a label element. *)
Fixpoint label_text (e : Svg) : option Label :=
  match e with
  | getSVGTextElement d _ _ _ _ _ => Some d
  | SetAttr _ _ e' => label_text e'
  | _ => None
  end.

(** Width and height of the [viewBox] of a document. *)
Definition viewBox_of (e : Svg) : option (Q * Q) :=
  match svg_get e "viewBox" with
  | Some (AViewBox w h) => Some (w, h)
  | _ => None
  end.

(** The scale of the transform of the shape group of a document. *)
Definition group_scale (e : Svg) : option Q :=
  match e with
  | Element _ _ (g :: _) =>
      match svg_get g "transform" with
      | Some (AScaleTranslate s _ _) => Some s
      | _ => None
      end
  | _ => None
  end.

(** The elements drawn for the edges and the dimension labels of a
    document returned by [getRebarShapeSVG]. *)
Definition drawn_edges (e : Svg) : list Svg :=
  match e with
  | Element _ _ (Element _ _ (Element _ _ es :: _) :: _) => es
  | _ => []
  end.

Definition drawn_labels (e : Svg) : list Svg :=
  match e with
  | Element _ _ (Element _ _ (_ :: Element _ _ ds :: _) :: _) => ds
  | _ => []
  end.

Definition children_of (e : Svg) : list Svg :=
  match e with
  | Element _ _ cs => cs
  | _ => []
  end.

Definition is_line (e : Edge) : bool :=
  match geomType e with Line => true | _ => false end.

(** Number of straight edges of a wire. *)
Definition count_lines (edges : list Edge) : nat :=
  List.length (filter is_line edges).


(** [isinstance(v, FreeCAD.Vector) or isinstance(v, WorkingPlane.Plane)]. *)
Definition supported_view_direction (v : PyVal) : bool :=
  match v with
  | PyVector _ | PyPlane _ => true
  | _ => false
  end.

(* ------------------------------------------------------------------ *)
(** ** The label as the specification words it, and reading it back *)











(** The fit guarantee as the specification states it: the height of the
    document does not exceed a supplied [max_height], nor its width a
    supplied [max_width], up to the rounding to a whole number. *)
Definition fits_within (max_height max_width : Q) (svg : Svg) : Prop :=
  exists w h,
    viewBox_of svg = Some (w, h) /\
    (~ max_height == 0 -> h <= inject_Z (Qceiling max_height)) /\
    (~ max_width == 0 -> w <= inject_Z (Qceiling max_width)).

(** Whether the element drawn for an edge carries a stroke width: a
    straight edge that does not degenerate to a dot, or a curved edge. *)
Definition draws_stroke {host : Host} (view_plane : Plane) (e : Edge) : bool :=
  match geomType e with
  | Line =>
      match EdgeVertexes e with
      | v1 :: v2 :: _ =>
          let p1 := getProjectionToSVGPlane v1 view_plane in
          let p2 := getProjectionToSVGPlane v2 view_plane in
          negb (same_round (x_ p1) (x_ p2) && same_round (y_ p1) (y_ p2))
      | _ => false
      end
  | Circle => true
  | OtherGeom => false
  end.

Definition count_strokes {host : Host} (view_plane : Plane) (edges : list Edge) : nat :=
  List.length (filter (draws_stroke view_plane) edges).

(** The scaling invariance as the specification states it: between the
    renders at scale 1 and at scale 2 the [viewBox] doubles in both
    dimensions, and the emitted stroke widths and font sizes are the
    same numbers. *)
Definition viewBox_doubles (svg1 svg2 : Svg) : Prop :=
  exists w1 h1 w2 h2,
    viewBox_of svg1 = Some (w1, h1) /\ viewBox_of svg2 = Some (w2, h2) /\
    w2 == 2 * w1 /\ h2 == 2 * h1.

Definition same_stroke_widths (svg1 svg2 : Svg) : Prop :=
  Forall2 Qeq (stroke_widths svg1) (stroke_widths svg2).

Definition same_font_sizes (svg1 svg2 : Svg) : Prop :=
  Forall2 Qeq (font_sizes svg1) (font_sizes svg2).

(** The row built for bar [i]: translated by [i * row_height], holding the
    border rectangle [row_i], the centred shape group and, if asked for,
    the mark. *)
Definition row_of (include_mark : bool) (ff : string) (fs row_height width : Q)
  (i : nat) (rebar : Rebar) (offset : AttrVal) (shape : Svg) : Svg :=
  Element "g"
    [("transform"%string, ATranslate 0 (inject_Z (Z.of_nat i) * row_height))]
    ([getSVGRectangle 0 0 width row_height
        ("row_" ++ NilEmpty.string_of_uint (Nat.to_uint i));
      Element "g" [("transform"%string, offset)] [shape]]
     ++ (if include_mark
         then [getSVGTextElement (mark_of rebar) 2 (2 * fs) ff (1.5 * fs) None]
         else [])).

(** A straight or curved edge has its two end points
    ([edge.Vertexes[0]] and [edge.Vertexes[1]] exist). *)
Definition has_end_points (e : Edge) : bool :=
  match geomType e with
  | OtherGeom => true
  | _ => (2 <=? List.length (EdgeVertexes e))%nat
  end.

(** The translation of the transform of the shape group of a document. *)
Definition group_translate (e : Svg) : option (Z * Z) :=
  match e with
  | Element _ _ (g :: _) =>
      match svg_get g "transform" with
      | Some (AScaleTranslate _ tx ty) => Some (tx, ty)
      | _ => None
      end
  | _ => None
  end.

(* ------------------------------------------------------------------ *)
(** ** [getBaseRebarsList] *)

(** An object of the active document, by its Draft type: ["Rebar"],
    ["RebarShape"] or any other. *)
Inductive DocObject : Set :=
| ArchRebar (rebar : Rebar)
| BaseRebar (rebar : Rebar)
| OtherObject.

(** [Draft.get_objects_of_type(Objects, "Rebar")] and
    [Draft.get_objects_of_type(Objects, "RebarShape")]: the objects of the
    type, in document order. *)
Fixpoint arch_rebars_of (Objects : list DocObject) : list Rebar :=
  match Objects with
  | [] => []
  | ArchRebar r :: rest => r :: arch_rebars_of rest
  | _ :: rest => arch_rebars_of rest
  end.

Fixpoint base_rebars_of (Objects : list DocObject) : list Rebar :=
  match Objects with
  | [] => []
  | BaseRebar r :: rest => r :: base_rebars_of rest
  | _ :: rest => base_rebars_of rest
  end.

(** [str(n)] of an integer. *)
Definition str_int (n : Z) : string := NilZero.string_of_int (Z.to_int n).

(** The text a loop of [getBaseRebarsList] tests and records for a bar:
    [rebar.Mark], or [str(rebar.MarkNumber)]; [None] when the attribute
    is missing. *)
Definition arch_mark (rebar : Rebar) : option string := Mark rebar.

Definition base_mark (rebar : Rebar) : option string :=
  option_map str_int (MarkNumber rebar).

(** [mark in mark_list]. *)
Definition mark_in (mark : string) (mark_list : list string) : bool :=
  existsb (String.eqb mark) mark_list.

(** Lines 81-84 and 94-97: keep the bars whose mark is not empty and not
    yet in [mark_list]. *)
Fixpoint add_by_mark (mark_of_rebar : Rebar -> option string)
  (candidates rebars : list Rebar) (mark_list : list string)
  : M (list Rebar * list string) :=
  match candidates with
  | [] => ret (rebars, mark_list)
  | rebar :: rest =>
      match mark_of_rebar rebar with
      | None => raise AttributeError
      | Some mark =>
          if negb (String.eqb mark "") && negb (mark_in mark mark_list)
          then add_by_mark mark_of_rebar rest (rebars ++ [rebar])
                 (mark_list ++ [mark])
          else add_by_mark mark_of_rebar rest rebars mark_list
      end
  end.

(** The keys of [sorted(base_rebars, key=lambda x: x.MarkNumber)]. *)
Fixpoint mark_numbers (base_rebars : list Rebar) : M (list (Z * Rebar)) :=
  match base_rebars with
  | [] => ret []
  | rebar :: rest =>
      match MarkNumber rebar with
      | None => raise AttributeError
      | Some n => keyed <- mark_numbers rest ;; ret ((n, rebar) :: keyed)
      end
  end.

(** [sorted] is a stable sort: insertion from the right, an element going
    before the first one whose key is not smaller. *)
Fixpoint insert_by_key (x : Z * Rebar) (l : list (Z * Rebar)) : list (Z * Rebar) :=
  match l with
  | [] => [x]
  | y :: l' =>
      if (fst x <=? fst y)%Z then x :: y :: l' else y :: insert_by_key x l'
  end.

Definition sorted_by_key (l : list (Z * Rebar)) : list (Z * Rebar) :=
  fold_right insert_by_key [] l.

(** Lines 88-92: the [RebarShape] objects, sorted by mark number (a mark
    number that is present is an integer). *)
Definition sorted_base_rebars (base_rebars : list Rebar) : M (list Rebar) :=
  match base_rebars with
  | [] => ret []
  | first :: _ =>
      match MarkNumber first with
      | None => raise AttributeError
      | Some _ =>
          keyed <- mark_numbers base_rebars ;;
          ret (map snd (sorted_by_key keyed))
      end
  end.

(** The function; [ActiveDocument] is [None] when no document is open,
    and the objects of the document otherwise. *)
Definition getBaseRebarsList (ActiveDocument : option (list DocObject))
  (one_rebar_per_mark : bool) : M (list Rebar) :=
  match ActiveDocument with
  | None => ret []
  | Some Objects =>
      let arch_rebars := arch_rebars_of Objects in
      '(rebars, mark_list) <-
        (if one_rebar_per_mark
         then add_by_mark arch_mark arch_rebars [] []
         else ret (arch_rebars, [])) ;;
      base_rebars <- sorted_base_rebars (base_rebars_of Objects) ;;
      if one_rebar_per_mark
      then '(rebars, _) <- add_by_mark base_mark base_rebars rebars mark_list ;;
           ret rebars
      else ret (rebars ++ base_rebars)
  end.

(** [getRebarShapeCutList] with its default: [base_rebars_list=None]
    takes the bars of the active document, one per mark. *)
Definition getRebarShapeCutList_of_document {host : Host}
  (ActiveDocument : option (list DocObject))
  (base_rebars_list : option (list Rebar)) (view_directions : PyVal)
  (include_mark : bool) (rebars_stroke_width : Q) (rebars_color_style : string)
  (dimension_font_family : string) (dimension_font_size : Q)
  (row_height width : Q) : M Svg :=
  base_rebars_list <-
    (match base_rebars_list with
     | None => getBaseRebarsList ActiveDocument true
     | Some l => ret l
     end) ;;
  getRebarShapeCutList base_rebars_list view_directions include_mark
    rebars_stroke_width rebars_color_style dimension_font_family
    dimension_font_size row_height width.

(** A document: two marked bars, one of them twice, another object, and
    two numbered bar shapes out of order (the hooked bar is numbered 3). *)
Module SampleDocument.

Definition document : list DocObject :=
  [ArchRebar Sample.L_bar; OtherObject; BaseRebar Sample.hook_bar;
   ArchRebar Sample.straight_bar; ArchRebar Sample.L_bar;
   BaseRebar Sample.numbered_bar].

(** A document whose bars all render in the top view. *)
Definition drawable_document : list DocObject :=
  [ArchRebar Sample.L_bar; OtherObject; ArchRebar Sample.label_bar;
   ArchRebar Sample.L_bar; BaseRebar Sample.numbered_bar].

(** A bar whose mark was left empty. *)
Definition unmarked_bar : Rebar :=
  {| Name := "Rebar006"; Mark := Some EmptyString; MarkNumber := None;
     Rounding := 0; Diameter := 8; BaseWire := BaseWire Sample.L_bar |}.

Definition unmarked_document : list DocObject :=
  [OtherObject; ArchRebar unmarked_bar; ArchRebar unmarked_bar].

End SampleDocument.

(** The mark under which a returned bar was kept: not empty, and the
    [Mark] of a ["Rebar"] object or the printed [MarkNumber] of a
    ["RebarShape"] object of the document. *)
Definition kept_mark (Objects : list DocObject) (rebar : Rebar) (m : string)
  : Prop :=
  m <> EmptyString /\
  ((In (ArchRebar rebar) Objects /\ arch_mark rebar = Some m) \/
   (In (BaseRebar rebar) Objects /\ base_mark rebar = Some m)).

(** [str(mark)] of a mark, a string or an integer. *)
Definition label_str (l : Label) : string :=
  match l with
  | LStr s => s
  | LInt n => str_int n
  end.

(** The mark written in a row of the cut list: the text of its third
    child. *)
Definition row_mark (row : Svg) : option Label :=
  match children_of row with
  | [_; _; mark] => label_text mark
  | _ => None
  end.

(** [hasattr(rebar, "Mark")] and [hasattr(rebar, "MarkNumber")]. *)
Definition has_Mark (rebar : Rebar) : bool :=
  match Mark rebar with Some _ => true | None => false end.

Definition has_MarkNumber (rebar : Rebar) : bool :=
  match MarkNumber rebar with Some _ => true | None => false end.

(** Bars of one mark number, and the order of mark numbers. *)
Definition has_mark_number (n : Z) (r : Rebar) : bool :=
  match MarkNumber r with
  | Some m => (m =? n)%Z
  | None => false
  end.

Definition mark_number_le (a b : Rebar) : Prop :=
  match MarkNumber a, MarkNumber b with
  | Some x, Some y => (x <= y)%Z
  | _, _ => False
  end.

Definition key_le (a b : Z * Rebar) : Prop := (fst a <= fst b)%Z.

(* ------------------------------------------------------------------ *)
(** * Properties *)

(** ** The monad *)

Lemma bind_inr_inv {A B} (m : M A) (k : A -> M B) out y :
  bind m k = (out, inr y) ->
  exists o1 x o2, m = (o1, inr x) /\ k x = (o2, inr y) /\ out = (o1 ++ o2)%list.
Proof.
  unfold bind. destruct m as [o1 [e | x]]; [discriminate |].
  destruct (k x) as [o2 r] eqn:Hk. intros E. inversion E; subst.
  exists o1, x, o2. auto.
Qed.

Lemma bind_ret_l {A B} (x : A) (k : A -> M B) : bind (ret x) k = k x.
Proof. unfold bind, ret. destruct (k x). reflexivity. Qed.

Lemma bind_raise_l {A B} (e : PyExc) (k : A -> M B) : bind (raise e) k = raise e.
Proof. reflexivity. Qed.

Lemma py_div_inr_inv a b out q :
  py_div a b = (out, inr q) -> Qeq_bool b 0 = false /\ q = a / b /\ out = [].
Proof.
  unfold py_div. destruct (Qeq_bool b 0); [discriminate |].
  intros E. inversion E. auto.
Qed.

Lemma py_div_nonzero a b : ~ b == 0 -> py_div a b = ret (a / b).
Proof.
  intros Hb. unfold py_div. destruct (Qeq_bool b 0) eqn:E; [| reflexivity].
  apply Qeq_bool_iff in E. contradiction.
Qed.

Lemma py_div_zero a b : b == 0 -> py_div a b = raise ZeroDivisionError.
Proof.
  intros Hb. unfold py_div. apply Qeq_bool_iff in Hb. rewrite Hb. reflexivity.
Qed.

Lemma py_index_inr_inv {A} (l : list A) i out x :
  py_index l i = (out, inr x) -> nth_error l i = Some x /\ out = [].
Proof.
  unfold py_index. destruct (nth_error l i); [| discriminate].
  intros E. inversion E. auto.
Qed.

Lemma silent_ret {A} (x : A) : silent (ret x).
Proof. reflexivity. Qed.

Lemma silent_raise {A} (e : PyExc) : silent (@raise A e).
Proof. reflexivity. Qed.

Lemma silent_bind {A B} (m : M A) (k : A -> M B) :
  silent m -> (forall x, silent (k x)) -> silent (bind m k).
Proof.
  unfold silent, bind. destruct m as [o [e | x]]; cbn; intros -> Hk; [reflexivity |].
  specialize (Hk x). destruct (k x) as [o' r]. cbn in *. now subst.
Qed.

Lemma silent_py_div a b : silent (py_div a b).
Proof. unfold py_div. destruct (Qeq_bool b 0); reflexivity. Qed.

Lemma silent_py_index {A} (l : list A) i : silent (py_index l i).
Proof. unfold py_index. destruct (nth_error l i); reflexivity. Qed.

Lemma silent_out {A} (m : M A) out r : silent m -> m = (out, r) -> out = [].
Proof. unfold silent. intros H ->. exact H. Qed.

Create HintDb silent.
#[export] Hint Resolve silent_ret silent_raise silent_py_div silent_py_index : silent.

Lemma truthy_true x : truthy x = true <-> ~ x == 0.
Proof.
  unfold truthy. rewrite negb_true_iff. split.
  - intros E Hx. apply Qeq_bool_iff in Hx. congruence.
  - intros Hx. destruct (Qeq_bool x 0) eqn:E; [| reflexivity].
    apply Qeq_bool_iff in E. contradiction.
Qed.

Lemma Qltb_true a b : Qltb a b = true <-> a < b.
Proof.
  unfold Qltb. rewrite negb_true_iff. split.
  - intros E. apply Qnot_le_lt. intros Hle. apply Qle_bool_iff in Hle. congruence.
  - intros Hlt. destruct (Qle_bool b a) eqn:E; [| reflexivity].
    apply Qle_bool_iff in E. lra.
Qed.

Lemma Qltb_false a b : Qltb a b = false <-> b <= a.
Proof.
  unfold Qltb. rewrite negb_false_iff. apply Qle_bool_iff.
Qed.

Lemma py_min_le_l a b : py_min a b <= a.
Proof.
  unfold py_min. destruct (Qltb b a) eqn:E.
  - apply Qltb_true in E. lra.
  - lra.
Qed.

Lemma py_min_le_r a b : py_min a b <= b.
Proof.
  unfold py_min. destruct (Qltb b a) eqn:E.
  - lra.
  - apply Qltb_false in E. lra.
Qed.

Lemma py_min_same a : py_min a a = a.
Proof. unfold py_min. destruct (Qltb a a); reflexivity. Qed.

Lemma py_max_ge_l a b : a <= py_max a b.
Proof.
  unfold py_max. destruct (Qltb a b) eqn:E.
  - apply Qltb_true in E. lra.
  - lra.
Qed.

Lemma py_max_ge_r a b : b <= py_max a b.
Proof.
  unfold py_max. destruct (Qltb a b) eqn:E.
  - lra.
  - apply Qltb_false in E. lra.
Qed.

(** ** Rounding to the nearest integer *)

Lemma py_round_floor x : (Qfloor x <= py_round x <= Qfloor x + 1)%Z.
Proof.
  unfold py_round.
  destruct (Qcompare (x - inject_Z (Qfloor x)) (1 # 2)); [destruct (Z.even _) | |]; lia.
Qed.

Lemma Qcompare_cases a b :
  (Qcompare a b = Eq /\ a == b) \/ (Qcompare a b = Lt /\ a < b)
  \/ (Qcompare a b = Gt /\ b < a).
Proof.
  destruct (Qcompare a b) eqn:C.
  - left. split; [reflexivity | now apply Qeq_alt].
  - right; left. split; [reflexivity | now apply Qlt_alt].
  - right; right. split; [reflexivity | now apply Qgt_alt].
Qed.

Lemma py_round_mono x y : x <= y -> (py_round x <= py_round y)%Z.
Proof.
  intros Hxy.
  pose proof (Qfloor_resp_le _ _ Hxy) as Hf.
  pose proof (py_round_floor x) as Hx. pose proof (py_round_floor y) as Hy.
  destruct (Z.eq_dec (Qfloor x) (Qfloor y)) as [E | NE]; [| lia].
  unfold py_round. rewrite <- E.
  destruct (Qcompare_cases (x - inject_Z (Qfloor x)) (1 # 2))
    as [[Cx Kx] | [[Cx Kx] | [Cx Kx]]];
    destruct (Qcompare_cases (y - inject_Z (Qfloor x)) (1 # 2))
      as [[Cy Ky] | [[Cy Ky] | [Cy Ky]]];
    rewrite Cx, Cy; try (destruct (Z.even (Qfloor x))); try lia; exfalso; lra.
Qed.

Lemma py_round_near x :
  x - (1 # 2) <= inject_Z (py_round x) /\ inject_Z (py_round x) <= x + (1 # 2).
Proof.
  pose proof (Qfloor_le x) as Hl. pose proof (Qlt_floor x) as Hu.
  rewrite inject_Z_plus in Hu. change (inject_Z 1) with 1 in Hu.
  unfold py_round.
  destruct (Qcompare_cases (x - inject_Z (Qfloor x)) (1 # 2))
    as [[C K] | [[C K] | [C K]]]; rewrite C;
    try (destruct (Z.even (Qfloor x))); rewrite ?inject_Z_plus;
    change (inject_Z 1) with 1; split; lra.
Qed.


Lemma py_round_comp x y : x == y -> py_round x = py_round y.
Proof.
  intros E.
  assert (H1 : x <= y) by lra. assert (H2 : y <= x) by lra.
  apply py_round_mono in H1. apply py_round_mono in H2. lia.
Qed.

(** ** The bounding box *)

Section Properties.

Context {host : Host}.

Lemma getVertexesMinMaxXY_inv vertex_list view_plane out box :
  getVertexesMinMaxXY vertex_list view_plane = (out, inr box) ->
  out = [] /\ vertex_list <> [].
Proof.
  unfold getVertexesMinMaxXY. destruct vertex_list as [| v0 rest]; [discriminate |].
  cbn. intros E. inversion E. split; [reflexivity | discriminate].
Qed.

Lemma getVertexesMinMaxXY_empty view_plane :
  getVertexesMinMaxXY [] view_plane = raise IndexError.
Proof. reflexivity. Qed.

(** The box is well formed: [min <= max] on both axes. *)
Lemma getVertexesMinMaxXY_ordered vertex_list view_plane out
      min_x min_y max_x max_y :
  getVertexesMinMaxXY vertex_list view_plane
    = (out, inr (min_x, min_y, max_x, max_y)) ->
  min_x <= max_x /\ min_y <= max_y.
Proof.
  unfold getVertexesMinMaxXY. destruct vertex_list as [| v0 rest]; [discriminate |].
  cbn [py_index nth_error bind ret tl app].
  set (p0 := getProjectionToSVGPlane v0 view_plane).
  assert (Hinit : x_ p0 <= x_ p0 /\ y_ p0 <= y_ p0) by (split; lra).
  revert Hinit.
  generalize (x_ p0) at 1 3 as a. generalize (y_ p0) at 1 3 as b.
  generalize (x_ p0) as c. generalize (y_ p0) as d.
  induction rest as [| v rest IH]; intros d c b a [Hx Hy] E.
  - cbn in E. inversion E; subst. auto.
  - cbn [fold_left] in E. eapply IH; [| exact E]. split.
    + pose proof (py_min_le_r (x_ (getProjectionToSVGPlane v view_plane)) a).
      pose proof (py_max_ge_r (x_ (getProjectionToSVGPlane v view_plane)) c). lra.
    + pose proof (py_min_le_r (y_ (getProjectionToSVGPlane v view_plane)) b).
      pose proof (py_max_ge_r (y_ (getProjectionToSVGPlane v view_plane)) d). lra.
Qed.

End Properties.

(** ** Structure of a successful render *)

Section RenderFacts.

Context {host : Host}.

Lemma render_edge_silent rebar view_plane straight_edges sw color ff fs st edge :
  silent (render_edge rebar view_plane straight_edges sw color ff fs st edge).
Proof.
  unfold render_edge.
  destruct (geomType edge); repeat (apply silent_bind; [| intros ?]);
    try (destruct (negb _)); repeat (apply silent_bind; [| intros ?]);
    auto with silent.
Qed.

Lemma render_edges_silent rebar view_plane straight_edges sw color ff fs edges :
  forall st,
    silent (render_edges rebar view_plane straight_edges sw color ff fs edges st).
Proof.
  induction edges as [| e es IH]; intros st; cbn [render_edges].
  - auto with silent.
  - apply silent_bind; [apply render_edge_silent | intros st'; apply IH].
Qed.

Lemma shape_scale_silent include_mark sw fs scale max_height max_width h w :
  silent (shape_scale include_mark sw fs scale max_height max_width h w).
Proof.
  unfold shape_scale.
  destruct (truthy max_height), (truthy max_width);
    repeat (apply silent_bind; [| intros ?]); auto with silent.
Qed.

Lemma translate_x_of_silent sw fs scale min_x :
  silent (translate_x_of sw fs scale min_x).
Proof.
  unfold translate_x_of. repeat (apply silent_bind; [| intros ?]); auto with silent.
Qed.

Lemma translate_y_of_silent include_mark sw fs scale min_y :
  silent (translate_y_of include_mark sw fs scale min_y).
Proof.
  unfold translate_y_of. repeat (apply silent_bind; [| intros ?]); auto with silent.
Qed.

(** A render with a supported view direction that returns a document went
    through every step of the function. *)
Lemma getRebarShapeSVG_inv rebar view_direction view_plane include_mark
      sw cs ff fs scale max_height max_width out svg :
  view_plane_of rebar view_direction = Some view_plane ->
  getRebarShapeSVG rebar view_direction include_mark sw cs ff fs
    scale max_height max_width = (out, inr svg) ->
  exists min_x min_y max_x max_y s tx ty st,
    getVertexesMinMaxXY (Vertexes (fillet_basewire_of rebar)) view_plane
      = ret (min_x, min_y, max_x, max_y) /\
    shape_scale include_mark sw fs scale max_height max_width
      (max_y - min_y) (max_x - min_x) = ret s /\
    Qeq_bool s 0 = false /\
    translate_x_of sw fs s min_x = ret tx /\
    translate_y_of include_mark sw fs s min_y = ret ty /\
    render_edges rebar view_plane (sortEdges (Edges (BaseWire rebar)))
      (sw / s) (getRebarColor rebar cs) ff (fs / s)
      (sortEdges (Edges (fillet_basewire_of rebar))) (mkLoopState 0 [] [])
      = ret st /\
    out = [] /\
    svg = shape_document rebar include_mark ff min_x min_y
            (svg_width_of sw fs (max_x - min_x) s)
            (svg_height_of include_mark sw fs (max_y - min_y) s)
            s tx ty (fs / s) st.
Proof.
  intros Hplane E. unfold getRebarShapeSVG in E. rewrite Hplane in E.
  cbv zeta in E.
  apply bind_inr_inv in E as (o1 & [[[min_x min_y] max_x] max_y] & o2 & Hbox & E & ->).
  pose proof (getVertexesMinMaxXY_inv _ _ _ _ Hbox) as [-> _].
  apply bind_inr_inv in E as (o3 & s & o4 & Hscale & E & ->).
  apply bind_inr_inv in E as (o5 & tx & o6 & Htx & E & ->).
  apply bind_inr_inv in E as (o7 & ty & o8 & Hty & E & ->).
  apply bind_inr_inv in E as (o9 & sw' & o10 & Hsw & E & ->).
  apply bind_inr_inv in E as (o11 & fs' & o12 & Hfs & E & ->).
  apply bind_inr_inv in E as (o13 & st & o14 & Hloop & E & ->).
  apply py_div_inr_inv in Hsw as (Hs & -> & ->).
  apply py_div_inr_inv in Hfs as (_ & -> & ->).
  pose proof (silent_out _ _ _ (render_edges_silent _ _ _ _ _ _ _ _ _) Hloop) as ->.
  pose proof (silent_out _ _ _ (shape_scale_silent _ _ _ _ _ _ _ _) Hscale) as ->.
  pose proof (silent_out _ _ _ (translate_x_of_silent _ _ _ _) Htx) as ->.
  pose proof (silent_out _ _ _ (translate_y_of_silent _ _ _ _ _) Hty) as ->.
  unfold ret in E. inversion E; subst.
  exists min_x, min_y, max_x, max_y, s, tx, ty, st.
  repeat split; auto.
Qed.

End RenderFacts.

(** ** Attributes *)

Lemma attrib_get_set_same a key v : attrib_get (attrib_set a key v) key = Some v.
Proof.
  induction a as [| [k w] a IH]; cbn.
  - now rewrite String.eqb_refl.
  - destruct (String.eqb k key) eqn:E; cbn; rewrite E; auto.
Qed.

Lemma attrib_get_set_other a key key' v :
  key <> key' -> attrib_get (attrib_set a key v) key' = attrib_get a key'.
Proof.
  intros Hne. induction a as [| [k w] a IH]; cbn.
  - apply String.eqb_neq in Hne. now rewrite Hne.
  - destruct (String.eqb k key) eqn:E; cbn.
    + apply String.eqb_eq in E. subst k.
      apply String.eqb_neq in Hne. now rewrite Hne.
    + destruct (String.eqb k key'); auto.
Qed.

Section DocumentFacts.

Context {host : Host}.

Lemma shape_document_width rebar im ff min_x min_y w h s tx ty fs st :
  svg_get (shape_document rebar im ff min_x min_y w h s tx ty fs st) "width"
  = Some (AMm (inject_Z (py_round w))).
Proof.
  cbn. rewrite !attrib_get_set_other by discriminate.
  apply attrib_get_set_same.
Qed.

Lemma shape_document_height rebar im ff min_x min_y w h s tx ty fs st :
  svg_get (shape_document rebar im ff min_x min_y w h s tx ty fs st) "height"
  = Some (AMm (inject_Z (py_round h))).
Proof.
  cbn. rewrite !attrib_get_set_other by discriminate.
  apply attrib_get_set_same.
Qed.

Lemma shape_document_viewBox rebar im ff min_x min_y w h s tx ty fs st :
  viewBox_of (shape_document rebar im ff min_x min_y w h s tx ty fs st)
  = Some (inject_Z (py_round w), inject_Z (py_round h)).
Proof.
  unfold viewBox_of. cbn. now rewrite attrib_get_set_same.
Qed.

End DocumentFacts.

(* ------------------------------------------------------------------ *)
(** * The properties of the specification *)

Section Claims.

Context {host : Host}.

(** C6.  A view direction that is neither a vector nor a plane makes
    [getRebarShapeSVG] print the error message once and return the empty
    container [<g/>]: no attribute, no child, and no exception. *)
Theorem C6_invalid_view_direction rebar view_direction include_mark
        sw cs ff fs scale max_height max_width :
  supported_view_direction view_direction = false ->
  getRebarShapeSVG rebar view_direction include_mark sw cs ff fs
    scale max_height max_width
  = ([invalid_view_direction], inr (Element "g" [] [])).
Proof.
  intros Hv. unfold getRebarShapeSVG.
  destruct view_direction; try discriminate; reflexivity.
Qed.

(** C9.  For the empty bar list [getRebarShapeCutList] returns, without
    printing or raising, a document of size [width] x [row_height] with the
    matching [viewBox] and no child. *)
Theorem C9_empty_bar_list view_directions include_mark sw cs ff fs row_height width :
  exists doc,
    getRebarShapeCutList [] view_directions include_mark sw cs ff fs
      row_height width = ([], inr doc) /\
    svg_get doc "width" = Some (AMm width) /\
    svg_get doc "height" = Some (AMm row_height) /\
    viewBox_of doc = Some (width, row_height) /\
    children_of doc = [].
Proof.
  eexists. split; [reflexivity |]. repeat split.
Qed.

End Claims.

Lemma C6_invalid_view_direction_witness :
  supported_view_direction (PyFloat 0) = false /\
  @getRebarShapeSVG Sample.top_view_host Sample.L_bar (PyFloat 0) true (1 # 8)
    "shape color" "DejaVu Sans" 2 1 0 0
  = ([invalid_view_direction], inr (Element "g" [] [])).
Proof.
  split; [reflexivity |].
  apply (@C6_invalid_view_direction Sample.top_view_host); reflexivity.
Defined.

(** ** The scaling factor *)

Lemma shape_scale_value include_mark sw fs scale max_height max_width h w :
  (truthy max_height = true -> ~ h == 0) ->
  (truthy max_width = true -> ~ w == 0) ->
  shape_scale include_mark sw fs scale max_height max_width h w
  = ret (py_min
           (if truthy max_width then (max_width - 2 * fs - 2 * sw) / w else scale)
           (if truthy max_height
            then (max_height - fs * (if include_mark then 4 else 2) - 2 * sw) / h
            else scale)).
Proof.
  intros Hh Hw. unfold shape_scale.
  destruct (truthy max_height); [rewrite py_div_nonzero by auto |];
    destruct (truthy max_width); [rewrite py_div_nonzero by auto | | rewrite py_div_nonzero by auto |];
    reflexivity.
Qed.

Lemma shape_scale_error include_mark sw fs scale max_height max_width h w :
  (truthy max_height = true /\ h == 0) \/ (truthy max_width = true /\ w == 0) ->
  shape_scale include_mark sw fs scale max_height max_width h w
  = raise ZeroDivisionError.
Proof.
  unfold shape_scale. intros [[Hm Hz] | [Hm Hz]]; rewrite Hm.
  - rewrite (py_div_zero _ h Hz). reflexivity.
  - rewrite (py_div_zero _ w Hz).
    destruct (truthy max_height); [| reflexivity].
    unfold py_div. destruct (Qeq_bool h 0); reflexivity.
Qed.

(** With a single constraint the explicit [scale] still takes part in the
    final [min]. *)
Lemma shape_scale_height_only include_mark sw fs scale max_height h :
  truthy max_height = true -> ~ h == 0 ->
  forall w,
    shape_scale include_mark sw fs scale max_height 0 h w
    = ret (py_min scale
             ((max_height - fs * (if include_mark then 4 else 2) - 2 * sw) / h)).
Proof.
  intros Hm Hh w. rewrite shape_scale_value; auto.
  - rewrite Hm. reflexivity.
  - cbn. discriminate.
Qed.

Section ScaleClaims.

Context {host : Host}.

(** C10.  The extents of the projected bounding box are never negative.
    When the extent on a constrained axis is zero, the scale derivation
    divides by it and [getRebarShapeSVG] raises [ZeroDivisionError]
    instead of returning a document; when the extent on every constrained
    axis is positive, the scale derivation returns a scale. *)
Theorem C10_zero_extent_division rebar view_direction view_plane include_mark
        sw cs ff fs scale max_height max_width min_x min_y max_x max_y :
  view_plane_of rebar view_direction = Some view_plane ->
  getVertexesMinMaxXY (Vertexes (fillet_basewire_of rebar)) view_plane
    = ret (min_x, min_y, max_x, max_y) ->
  let h := max_y - min_y in
  let w := max_x - min_x in
  (0 <= h /\ 0 <= w) /\
  ((truthy max_height = true /\ h == 0) \/ (truthy max_width = true /\ w == 0) ->
   getRebarShapeSVG rebar view_direction include_mark sw cs ff fs
     scale max_height max_width = ([], inl ZeroDivisionError)) /\
  ((truthy max_height = true -> 0 < h) -> (truthy max_width = true -> 0 < w) ->
   exists s,
     shape_scale include_mark sw fs scale max_height max_width h w = ret s).
Proof.
  intros Hplane Hbox h w.
  destruct (getVertexesMinMaxXY_ordered _ _ _ _ _ _ _ Hbox) as [Hx Hy].
  split; [subst h w; split; lra |]. split.
  - intros Hzero. unfold getRebarShapeSVG. rewrite Hplane. cbv zeta.
    rewrite Hbox, bind_ret_l.
    rewrite (shape_scale_error _ _ _ _ _ _ _ _ Hzero). reflexivity.
  - intros Hh Hw. eexists. apply shape_scale_value.
    + intros Hm. specialize (Hh Hm). lra.
    + intros Hm. specialize (Hw Hm). lra.
Qed.

End ScaleClaims.

Lemma C10_zero_extent_division_witness :
  @view_plane_of Sample.top_view_host Sample.straight_bar Sample.auto
    = Some Sample.top_plane /\
  @getVertexesMinMaxXY Sample.top_view_host
    (Vertexes (@fillet_basewire_of Sample.top_view_host Sample.straight_bar))
    Sample.top_plane = ret (0, 0, 50, 0) /\
  @getRebarShapeSVG Sample.top_view_host Sample.straight_bar Sample.auto true
    (1 # 8) "shape color" "DejaVu Sans" 2 1 40 0 = ([], inl ZeroDivisionError).
Proof.
  split; [reflexivity |]. split; [reflexivity |].
  apply (@C10_zero_extent_division Sample.top_view_host Sample.straight_bar
           Sample.auto Sample.top_plane true (1 # 8) "shape color" "DejaVu Sans"
           2 1 40 0 0 0 50 0); [reflexivity | reflexivity |].
  left. split; reflexivity.
Defined.

(** ** The explicit scale under a single constraint *)

(** C1.  The L-shaped bar (10 x 20) rendered with [max_height = 40] and no
    [max_width]: the scale derived from the constraint is 127/80, but the
    document is drawn at the explicit [scale], 1 or 1/2, and its size
    changes with it.  The docstring of [getRebarShapeSVG] promises that
    [scale] is ignored as soon as one constraint is set. *)
Theorem C1_explicit_scale_not_ignored :
  let render scale :=
    @getRebarShapeSVG Sample.top_view_host Sample.L_bar Sample.auto true
      (1 # 8) "shape color" "DejaVu Sans" 2 scale 40 0 in
  exists svg1 svg2,
    render 1 = ([], inr svg1) /\
    render (1 # 2) = ([], inr svg2) /\
    group_scale svg1 = Some 1 /\
    group_scale svg2 = Some (1 # 2) /\
    viewBox_of svg1 = Some (14, 28) /\
    viewBox_of svg2 = Some (9, 18) /\
    shape_scale true (1 # 8) 2 1 40 0 20 10
    = ret (py_min 1 ((40 - 2 * 4 - 2 * (1 # 8)) / 20)) /\
    ~ (40 - 2 * 4 - 2 * (1 # 8)) / 20 == 1.
Proof.
  cbv zeta. eexists. eexists.
  split; [vm_compute; reflexivity |].
  split; [vm_compute; reflexivity |].
  repeat split; try reflexivity. discriminate.
Qed.

(** ** Padding of the view directions *)

(** A list shorter than the bar list is extended by three floats, whatever
    the number of missing entries. *)
Lemma pad_view_directions_short n l :
  (List.length l < n)%nat ->
  pad_view_directions n (PyList l)
  = ret (PyList (l ++ [PyFloat (inject_Z (Z.of_nat (n - List.length l)) * 0);
                       PyFloat (inject_Z (Z.of_nat (n - List.length l)) * 0);
                       PyFloat (inject_Z (Z.of_nat (n - List.length l)) * 0)])).
Proof.
  intros H. cbn [pad_view_directions].
  destruct (Nat.ltb_spec (List.length l) n); [| lia].
  reflexivity.
Qed.

(** A row whose view direction is not supported prints the error and
    fails on the missing [width] attribute. *)
Lemma cut_list_row_unsupported {host : Host} view_directions view_direction
      include_mark sw cs ff fs row_height width max_shape_height i rebar :
  py_getitem view_directions i = ret view_direction ->
  supported_view_direction view_direction = false ->
  cut_list_row view_directions include_mark sw cs ff fs row_height width
    max_shape_height i rebar = ([invalid_view_direction], inl AttributeError).
Proof.
  intros Hi Hv. unfold cut_list_row. rewrite Hi, bind_ret_l.
  unfold getRebarShapeSVG.
  destruct view_direction; try discriminate; reflexivity.
Qed.

(** C2.  Two bars and a list holding one view direction: the list is
    extended with the three coordinates of one zero vector, not with a
    zero vector, so the second bar receives the float [0.0]; its render
    reports an invalid view direction and the cut list raises
    [AttributeError] on the attribute-less [<g/>], whereas the explicitly
    padded list renders both rows. *)
Theorem C2_short_view_directions_not_padded :
  let cut_list view_directions :=
    @getRebarShapeCutList Sample.top_view_host [Sample.L_bar; Sample.L_bar]
      view_directions true (1 # 8) "shape color" "DejaVu Sans" 2 40 60 in
  pad_view_directions 2 (PyList [Sample.auto])
  = ret (PyList [Sample.auto; PyFloat 0; PyFloat 0; PyFloat 0]) /\
  cut_list (PyList [Sample.auto])
  = ([invalid_view_direction], inl AttributeError) /\
  exists doc,
    cut_list (PyList [Sample.auto; Sample.auto]) = ([], inr doc) /\
    List.length (children_of doc) = 2%nat.
Proof.
  cbv zeta. split; [reflexivity |]. split; [vm_compute; reflexivity |].
  eexists. split; [vm_compute; reflexivity | reflexivity].
Qed.

(** ** The edge loop *)

Section LoopFacts.

Context {host : Host}.

Variables (rebar : Rebar) (view_plane : Plane) (straight_edges : list Edge).
Variables (sw : Q) (color ff : string) (fs : Q).

Let proj (v : Vector) : Vector := getProjectionToSVGPlane v view_plane.

(** What one iteration does to the loop state. *)
Lemma render_edge_inv st edge out st' :
  render_edge rebar view_plane straight_edges sw color ff fs st edge
    = (out, inr st') ->
  exists edge_svg,
    rebar_edges_svg st' = rebar_edges_svg st ++ [edge_svg] /\
    match geomType edge with
    | Line =>
        exists v1 v2 se rot cx cy x y,
          nth_error (EdgeVertexes edge) 0 = Some v1 /\
          nth_error (EdgeVertexes edge) 1 = Some v2 /\
          nth_error straight_edges (current_straight_edge_index st) = Some se /\
          edge_svg = straight_edge_svg (proj v1) (proj v2) sw color /\
          current_straight_edge_index st' = S (current_straight_edge_index st) /\
          edge_dimension_svg st'
          = edge_dimension_svg st ++
            [SetAttr "transform" (ARotate rot cx cy)
               (getSVGTextElement
                  (LStr (edge_length_label (Length se) Decimals)) x y ff fs
                  (Some "middle"%string))]
    | Circle =>
        exists v1 v2,
          nth_error (EdgeVertexes edge) 0 = Some v1 /\
          nth_error (EdgeVertexes edge) 1 = Some v2 /\
          edge_svg
          = (if same_round (x_ (proj v1)) (x_ (proj v2))
                || same_round (y_ (proj v1)) (y_ (proj v2))
             then getLineSVG (proj v1) (proj v2) sw color
             else getRoundCornerSVG edge (Rounding rebar * Diameter rebar)
                    view_plane sw color) /\
          current_straight_edge_index st' = current_straight_edge_index st /\
          edge_dimension_svg st' = edge_dimension_svg st
    | OtherGeom =>
        edge_svg = Element "g" [] [] /\
        current_straight_edge_index st' = current_straight_edge_index st /\
        edge_dimension_svg st' = edge_dimension_svg st
    end.
Proof.
  unfold render_edge. destruct (geomType edge); intros E.
  - apply bind_inr_inv in E as (o1 & v1 & o2 & Hv1 & E & ->).
    apply bind_inr_inv in E as (o3 & v2 & o4 & Hv2 & E & ->).
    apply py_index_inr_inv in Hv1 as [Hv1 ->].
    apply py_index_inr_inv in Hv2 as [Hv2 ->].
    apply bind_inr_inv in E as (o5 & rot & o6 & _ & E & ->).
    apply bind_inr_inv in E as (o7 & se & o8 & Hse & E & ->).
    apply py_index_inr_inv in Hse as [Hse ->].
    unfold ret in E. inversion E; subst; cbn.
    eexists. split; [reflexivity |].
    exists v1, v2, se, rot. do 4 eexists.
    repeat split; eauto.
  - apply bind_inr_inv in E as (o1 & v1 & o2 & Hv1 & E & ->).
    apply bind_inr_inv in E as (o3 & v2 & o4 & Hv2 & E & ->).
    apply py_index_inr_inv in Hv1 as [Hv1 ->].
    apply py_index_inr_inv in Hv2 as [Hv2 ->].
    unfold ret in E. inversion E; subst; cbn.
    eexists. split; [reflexivity |].
    exists v1, v2. repeat split; eauto.
  - unfold ret in E. inversion E; subst; cbn.
    eexists. split; [reflexivity |]. repeat split.
Qed.

(** Unfolding of the loop on a non-empty list. *)
Lemma render_edges_cons_inv edge edges st out st' :
  render_edges rebar view_plane straight_edges sw color ff fs (edge :: edges) st
    = (out, inr st') ->
  exists st1,
    render_edge rebar view_plane straight_edges sw color ff fs st edge = ret st1 /\
    render_edges rebar view_plane straight_edges sw color ff fs edges st1
      = ret st'.
Proof.
  cbn [render_edges]. intros E.
  apply bind_inr_inv in E as (o1 & st1 & o2 & H1 & H2 & ->).
  pose proof (silent_out _ _ _ (render_edge_silent _ _ _ _ _ _ _ _ _) H1) as ->.
  pose proof (silent_out _ _ _ (render_edges_silent _ _ _ _ _ _ _ _ _) H2) as ->.
  exists st1. split; assumption.
Qed.

(** One element is appended to [rebar_edges_svg] per edge, in order, and
    a straight edge with two end points yields the element computed by
    [straight_edge_svg]. *)
Lemma render_edges_drawn edges :
  forall st out st',
    render_edges rebar view_plane straight_edges sw color ff fs edges st
      = (out, inr st') ->
    exists drawn,
      rebar_edges_svg st' = rebar_edges_svg st ++ drawn /\
      List.length drawn = List.length edges /\
      forall i edge v1 v2,
        nth_error edges i = Some edge ->
        geomType edge = Line ->
        nth_error (EdgeVertexes edge) 0 = Some v1 ->
        nth_error (EdgeVertexes edge) 1 = Some v2 ->
        nth_error drawn i = Some (straight_edge_svg (proj v1) (proj v2) sw color).
Proof.
  induction edges as [| e es IH]; intros st out st' E.
  - cbn in E. inversion E; subst. exists []. rewrite app_nil_r.
    repeat split. intros [| i] ? ? ? Hn; discriminate.
  - apply render_edges_cons_inv in E as (st1 & H1 & H2).
    apply render_edge_inv in H1 as (edge_svg & Hedges & Hcase).
    apply IH in H2 as (drawn & Hd & Hlen & Hnth).
    exists (edge_svg :: drawn). split; [| split].
    + rewrite Hd, Hedges, <- app_assoc. reflexivity.
    + cbn. now rewrite Hlen.
    + intros [| i] edge v1 v2 Hi Hline Hv1 Hv2; cbn in Hi |- *.
      * inversion Hi; subst e. rewrite Hline in Hcase.
        destruct Hcase as (v1' & v2' & se & rot & cx & cy & x & y
                           & Hv1' & Hv2' & _ & -> & _).
        congruence.
      * eapply Hnth; eauto.
Qed.

(** The division of the label rotation is guarded: rounded abscissas
    that differ are abscissas that differ. *)
Lemma same_round_false a b : same_round a b = false -> ~ a - b == 0.
Proof.
  unfold same_round. intros H E. apply Z.eqb_neq in H. apply H.
  apply py_round_comp. lra.
Qed.

Lemma render_edge_ok st edge :
  has_end_points edge = true ->
  (geomType edge = Line ->
   (current_straight_edge_index st < List.length straight_edges)%nat) ->
  exists st',
    render_edge rebar view_plane straight_edges sw color ff fs st edge = ret st'.
Proof.
  unfold has_end_points, render_edge. intros Hv Hse.
  destruct (geomType edge).
  - apply Nat.leb_le in Hv.
    destruct (EdgeVertexes edge) as [| v1 [| v2 vs]]; cbn in Hv; try lia.
    cbn [py_index nth_error]. rewrite !bind_ret_l.
    destruct (nth_error straight_edges (current_straight_edge_index st))
      as [se |] eqn:Ese.
    2:{ apply nth_error_None in Ese. specialize (Hse eq_refl). lia. }
    destruct (same_round (x_ (getProjectionToSVGPlane v2 view_plane))
                (x_ (getProjectionToSVGPlane v1 view_plane))) eqn:R; cbn [negb].
    + rewrite bind_ret_l. unfold py_index. rewrite Ese, bind_ret_l.
      eexists. reflexivity.
    + rewrite (py_div_nonzero _ _ (same_round_false _ _ R)), !bind_ret_l.
      unfold py_index. rewrite Ese, bind_ret_l. eexists. reflexivity.
  - apply Nat.leb_le in Hv.
    destruct (EdgeVertexes edge) as [| v1 [| v2 vs]]; cbn in Hv; try lia.
    cbn [py_index nth_error]. rewrite !bind_ret_l. eexists. reflexivity.
  - eexists. reflexivity.
Qed.

(** The loop returns when every edge has its end points and the cursor
    cannot run past the true lengths. *)
Lemma render_edges_total edges : forall st,
  forallb has_end_points edges = true ->
  (current_straight_edge_index st + count_lines edges
   <= List.length straight_edges)%nat ->
  exists st',
    render_edges rebar view_plane straight_edges sw color ff fs edges st = ret st'.
Proof.
  unfold count_lines.
  induction edges as [| e es IH]; intros st Hv Hn.
  - exists st. reflexivity.
  - cbn [forallb] in Hv. apply andb_true_iff in Hv as [He Hes].
    cbn [filter] in Hn.
    assert (L : is_line e = match geomType e with Line => true | _ => false end)
      by reflexivity.
    destruct (render_edge_ok st e He) as [st1 H1].
    { intros G. rewrite G in L. rewrite L in Hn. cbn in Hn. lia. }
    cbn [render_edges]. rewrite H1, bind_ret_l.
    apply IH; [exact Hes |].
    apply render_edge_inv in H1 as (edge_svg & _ & Hcase).
    destruct (geomType e); rewrite L in Hn; cbn [List.length] in Hn.
    + destruct Hcase as (? & ? & ? & ? & ? & ? & ? & ? & _ & _ & _ & _ & -> & _).
      lia.
    + destruct Hcase as (? & ? & _ & _ & _ & -> & _). exact Hn.
    + destruct Hcase as (_ & -> & _). exact Hn.
Qed.

End LoopFacts.

Section EdgeClaims.

Context {host : Host}.

Lemma shape_document_drawn_edges rebar im ff min_x min_y w h s tx ty fs st :
  drawn_edges (shape_document rebar im ff min_x min_y w h s tx ty fs st)
  = rebar_edges_svg st.
Proof. reflexivity. Qed.

Lemma shape_document_drawn_labels rebar im ff min_x min_y w h s tx ty fs st :
  drawn_labels (shape_document rebar im ff min_x min_y w h s tx ty fs st)
  = edge_dimension_svg st.
Proof. reflexivity. Qed.

Lemma shape_document_group_scale rebar im ff min_x min_y w h s tx ty fs st :
  group_scale (shape_document rebar im ff min_x min_y w h s tx ty fs st) = Some s.
Proof. reflexivity. Qed.

(** The render returns a document, and prints nothing, when the view
    direction is supported, the wire has a vertex, the final scale is not
    zero, every edge has its end points and the base wire has a true
    length for every straight edge drawn. *)
Lemma getRebarShapeSVG_total rebar view_direction view_plane include_mark
      sw cs ff fs scale max_height max_width min_x min_y max_x max_y s :
  view_plane_of rebar view_direction = Some view_plane ->
  getVertexesMinMaxXY (Vertexes (fillet_basewire_of rebar)) view_plane
    = ret (min_x, min_y, max_x, max_y) ->
  shape_scale include_mark sw fs scale max_height max_width
    (max_y - min_y) (max_x - min_x) = ret s ->
  ~ s == 0 ->
  forallb has_end_points (sortEdges (Edges (fillet_basewire_of rebar))) = true ->
  (count_lines (sortEdges (Edges (fillet_basewire_of rebar)))
   <= List.length (sortEdges (Edges (BaseWire rebar))))%nat ->
  exists svg,
    getRebarShapeSVG rebar view_direction include_mark sw cs ff fs
      scale max_height max_width = ([], inr svg).
Proof.
  intros Hplane Hbox Hs Hnz Hv Hn.
  unfold getRebarShapeSVG. rewrite Hplane. cbv zeta.
  rewrite Hbox, bind_ret_l, Hs, bind_ret_l.
  unfold translate_x_of, translate_y_of.
  rewrite !(py_div_nonzero _ s Hnz), !bind_ret_l.
  destruct (render_edges_total rebar view_plane
              (sortEdges (Edges (BaseWire rebar))) (sw / s)
              (getRebarColor rebar cs) ff (fs / s)
              (sortEdges (Edges (fillet_basewire_of rebar)))
              (mkLoopState 0 [] []) Hv Hn) as [st Hst].
  rewrite Hst, bind_ret_l. eexists. reflexivity.
Qed.

(** C7.  In a returned document drawn at scale [s], the element of the
    [i]-th edge of the drawn wire, when that edge is straight, is a dot of
    radius twice the (scale-compensated) stroke width, filled with the bar
    colour, if its two end points project to the same rounded x and the
    same rounded y, and a line otherwise.  The document is returned when
    the wire has a vertex, the final scale is not zero, every edge has its
    end points and the base wire has a true length for every straight
    edge. *)
Theorem C7_degenerate_straight_edge rebar view_direction view_plane include_mark
        sw cs ff fs scale max_height max_width :
  view_plane_of rebar view_direction = Some view_plane ->
  let edges := sortEdges (Edges (fillet_basewire_of rebar)) in
  let render :=
    getRebarShapeSVG rebar view_direction include_mark sw cs ff fs
      scale max_height max_width in
  (forall out svg,
      render = (out, inr svg) ->
      exists s,
        group_scale svg = Some s /\
        List.length (drawn_edges svg) = List.length edges /\
        forall i edge v1 v2,
          nth_error edges i = Some edge ->
          geomType edge = Line ->
          nth_error (EdgeVertexes edge) 0 = Some v1 ->
          nth_error (EdgeVertexes edge) 1 = Some v2 ->
          let p1 := getProjectionToSVGPlane v1 view_plane in
          let p2 := getProjectionToSVGPlane v2 view_plane in
          nth_error (drawn_edges svg) i
          = Some (if (py_round (x_ p1) =? py_round (x_ p2))%Z
                     && (py_round (y_ p1) =? py_round (y_ p2))%Z
                  then getPointSVG p1 (2 * (sw / s)) (getRebarColor rebar cs)
                  else getLineSVG p1 p2 (sw / s) (getRebarColor rebar cs))) /\
  (forall min_x min_y max_x max_y s,
      getVertexesMinMaxXY (Vertexes (fillet_basewire_of rebar)) view_plane
        = ret (min_x, min_y, max_x, max_y) ->
      shape_scale include_mark sw fs scale max_height max_width
        (max_y - min_y) (max_x - min_x) = ret s ->
      ~ s == 0 ->
      forallb has_end_points edges = true ->
      (count_lines edges <= List.length (sortEdges (Edges (BaseWire rebar))))%nat ->
      exists svg, render = ([], inr svg)).
Proof.
  intros Hplane edges render. split.
  - intros out svg E.
    destruct (getRebarShapeSVG_inv _ _ _ _ _ _ _ _ _ _ _ _ _ Hplane E)
      as (min_x & min_y & max_x & max_y & s & tx & ty & st
          & _ & _ & _ & _ & _ & Hloop & _ & ->).
    exists s. rewrite shape_document_group_scale, shape_document_drawn_edges.
    apply render_edges_drawn in Hloop as (drawn & Hd & Hlen & Hnth).
    cbn in Hd. subst drawn. repeat split; auto.
  - intros min_x min_y max_x max_y s Hbox Hs Hnz Hv Hn.
    eapply getRebarShapeSVG_total; eauto.
Qed.

End EdgeClaims.

Lemma C7_degenerate_straight_edge_witness :
  exists svg,
    @view_plane_of Sample.top_view_host Sample.hook_bar Sample.auto
      = Some Sample.top_plane /\
    @getRebarShapeSVG Sample.top_view_host Sample.hook_bar Sample.auto true
      (1 # 8) "shape color" "DejaVu Sans" 2 2 0 0 = ([], inr svg) /\
    nth_error (drawn_edges svg) 1
    = Some (getPointSVG (mkVector 10 0 0) (2 * ((1 # 8) / 2)) "black") /\
    nth_error (drawn_edges svg) 0
    = Some (getLineSVG (mkVector 0 0 0) (mkVector 10 0 0) ((1 # 8) / 2) "black").
Proof.
  destruct (@C7_degenerate_straight_edge Sample.top_view_host Sample.hook_bar
              Sample.auto Sample.top_plane true (1 # 8) "shape color"
              "DejaVu Sans" 2 2 0 0 eq_refl) as [Hdrawn Hreturns].
  destruct (Hreturns 0 0 10 0 2) as [svg Hsvg];
    try reflexivity; [discriminate |].
  exists svg. split; [reflexivity |]. split; [exact Hsvg |].
  destruct (Hdrawn [] svg Hsvg) as (s & Hs & _ & Hedge).
  assert (Hscale : group_scale svg = Some 2).
  { vm_compute in Hsvg. inversion Hsvg. reflexivity. }
  rewrite Hscale in Hs. injection Hs as <-. split.
  - exact (Hedge 1%nat _ _ _ eq_refl eq_refl eq_refl eq_refl).
  - exact (Hedge 0%nat _ _ _ eq_refl eq_refl eq_refl eq_refl).
Defined.

(** ** The fit under size constraints *)

(** A rounded number does not exceed the next whole number above a
    bound of the number. *)
Lemma py_round_le_ceiling x y : x <= y -> (py_round x <= Qceiling y)%Z.
Proof.
  intros Hxy.
  pose proof (py_round_near x) as [_ Hu].
  pose proof (Qle_ceiling y) as Hc.
  assert (H : inject_Z (py_round x) < inject_Z (Qceiling y + 1)).
  { rewrite inject_Z_plus. change (inject_Z 1) with 1. lra. }
  rewrite <- Zlt_Qlt in H. lia.
Qed.

Section FitClaim.

Context {host : Host}.

(** C4, amended.  For a shape whose projected height and width are
    positive and a stroke width that is not negative, the scale derivation
    returns a scale, and every returned document has whole numbers as
    [height], [width] and [viewBox] size, the height at most a supplied
    (non-zero) [max_height] rounded up to a whole number and the width at
    most a supplied [max_width] rounded up; the document is returned when
    the final scale is not zero, every edge has its end points and the
    base wire has a true length for every straight edge. *)
Theorem C4_fit_amended rebar view_direction view_plane include_mark
        sw cs ff fs scale max_height max_width min_x min_y max_x max_y :
  view_plane_of rebar view_direction = Some view_plane ->
  getVertexesMinMaxXY (Vertexes (fillet_basewire_of rebar)) view_plane
    = ret (min_x, min_y, max_x, max_y) ->
  min_y < max_y -> min_x < max_x -> 0 <= sw ->
  let render :=
    getRebarShapeSVG rebar view_direction include_mark sw cs ff fs
      scale max_height max_width in
  exists s,
    shape_scale include_mark sw fs scale max_height max_width
      (max_y - min_y) (max_x - min_x) = ret s /\
    (forall out svg,
        render = (out, inr svg) ->
        exists svg_width svg_height : Z,
          svg_get svg "height" = Some (AMm (inject_Z svg_height)) /\
          svg_get svg "width" = Some (AMm (inject_Z svg_width)) /\
          viewBox_of svg = Some (inject_Z svg_width, inject_Z svg_height) /\
          (~ max_height == 0 -> (svg_height <= Qceiling max_height)%Z) /\
          (~ max_width == 0 -> (svg_width <= Qceiling max_width)%Z)) /\
    (~ s == 0 ->
     forallb has_end_points (sortEdges (Edges (fillet_basewire_of rebar))) = true ->
     (count_lines (sortEdges (Edges (fillet_basewire_of rebar)))
      <= List.length (sortEdges (Edges (BaseWire rebar))))%nat ->
     exists svg, render = ([], inr svg)).
Proof.
  intros Hplane Hbox Hy Hx Hsw render. subst render.
  set (h := max_y - min_y). set (w := max_x - min_x).
  assert (Hh : 0 < h) by (subst h; lra).
  assert (Hw : 0 < w) by (subst w; lra).
  pose proof (shape_scale_value include_mark sw fs scale max_height max_width
                h w ltac:(intros _; lra) ltac:(intros _; lra)) as Hs.
  eexists. split; [exact Hs |]. split.
  - intros out svg E.
    destruct (getRebarShapeSVG_inv _ _ _ _ _ _ _ _ _ _ _ _ _ Hplane E)
      as (min_x' & min_y' & max_x' & max_y' & s & tx & ty & st
          & Hbox' & Hs' & _ & _ & _ & _ & _ & ->).
    rewrite Hbox in Hbox'. inversion Hbox'; subst min_x' min_y' max_x' max_y'.
    fold h w in Hs' |- *. rewrite Hs in Hs'.
    unfold ret in Hs'. injection Hs' as Hs'. subst s.
    do 2 eexists.
    rewrite shape_document_height, shape_document_width, shape_document_viewBox.
    do 3 (split; [reflexivity |]). split.
    + intros Hm. apply truthy_true in Hm. rewrite Hm.
      apply py_round_le_ceiling. unfold svg_height_of.
      set (v := (max_height - fs * (if include_mark then 4 else 2) - 2 * sw) / h).
      pose proof (py_min_le_r
                    (if truthy max_width then (max_width - 2 * fs - 2 * sw) / w
                     else scale) v) as Hmin.
      apply (Qmult_le_l _ _ h Hh) in Hmin.
      assert (Hv : h * v == max_height - fs * (if include_mark then 4 else 2) - 2 * sw).
      { subst v. apply Qmult_div_r. lra. }
      lra.
    + intros Hm. apply truthy_true in Hm. rewrite Hm.
      apply py_round_le_ceiling. unfold svg_width_of.
      set (u := (max_width - 2 * fs - 2 * sw) / w).
      pose proof (py_min_le_l u
                    (if truthy max_height
                     then (max_height - fs * (if include_mark then 4 else 2) - 2 * sw) / h
                     else scale)) as Hmin.
      apply (Qmult_le_l _ _ w Hw) in Hmin.
      assert (Hu : w * u == max_width - 2 * fs - 2 * sw).
      { subst u. apply Qmult_div_r. lra. }
      lra.
  - intros Hnz Hv Hn. eapply getRebarShapeSVG_total; eauto.
Qed.

End FitClaim.

(** C4 as stated fails for a negative stroke width: the L-shaped bar
    (10 x 20, font 2) rendered with stroke width -1 under [max_height = 42]
    and [max_width = 60] is drawn at scale 2 and its document is 26 x 46,
    higher than the 42 allowed. *)
Lemma C4_fit_counterexample :
  exists svg,
    @getRebarShapeSVG Sample.top_view_host Sample.L_bar Sample.auto false
      (- (1)) "shape color" "DejaVu Sans" 2 1 42 60 = ([], inr svg) /\
    svg_get svg "height" = Some (AMm 46) /\
    viewBox_of svg = Some (26, 46) /\
    ~ fits_within 42 60 svg.
Proof.
  eexists. split; [vm_compute; reflexivity |].
  split; [reflexivity |]. split; [reflexivity |].
  intros (w & h & Hbox & Hh & _).
  vm_compute in Hbox. inversion Hbox; subst.
  assert (Hnz : ~ 42 == 0) by discriminate.
  apply Hh in Hnz. vm_compute in Hnz. apply Hnz. reflexivity.
Qed.

Lemma C4_fit_amended_witness :
  @view_plane_of Sample.top_view_host Sample.L_bar Sample.auto
    = Some Sample.top_plane /\
  @getVertexesMinMaxXY Sample.top_view_host
    (Vertexes (@fillet_basewire_of Sample.top_view_host Sample.L_bar))
    Sample.top_plane = ret (0, 0, 10, 20) /\
  0 < 20 /\ 0 < 10 /\ 0 <= 1 # 8 /\
  exists svg,
    @getRebarShapeSVG Sample.top_view_host Sample.L_bar Sample.auto false
      (1 # 8) "shape color" "DejaVu Sans" 2 1 36 60 = ([], inr svg) /\
    exists svg_width svg_height : Z,
      viewBox_of svg = Some (inject_Z svg_width, inject_Z svg_height) /\
      (svg_height <= 36)%Z /\ (svg_width <= 60)%Z.
Proof.
  split; [reflexivity |]. split; [reflexivity |].
  split; [reflexivity |]. split; [reflexivity |]. split; [discriminate |].
  destruct (@C4_fit_amended Sample.top_view_host Sample.L_bar Sample.auto
              Sample.top_plane false (1 # 8) "shape color" "DejaVu Sans"
              2 1 36 60 0 0 10 20)
    as (s & Hs & Hfit & Hreturns);
    try reflexivity; [discriminate |].
  destruct Hreturns as [svg Hsvg].
  - vm_compute in Hs. inversion Hs. discriminate.
  - reflexivity.
  - cbn. lia.
  - exists svg. split; [exact Hsvg |].
    destruct (Hfit [] svg Hsvg) as (W & H & _ & _ & Hbox & Hh & Hw).
    exists W, H. split; [exact Hbox |]. split.
    + apply Hh. discriminate.
    + apply Hw. discriminate.
Defined.

(** ** Strings *)

Local Open Scope string_scope.

Lemma string_app_assoc (a b c : string) : (a ++ b) ++ c = a ++ (b ++ c).
Proof. induction a; cbn; congruence. Qed.













(** ** Digits *)












(** ** The dimension label *)

Section LabelDigits.

Variables (m : Z) (n : nat).
Hypothesis m_nonneg : (0 <= m)%Z.
Hypothesis m_positional : in_positional_range (mkDecFloat m n) = true.

Let p : Z := (10 ^ Z.of_nat n)%Z.
Let I : string := int_digits (m / p).










End LabelDigits.

Local Close Scope string_scope.


(** Outside the positional range [str] writes an exponent, with a point
    only when there are several significant digits, and the stripping of
    zeros then reaches the exponent digits: the length 1.5e-10 at
    precision 11 is labelled [1.5e-1]. *)
Lemma edge_length_label_exponent :
  py_str (py_round_ndigits (2 # 100000) 5) = "2e-05"%string /\
  edge_length_label (2 # 100000) 5 = "2e-05"%string /\
  py_str (py_round_ndigits (15 # 100000000000) 11) = "1.5e-10"%string /\
  edge_length_label (15 # 100000000000) 11 = "1.5e-1"%string /\
  py_str (py_round_ndigits (inject_Z (10 ^ 16)) 2) = "1e+16"%string /\
  py_str (py_round_ndigits (1 # 10000) 4) = "0.0001"%string /\
  py_str (py_round_ndigits (inject_Z (10 ^ 16 - 2)) 0)
  = "9999999999999998.0"%string.
Proof. vm_compute. repeat split. Qed.


Section LabelLoop.

Context {host : Host}.

Variables (rebar : Rebar) (view_plane : Plane) (straight_edges : list Edge).
Variables (sw : Q) (color ff : string) (fs : Q).

Lemma skipn_nth_error {A} (l : list A) : forall i x,
  nth_error l i = Some x -> skipn i l = x :: skipn (S i) l.
Proof.
  induction l as [| a l IH]; intros [| i] x H; cbn in *; try discriminate.
  - congruence.
  - now apply IH.
Qed.

Lemma In_firstn_skipn {A} (l : list A) : forall k i x,
  In x (firstn k (skipn i l)) -> In x l.
Proof.
  intros k i x H.
  rewrite <- (firstn_skipn i l). apply in_or_app. right.
  rewrite <- (firstn_skipn k (skipn i l)). apply in_or_app. left. exact H.
Qed.

(** The cursor moves by one on each straight edge and stays on the
    others; the labels appended are those of the true lengths met by the
    cursor, in order. *)
Lemma render_edges_labels edges :
  forall st out st',
    render_edges rebar view_plane straight_edges sw color ff fs edges st
      = (out, inr st') ->
    let first := current_straight_edge_index st in
    let used := firstn (count_lines edges) (skipn first straight_edges) in
    current_straight_edge_index st' = (first + count_lines edges)%nat /\
    List.length used = count_lines edges /\
    exists labels,
      edge_dimension_svg st' = edge_dimension_svg st ++ labels /\
      map label_text labels
      = map (fun e => Some (LStr (edge_length_label (Length e) Decimals))) used /\
      map font_sizes labels = map (fun _ => [fs]) used.
Proof.
  unfold count_lines.
  induction edges as [| e es IH]; intros st out st' E; cbv zeta.
  - cbn in E. inversion E; subst. cbn. rewrite Nat.add_0_r.
    repeat split. exists []. now rewrite app_nil_r.
  - apply render_edges_cons_inv in E as (st1 & H1 & H2).
    apply render_edge_inv in H1 as (edge_svg & _ & Hcase).
    apply IH in H2 as (Hidx & Hlen & labels & Hd & Hmap & Hfs).
    cbn [filter].
    assert (L : is_line e = match geomType e with Line => true | _ => false end)
      by reflexivity.
    destruct (geomType e); rewrite L.
    + destruct Hcase as (v1 & v2 & se & rot & cx & cy & x & y
                         & _ & _ & Hse & _ & Hi & Hdims).
      rewrite Hi in *. cbn [List.length].
      rewrite (skipn_nth_error _ _ _ Hse). cbn [firstn List.length map].
      split; [lia |]. split; [now rewrite Hlen |].
      eexists (_ :: labels). split; [| split].
      * rewrite Hd, Hdims, <- app_assoc. reflexivity.
      * cbn [map label_text]. now rewrite Hmap.
      * cbn [map font_sizes]. now rewrite Hfs.
    + destruct Hcase as (v1 & v2 & _ & _ & _ & Hi & Hdims).
      rewrite Hi, Hdims in *. split; [exact Hidx |]. split; [exact Hlen |].
      exists labels. auto.
    + destruct Hcase as (_ & Hi & Hdims).
      rewrite Hi, Hdims in *. split; [exact Hidx |]. split; [exact Hlen |].
      exists labels. auto.
Qed.

End LabelLoop.

Section DimensionLabelClaim.

Context {host : Host}.




End DimensionLabelClaim.



(** ** Stroke widths and font sizes of a render *)

Section StyleFacts.

Context {host : Host}.

Variables (rebar : Rebar) (view_plane : Plane) (straight_edges : list Edge).
Variables (sw : Q) (color ff : string) (fs : Q).

Lemma render_edges_styles edges :
  forall st out st',
    render_edges rebar view_plane straight_edges sw color ff fs edges st
      = (out, inr st') ->
    exists drawn labels,
      rebar_edges_svg st' = rebar_edges_svg st ++ drawn /\
      edge_dimension_svg st' = edge_dimension_svg st ++ labels /\
      flat_map stroke_widths drawn = repeat sw (count_strokes view_plane edges) /\
      flat_map font_sizes drawn = [] /\
      flat_map stroke_widths labels = [] /\
      flat_map font_sizes labels = repeat fs (count_lines edges).
Proof.
  unfold count_strokes, count_lines.
  induction edges as [| e es IH]; intros st out st' E.
  - cbn in E. inversion E; subst. exists [], []. rewrite !app_nil_r. repeat split.
  - apply render_edges_cons_inv in E as (st1 & H1 & H2).
    apply render_edge_inv in H1 as (edge_svg & Hedges & Hcase).
    apply IH in H2 as (drawn & labels & Hd & Hl & Hsw & Hfs & Hlsw & Hlfs).
    cbn [filter].
    assert (L : is_line e = match geomType e with Line => true | _ => false end)
      by reflexivity.
    unfold draws_stroke at 1.
    destruct (geomType e); rewrite L.
    + destruct Hcase as (v1 & v2 & se & rot & cx & cy & x & y
                         & Hv1 & Hv2 & _ & -> & _ & Hdims).
      destruct (EdgeVertexes e) as [| w1 [| w2 ws]]; try discriminate.
      cbn in Hv1, Hv2. inversion Hv1; inversion Hv2; subst w1 w2. cbv zeta.
      eexists (_ :: drawn), (_ :: labels).
      split; [rewrite Hd, Hedges, <- app_assoc; reflexivity |].
      split; [rewrite Hl, Hdims, <- app_assoc; reflexivity |].
      unfold straight_edge_svg.
      destruct (same_round _ _ && same_round _ _);
        cbn [negb flat_map stroke_widths font_sizes List.length repeat app];
        rewrite ?Hsw, ?Hfs, ?Hlsw, ?Hlfs; repeat split.
    + destruct Hcase as (v1 & v2 & _ & _ & -> & _ & Hdims).
      eexists (_ :: drawn), labels.
      split; [rewrite Hd, Hedges, <- app_assoc; reflexivity |].
      split; [rewrite Hl, Hdims; reflexivity |].
      destruct (same_round _ _ || same_round _ _);
        cbn [flat_map stroke_widths font_sizes List.length repeat app];
        rewrite ?Hsw, ?Hfs; repeat split; assumption.
    + destruct Hcase as (-> & _ & Hdims).
      eexists (_ :: drawn), labels.
      split; [rewrite Hd, Hedges, <- app_assoc; reflexivity |].
      split; [rewrite Hl, Hdims; reflexivity |].
      cbn [flat_map stroke_widths font_sizes List.length repeat app].
      repeat split; assumption.
Qed.

End StyleFacts.

Section ScalingClaim.

Context {host : Host}.

Lemma shape_document_stroke_widths rebar im ff min_x min_y w h s tx ty fs st :
  stroke_widths (shape_document rebar im ff min_x min_y w h s tx ty fs st)
  = flat_map stroke_widths (rebar_edges_svg st)
    ++ flat_map stroke_widths (edge_dimension_svg st).
Proof.
  unfold shape_document. cbn. rewrite !app_nil_r.
  destruct im; cbn; rewrite ?app_nil_r; reflexivity.
Qed.

Lemma shape_document_font_sizes rebar im ff min_x min_y w h s tx ty fs st :
  font_sizes (shape_document rebar im ff min_x min_y w h s tx ty fs st)
  = flat_map font_sizes (rebar_edges_svg st)
    ++ flat_map font_sizes (edge_dimension_svg st)
    ++ (if im then [1.5 * fs] else []).
Proof.
  unfold shape_document. cbn. rewrite !app_nil_r.
  destruct im; cbn; rewrite ?app_nil_r; reflexivity.
Qed.

(** Without constraints the final scale is the explicit one. *)
Lemma shape_scale_unconstrained include_mark sw fs scale h w :
  shape_scale include_mark sw fs scale 0 0 h w = ret scale.
Proof. unfold shape_scale. cbn. now rewrite py_min_same. Qed.

(** Every stroke width of a returned document is the requested one
    divided by the final scale; every font size is the requested one
    divided by the final scale, or 1.5 times that for the mark. *)
Lemma getRebarShapeSVG_styles rebar view_direction view_plane include_mark
      sw cs ff fs scale max_height max_width out svg :
  view_plane_of rebar view_direction = Some view_plane ->
  getRebarShapeSVG rebar view_direction include_mark sw cs ff fs
    scale max_height max_width = (out, inr svg) ->
  exists s,
    group_scale svg = Some s /\ ~ s == 0 /\
    stroke_widths svg
    = repeat (sw / s)
        (count_strokes view_plane (sortEdges (Edges (fillet_basewire_of rebar)))) /\
    font_sizes svg
    = repeat (fs / s) (count_lines (sortEdges (Edges (fillet_basewire_of rebar))))
      ++ (if include_mark then [1.5 * (fs / s)] else []).
Proof.
  intros Hplane E.
  destruct (getRebarShapeSVG_inv _ _ _ _ _ _ _ _ _ _ _ _ _ Hplane E)
    as (min_x & min_y & max_x & max_y & s & tx & ty & st
        & _ & _ & Hs & _ & _ & Hloop & _ & ->).
  exists s. split; [reflexivity |]. split.
  { intros H. apply Qeq_bool_iff in H. congruence. }
  apply render_edges_styles in Hloop
    as (drawn & labels & Hd & Hl & Hsw & Hfs & Hlsw & Hlfs).
  cbn in Hd, Hl. subst drawn labels.
  rewrite shape_document_stroke_widths, shape_document_font_sizes.
  rewrite Hsw, Hfs, Hlsw, Hlfs, app_nil_r. split; reflexivity.
Qed.

Lemma Forall2_repeat {A} (R : A -> A -> Prop) a b n :
  R a b -> Forall2 R (repeat a n) (repeat b n).
Proof. intros H. induction n; cbn; constructor; auto. Qed.

(** C3, amended.  Between the unconstrained renders at scale 1 and at
    scale 2 of a bar whose projected box is [w] x [h]: the [viewBox] goes
    from [round(w + 2 fs - 2 sw)] x [round(h + k fs - 2 sw)] to
    [round(2 w + 2 fs - 2 sw)] x [round(2 h + k fs - 2 sw)] ([k] is 4 with
    the mark and 2 without), so only the shape extent is doubled; and each
    stroke width and font size emitted at scale 1 is twice the
    corresponding one emitted at scale 2. *)
Theorem C3_scaling_amended rebar view_direction view_plane include_mark
        sw cs ff fs min_x min_y max_x max_y out1 svg1 out2 svg2 :
  view_plane_of rebar view_direction = Some view_plane ->
  getVertexesMinMaxXY (Vertexes (fillet_basewire_of rebar)) view_plane
    = ret (min_x, min_y, max_x, max_y) ->
  getRebarShapeSVG rebar view_direction include_mark sw cs ff fs 1 0 0
    = (out1, inr svg1) ->
  getRebarShapeSVG rebar view_direction include_mark sw cs ff fs 2 0 0
    = (out2, inr svg2) ->
  let w := max_x - min_x in
  let h := max_y - min_y in
  let k := if include_mark then 4 else 2 in
  viewBox_of svg1
  = Some (inject_Z (py_round (w * 1 + 2 * fs - 2 * sw)),
          inject_Z (py_round (h * 1 + fs * k - 2 * sw))) /\
  viewBox_of svg2
  = Some (inject_Z (py_round (w * 2 + 2 * fs - 2 * sw)),
          inject_Z (py_round (h * 2 + fs * k - 2 * sw))) /\
  Forall2 (fun a b => a == 2 * b) (stroke_widths svg1) (stroke_widths svg2) /\
  Forall2 (fun a b => a == 2 * b) (font_sizes svg1) (font_sizes svg2) /\
  Forall (fun a => a == sw) (stroke_widths svg1).
Proof.
  intros Hplane Hbox E1 E2. cbv zeta.
  destruct (getRebarShapeSVG_styles _ _ _ _ _ _ _ _ _ _ _ _ _ Hplane E1)
    as (s1 & Hg1 & _ & Hsw1 & Hfs1).
  destruct (getRebarShapeSVG_styles _ _ _ _ _ _ _ _ _ _ _ _ _ Hplane E2)
    as (s2 & Hg2 & _ & Hsw2 & Hfs2).
  destruct (getRebarShapeSVG_inv _ _ _ _ _ _ _ _ _ _ _ _ _ Hplane E1)
    as (a1 & b1 & c1 & d1 & t1 & tx1 & ty1 & st1
        & Hbox1 & Hs1 & _ & _ & _ & _ & _ & ->).
  destruct (getRebarShapeSVG_inv _ _ _ _ _ _ _ _ _ _ _ _ _ Hplane E2)
    as (a2 & b2 & c2 & d2 & t2 & tx2 & ty2 & st2
        & Hbox2 & Hs2 & _ & _ & _ & _ & _ & ->).
  rewrite Hbox in Hbox1, Hbox2.
  inversion Hbox1; subst a1 b1 c1 d1. inversion Hbox2; subst a2 b2 c2 d2.
  rewrite shape_scale_unconstrained in Hs1, Hs2.
  inversion Hs1; subst t1. inversion Hs2; subst t2.
  rewrite shape_document_group_scale in Hg1, Hg2.
  inversion Hg1; subst s1. inversion Hg2; subst s2.
  rewrite !shape_document_viewBox.
  split; [reflexivity |]. split; [reflexivity |].
  rewrite Hsw1, Hsw2, Hfs1, Hfs2. split; [| split].
  - apply Forall2_repeat. field.
  - apply Forall2_app; [apply Forall2_repeat; field |].
    destruct include_mark; constructor; [field | constructor].
  - apply Forall_forall. intros a Ha. apply repeat_spec in Ha. subst a. field.
Qed.

End ScalingClaim.

(** C3 as stated fails on the L-shaped bar (10 x 20, stroke 1/8, font 2):
    the [viewBox] is 14 x 28 at scale 1 and 24 x 48 at scale 2, not
    28 x 56, and the emitted stroke widths and font sizes are halved. *)
Lemma C3_scaling_counterexample :
  let render scale :=
    @getRebarShapeSVG Sample.top_view_host Sample.L_bar Sample.auto true
      (1 # 8) "shape color" "DejaVu Sans" 2 scale 0 0 in
  exists svg1 svg2,
    render 1 = ([], inr svg1) /\
    render 2 = ([], inr svg2) /\
    viewBox_of svg1 = Some (14, 28) /\
    viewBox_of svg2 = Some (24, 48) /\
    ~ viewBox_doubles svg1 svg2 /\
    ~ same_stroke_widths svg1 svg2 /\
    ~ same_font_sizes svg1 svg2.
Proof.
  cbv zeta. eexists. eexists.
  split; [vm_compute; reflexivity |]. split; [vm_compute; reflexivity |].
  split; [reflexivity |]. split; [reflexivity |]. split; [| split].
  - intros (w1 & h1 & w2 & h2 & H1 & H2 & Hw & _).
    vm_compute in H1, H2. inversion H1; inversion H2; subst.
    vm_compute in Hw. discriminate.
  - intros H. vm_compute in H. inversion H as [| a b l l' Hab _]; subst.
    vm_compute in Hab. discriminate.
  - intros H. vm_compute in H. inversion H as [| a b l l' Hab _]; subst.
    vm_compute in Hab. discriminate.
Qed.

Lemma C3_scaling_amended_witness :
  exists svg1 svg2,
    @getRebarShapeSVG Sample.top_view_host Sample.L_bar Sample.auto true
      (1 # 8) "shape color" "DejaVu Sans" 2 1 0 0 = ([], inr svg1) /\
    @getRebarShapeSVG Sample.top_view_host Sample.L_bar Sample.auto true
      (1 # 8) "shape color" "DejaVu Sans" 2 2 0 0 = ([], inr svg2) /\
    Forall2 (fun a b => a == 2 * b) (stroke_widths svg1) (stroke_widths svg2) /\
    Forall2 (fun a b => a == 2 * b) (font_sizes svg1) (font_sizes svg2).
Proof.
  eexists. eexists.
  split; [vm_compute; reflexivity |]. split; [vm_compute; reflexivity |].
  match goal with
  | |- Forall2 _ (stroke_widths ?d1) (stroke_widths ?d2) /\ _ =>
      destruct (@C3_scaling_amended Sample.top_view_host Sample.L_bar Sample.auto
                  Sample.top_plane true (1 # 8) "shape color" "DejaVu Sans" 2
                  0 0 10 20 [] d1 [] d2)
        as (_ & _ & Hsw & Hfs & _); [reflexivity | reflexivity | | |]
  end.
  - vm_compute; reflexivity.
  - vm_compute; reflexivity.
  - split; [exact Hsw | exact Hfs].
Defined.

(** ** The cut list *)

Section CutListFacts.

Context {host : Host}.

Variables (include_mark : bool) (sw : Q) (cs ff : string) (fs : Q).
Variables (row_height width rebar_shape_max_height : Q).

Lemma cut_list_row_inv view_directions i rebar out row :
  cut_list_row view_directions include_mark sw cs ff fs row_height width
    rebar_shape_max_height i rebar = (out, inr row) ->
  exists offset shape,
    row = row_of include_mark ff fs row_height width i rebar offset shape /\
    is_g_with_id (Name rebar) shape = true.
Proof.
  unfold cut_list_row. intros E.
  apply bind_inr_inv in E as (o1 & vd & o2 & _ & E & ->).
  apply bind_inr_inv in E as (o3 & rebar_svg & o4 & _ & E & ->).
  apply bind_inr_inv in E as (o5 & w & o6 & _ & E & ->).
  apply bind_inr_inv in E as (o7 & h & o8 & _ & E & ->).
  apply bind_inr_inv in E as (o9 & shape & o10 & Hfind & E & ->).
  unfold ret in E. inversion E; subst.
  do 2 eexists. split; [reflexivity |].
  destruct (svg_find_g rebar_svg (Name rebar)) as [g |] eqn:Hg; [| discriminate].
  inversion Hfind; subst g.
  unfold svg_find_g in Hg. destruct rebar_svg; try discriminate.
  apply find_some in Hg. apply Hg.
Qed.

Lemma cut_list_rows_inv view_directions rebars : forall i out rows,
  cut_list_rows view_directions include_mark sw cs ff fs row_height width
    rebar_shape_max_height i rebars = (out, inr rows) ->
  List.length rows = List.length rebars /\
  forall j rebar,
    nth_error rebars j = Some rebar ->
    exists offset shape,
      nth_error rows j
      = Some (row_of include_mark ff fs row_height width (i + j) rebar offset shape) /\
      is_g_with_id (Name rebar) shape = true.
Proof.
  induction rebars as [| r rs IH]; intros i out rows E.
  - cbn in E. inversion E; subst. split; [reflexivity |].
    intros [| j] ? H; discriminate.
  - cbn [cut_list_rows] in E.
    apply bind_inr_inv in E as (o1 & row & o2 & Hrow & E & ->).
    apply bind_inr_inv in E as (o3 & rows' & o4 & Hrows & E & ->).
    unfold ret in E. inversion E; subst.
    apply cut_list_row_inv in Hrow as (offset & shape & -> & Hid).
    apply IH in Hrows as (Hlen & Hnth).
    split; [cbn; now rewrite Hlen |].
    intros [| j] rebar Hj; cbn in Hj.
    + inversion Hj; subst r. exists offset, shape. rewrite Nat.add_0_r. auto.
    + destruct (Hnth j rebar Hj) as (offset' & shape' & Hrow' & Hid').
      exists offset', shape'. split; [| exact Hid'].
      cbn [nth_error]. rewrite Hrow'.
      replace (S i + j)%nat with (i + S j)%nat by lia. reflexivity.
Qed.

End CutListFacts.

Section CutListClaim.

Context {host : Host}.

Variables (include_mark : bool) (sw : Q) (cs ff : string) (fs : Q).
Variables (row_height width : Q).

Let max_shape_height : Q :=
  if include_mark then row_height - 2 * fs else row_height.

(** The render of one row's shape, as the composer asks for it. *)
Let render (rebar : Rebar) (view_direction : PyVal) : M Svg :=
  getRebarShapeSVG rebar view_direction false sw cs ff fs 1
    max_shape_height width.

Lemma svg_find_g_shape_document rebar im ff' min_x min_y w h s tx ty fs' st :
  exists g,
    svg_find_g (shape_document rebar im ff' min_x min_y w h s tx ty fs' st)
      (Name rebar) = Some g.
Proof.
  eexists. cbn. rewrite String.eqb_refl. reflexivity.
Qed.

Lemma cut_list_row_ok dirs i rebar view_direction view_plane out svg :
  nth_error dirs i = Some view_direction ->
  view_plane_of rebar view_direction = Some view_plane ->
  render rebar view_direction = (out, inr svg) ->
  exists row,
    cut_list_row (PyList dirs) include_mark sw cs ff fs row_height width
      max_shape_height i rebar = ret row.
Proof.
  intros Hi Hplane E. unfold cut_list_row.
  cbn [py_getitem]. unfold py_index. rewrite Hi, bind_ret_l.
  fold (render rebar view_direction).
  destruct (getRebarShapeSVG_inv _ _ _ _ _ _ _ _ _ _ _ _ _ Hplane E)
    as (min_x & min_y & max_x & max_y & s & tx & ty & st
        & _ & _ & _ & _ & _ & _ & -> & ->).
  rewrite E. change (@pair (list string) (PyExc + Svg) [] (inr ?x)) with (ret x).
  rewrite bind_ret_l.
  unfold svg_get_mm. rewrite shape_document_width, bind_ret_l.
  rewrite shape_document_height, bind_ret_l.
  destruct (svg_find_g_shape_document rebar false ff min_x min_y
              (svg_width_of sw fs (max_x - min_x) s)
              (svg_height_of false sw fs (max_y - min_y) s) s tx ty (fs / s) st)
    as [g ->].
  rewrite bind_ret_l. eexists. reflexivity.
Qed.

Lemma cut_list_rows_ok dirs rebars : forall i,
  (forall j rebar,
      nth_error rebars j = Some rebar ->
      exists view_direction view_plane out svg,
        nth_error dirs (i + j) = Some view_direction /\
        view_plane_of rebar view_direction = Some view_plane /\
        render rebar view_direction = (out, inr svg)) ->
  exists rows,
    cut_list_rows (PyList dirs) include_mark sw cs ff fs row_height width
      max_shape_height i rebars = ret rows.
Proof.
  induction rebars as [| r rs IH]; intros i H.
  - exists []. reflexivity.
  - cbn [cut_list_rows].
    destruct (H 0%nat r eq_refl) as (vd & plane & out & svg & Hd & Hp & E).
    rewrite Nat.add_0_r in Hd.
    destruct (cut_list_row_ok _ _ _ _ _ _ _ Hd Hp E) as [row ->].
    rewrite bind_ret_l.
    destruct (IH (S i)) as [rows ->].
    { intros j rebar Hj. destruct (H (S j) rebar Hj) as (vd' & Hvd').
      exists vd'. now replace (S i + j)%nat with (i + S j)%nat by lia. }
    rewrite bind_ret_l. eexists. reflexivity.
Qed.

(** C8.  For a non-empty bar list, a returned cut list has the requested
    width, the height [row_height * bar_count] with the matching
    [viewBox], and exactly one row per bar in input order: row [i] is
    translated by [(0, i * row_height)], holds the border [row_i] and the
    shape group whose id is the name of bar [i] (and the mark of bar [i]).
    The document is returned, with nothing printed, whenever every bar
    has a supported view direction (one vector for all, or a list at
    least as long as the bar list) under which its shape renders. *)
Theorem C8_cut_list_rows base_rebars_list view_directions :
  base_rebars_list <> [] ->
  let n := List.length base_rebars_list in
  let cut_list :=
    getRebarShapeCutList base_rebars_list view_directions include_mark
      sw cs ff fs row_height width in
  (forall out doc,
      cut_list = (out, inr doc) ->
      svg_get doc "width" = Some (AMm width) /\
      svg_get doc "height"
      = Some (AMm (row_height * inject_Z (Z.of_nat n))) /\
      viewBox_of doc = Some (width, row_height * inject_Z (Z.of_nat n)) /\
      List.length (children_of doc) = n /\
      forall i rebar,
        nth_error base_rebars_list i = Some rebar ->
        exists offset shape,
          nth_error (children_of doc) i
          = Some (row_of include_mark ff fs row_height width i rebar offset shape) /\
          is_g_with_id (Name rebar) shape = true) /\
  (forall dirs,
      (view_directions = PyList dirs /\ (n <= List.length dirs)%nat) \/
      (exists v, view_directions = PyVector v /\ dirs = repeat (PyVector v) n) ->
      (forall i rebar,
          nth_error base_rebars_list i = Some rebar ->
          exists view_direction view_plane out svg,
            nth_error dirs i = Some view_direction /\
            view_plane_of rebar view_direction = Some view_plane /\
            getRebarShapeSVG rebar view_direction false sw cs ff fs 1
              (if include_mark then row_height - 2 * fs else row_height) width
            = (out, inr svg)) ->
      exists doc, cut_list = ([], inr doc)).
Proof.
  intros Hne n cut_list. subst cut_list n. unfold getRebarShapeCutList.
  destruct base_rebars_list as [| r rs] eqn:Hbars; [contradiction |].
  rewrite <- Hbars in *. set (n := List.length base_rebars_list).
  fold max_shape_height. split.
  - intros out doc E.
    apply bind_inr_inv in E as (o1 & vds & o2 & _ & E & ->).
    apply bind_inr_inv in E as (o3 & rows & o4 & Hrows & E & ->).
    unfold ret in E. inversion E; subst doc.
    apply cut_list_rows_inv in Hrows as (Hlen & Hnth).
    unfold viewBox_of. cbn [svg_set svg_get children_of].
    repeat (rewrite attrib_get_set_same
            || rewrite attrib_get_set_other by discriminate).
    repeat split; auto.
  - intros dirs Hdirs Hall.
    assert (Hpad : pad_view_directions n view_directions = ret (PyList dirs)).
    { destruct Hdirs as [[-> Hlen] | (v & -> & ->)]; [| reflexivity].
      cbn [pad_view_directions].
      destruct (Nat.ltb_spec (List.length dirs) n); [lia | reflexivity]. }
    rewrite Hpad, bind_ret_l.
    destruct (cut_list_rows_ok dirs base_rebars_list 0%nat) as [rows ->].
    { intros j rebar Hj. destruct (Hall j rebar Hj) as (vd & Hvd).
      exists vd. exact Hvd. }
    rewrite bind_ret_l. eexists. reflexivity.
Qed.

End CutListClaim.

Lemma C8_cut_list_rows_witness :
  [Sample.L_bar; Sample.label_bar] <> [] /\
  exists doc,
    @getRebarShapeCutList Sample.top_view_host [Sample.L_bar; Sample.label_bar]
      Sample.auto true (1 # 8) "shape color" "DejaVu Sans" 2 40 60
    = ([], inr doc) /\
    svg_get doc "height" = Some (AMm (40 * inject_Z (Z.of_nat 2))) /\
    List.length (children_of doc) = 2%nat.
Proof.
  assert (Hne : [Sample.L_bar; Sample.label_bar] <> []) by discriminate.
  split; [exact Hne |].
  destruct (@C8_cut_list_rows Sample.top_view_host true (1 # 8) "shape color"
              "DejaVu Sans" 2 40 60 [Sample.L_bar; Sample.label_bar]
              Sample.auto Hne) as [Hprops Htotal].
  destruct (Htotal (repeat Sample.auto 2)) as [doc Hdoc].
  - right. exists zero_vector. split; reflexivity.
  - intros [| [| i]] rebar H; cbn in H; try (destruct i; discriminate);
      inversion H; subst rebar;
      exists Sample.auto, Sample.top_plane; do 2 eexists;
      (split; [reflexivity |]); (split; [reflexivity |]);
      vm_compute; reflexivity.
  - exists doc. split; [exact Hdoc |].
    destruct (Hprops [] doc Hdoc) as (_ & Hh & _ & Hlen & _).
    split; [exact Hh | exact Hlen].
Defined.

Section DocumentLabels.

Context {host : Host}.

(** The labels of a returned document are those of the first true
    lengths, one per straight edge of the drawn wire. *)
Lemma getRebarShapeSVG_labels rebar view_direction view_plane include_mark
      sw cs ff fs scale max_height max_width out svg :
  view_plane_of rebar view_direction = Some view_plane ->
  getRebarShapeSVG rebar view_direction include_mark sw cs ff fs
    scale max_height max_width = (out, inr svg) ->
  map label_text (drawn_labels svg)
  = map (fun e => Some (LStr (edge_length_label (Length e) Decimals)))
      (firstn (count_lines (sortEdges (Edges (fillet_basewire_of rebar))))
         (sortEdges (Edges (BaseWire rebar)))).
Proof.
  intros Hplane E.
  destruct (getRebarShapeSVG_inv _ _ _ _ _ _ _ _ _ _ _ _ _ Hplane E)
    as (min_x & min_y & max_x & max_y & s & tx & ty & st
        & _ & _ & _ & _ & _ & Hloop & _ & ->).
  apply render_edges_labels in Hloop as (_ & _ & labels & Hd & Hmap & _).
  cbn in Hd, Hmap. rewrite shape_document_drawn_labels, Hd. exact Hmap.
Qed.

End DocumentLabels.

(* ------------------------------------------------------------------ *)
(** * Further properties of the module *)

(** ** [getVertexesMinMaxXY] *)

Section BoundingBox.

Context {host : Host}.

Variable view_plane : Plane.

Let px (v : Vector) : Q := x_ (getProjectionToSVGPlane v view_plane).
Let py (v : Vector) : Q := y_ (getProjectionToSVGPlane v view_plane).

Lemma py_min_cases a b : py_min a b = a \/ py_min a b = b.
Proof. unfold py_min. destruct (Qltb b a); auto. Qed.

Lemma py_max_cases a b : py_max a b = a \/ py_max a b = b.
Proof. unfold py_max. destruct (Qltb a b); auto. Qed.

(** The fold of [getVertexesMinMaxXY]: each bound only improves, bounds
    every vertex folded in, and is the start value or the coordinate of
    one of those vertices. *)
Lemma fold_box_spec rest : forall a b c d a' b' c' d',
  fold_left
    (fun '(min_x, min_y, max_x, max_y) vertex =>
       let point := getProjectionToSVGPlane vertex view_plane in
       (py_min (x_ point) min_x, py_min (y_ point) min_y,
        py_max (x_ point) max_x, py_max (y_ point) max_y))
    rest (a, b, c, d) = (a', b', c', d') ->
  (a' <= a /\ b' <= b /\ c <= c' /\ d <= d') /\
  (forall v, In v rest ->
             a' <= px v /\ px v <= c' /\ b' <= py v /\ py v <= d') /\
  (a' = a \/ exists v, In v rest /\ px v = a') /\
  (b' = b \/ exists v, In v rest /\ py v = b') /\
  (c' = c \/ exists v, In v rest /\ px v = c') /\
  (d' = d \/ exists v, In v rest /\ py v = d').
Proof.
  induction rest as [| v rest IH]; intros a b c d a' b' c' d' E.
  - cbn in E. inversion E; subst.
    split; [repeat split; lra |]. split; [intros ? [] |]. repeat split; auto.
  - cbn [fold_left] in E. apply IH in E.
    destruct E as ((Ha & Hb & Hc & Hd) & Hin & Ea & Eb & Ec & Ed).
    fold (px v) in *. fold (py v) in *.
    pose proof (py_min_le_l (px v) a). pose proof (py_min_le_r (px v) a).
    pose proof (py_min_le_l (py v) b). pose proof (py_min_le_r (py v) b).
    pose proof (py_max_ge_l (px v) c). pose proof (py_max_ge_r (px v) c).
    pose proof (py_max_ge_l (py v) d). pose proof (py_max_ge_r (py v) d).
    split; [repeat split; lra |]. split.
    { intros u [-> | Hu]; [repeat split; lra | auto]. }
    repeat split.
    + destruct Ea as [-> | (u & Hu & Eu)]; [| right; exists u; cbn; auto].
      destruct (py_min_cases (px v) a) as [-> | ->]; [right; exists v; cbn | left]; auto.
    + destruct Eb as [-> | (u & Hu & Eu)]; [| right; exists u; cbn; auto].
      destruct (py_min_cases (py v) b) as [-> | ->]; [right; exists v; cbn | left]; auto.
    + destruct Ec as [-> | (u & Hu & Eu)]; [| right; exists u; cbn; auto].
      destruct (py_max_cases (px v) c) as [-> | ->]; [right; exists v; cbn | left]; auto.
    + destruct Ed as [-> | (u & Hu & Eu)]; [| right; exists u; cbn; auto].
      destruct (py_max_cases (py v) d) as [-> | ->]; [right; exists v; cbn | left]; auto.
Qed.

Lemma getVertexesMinMaxXY_tight vertex_list :
  (vertex_list = [] ->
   getVertexesMinMaxXY vertex_list view_plane = raise IndexError) /\
  (vertex_list <> [] ->
   exists min_x min_y max_x max_y,
     getVertexesMinMaxXY vertex_list view_plane
     = ret (min_x, min_y, max_x, max_y) /\
     (forall v, In v vertex_list ->
                min_x <= px v /\ px v <= max_x /\
                min_y <= py v /\ py v <= max_y) /\
     (exists v, In v vertex_list /\ px v = min_x) /\
     (exists v, In v vertex_list /\ py v = min_y) /\
     (exists v, In v vertex_list /\ px v = max_x) /\
     (exists v, In v vertex_list /\ py v = max_y)).
Proof.
  split; [intros ->; reflexivity |].
  intros Hne. destruct vertex_list as [| v0 rest]; [contradiction |].
  unfold getVertexesMinMaxXY. cbn [py_index nth_error tl]. rewrite bind_ret_l.
  fold (px v0). fold (py v0).
  destruct (fold_left _ rest (px v0, py v0, px v0, py v0))
    as [[[a' b'] c'] d'] eqn:E.
  exists a', b', c', d'. split; [reflexivity |].
  apply fold_box_spec in E.
  destruct E as ((Ha & Hb & Hc & Hd) & Hin & Ea & Eb & Ec & Ed).
  split.
  { intros v [<- | Hv]; [repeat split; lra | auto]. }
  repeat split.
  - destruct Ea as [-> | (u & Hu & Eu)]; [exists v0 | exists u]; cbn; auto.
  - destruct Eb as [-> | (u & Hu & Eu)]; [exists v0 | exists u]; cbn; auto.
  - destruct Ec as [-> | (u & Hu & Eu)]; [exists v0 | exists u]; cbn; auto.
  - destruct Ed as [-> | (u & Hu & Eu)]; [exists v0 | exists u]; cbn; auto.
Qed.

(** X1.  [getVertexesMinMaxXY] raises [IndexError] on the empty list and
    returns a box on every other list; the box contains the projection of
    every vertex, and each of its four bounds is the coordinate of some
    vertex of the list (the box is the tightest one). *)
Theorem X1_bounding_box_tight vertex_list :
  (vertex_list = [] ->
   getVertexesMinMaxXY vertex_list view_plane = raise IndexError) /\
  (vertex_list <> [] ->
   exists min_x min_y max_x max_y,
     getVertexesMinMaxXY vertex_list view_plane
     = ret (min_x, min_y, max_x, max_y) /\
     (forall v, In v vertex_list ->
                min_x <= px v /\ px v <= max_x /\
                min_y <= py v /\ py v <= max_y) /\
     (exists v, In v vertex_list /\ px v = min_x) /\
     (exists v, In v vertex_list /\ py v = min_y) /\
     (exists v, In v vertex_list /\ px v = max_x) /\
     (exists v, In v vertex_list /\ py v = max_y)).
Proof. exact (getVertexesMinMaxXY_tight vertex_list). Qed.

(** X2.  The box depends only on the set of vertices: two lists with the
    same elements, in any order and with any repetition, get the same
    bounds. *)
Theorem X2_bounding_box_order_independent l1 l2 o1 o2
        a1 b1 c1 d1 a2 b2 c2 d2 :
  (forall v, In v l1 <-> In v l2) ->
  getVertexesMinMaxXY l1 view_plane = (o1, inr (a1, b1, c1, d1)) ->
  getVertexesMinMaxXY l2 view_plane = (o2, inr (a2, b2, c2, d2)) ->
  a1 == a2 /\ b1 == b2 /\ c1 == c2 /\ d1 == d2.
Proof.
  intros Hsame E1 E2.
  destruct (getVertexesMinMaxXY_inv _ _ _ _ E1) as [-> Hne1].
  destruct (getVertexesMinMaxXY_inv _ _ _ _ E2) as [-> Hne2].
  destruct (getVertexesMinMaxXY_tight l1) as [_ H1].
  destruct (getVertexesMinMaxXY_tight l2) as [_ H2].
  destruct (H1 Hne1) as (? & ? & ? & ? & E1' & In1 & (u1 & U1 & <-) & (u2 & U2 & <-)
                         & (u3 & U3 & <-) & (u4 & U4 & <-)).
  destruct (H2 Hne2) as (? & ? & ? & ? & E2' & In2 & (w1 & W1 & <-) & (w2 & W2 & <-)
                         & (w3 & W3 & <-) & (w4 & W4 & <-)).
  rewrite E1 in E1'. rewrite E2 in E2'.
  inversion E1'; inversion E2'; subst.
  pose proof (In1 _ (proj2 (Hsame _) W1)). pose proof (In1 _ (proj2 (Hsame _) W2)).
  pose proof (In1 _ (proj2 (Hsame _) W3)). pose proof (In1 _ (proj2 (Hsame _) W4)).
  pose proof (In2 _ (proj1 (Hsame _) U1)). pose proof (In2 _ (proj1 (Hsame _) U2)).
  pose proof (In2 _ (proj1 (Hsame _) U3)). pose proof (In2 _ (proj1 (Hsame _) U4)).
  repeat split; lra.
Qed.

End BoundingBox.

Lemma X2_bounding_box_order_independent_witness :
  (forall v, In v [Sample.A; Sample.B; Sample.C]
             <-> In v [Sample.C; Sample.A; Sample.B; Sample.A]) /\
  @getVertexesMinMaxXY Sample.top_view_host [Sample.A; Sample.B; Sample.C]
    Sample.top_plane = ([], inr (0, 0, 10, 20)) /\
  @getVertexesMinMaxXY Sample.top_view_host
    [Sample.C; Sample.A; Sample.B; Sample.A] Sample.top_plane
  = ([], inr (0, 0, 10, 20)) /\
  (0 == 0 /\ 0 == 0 /\ 10 == 10 /\ 20 == 20).
Proof.
  assert (Hsame : forall v, In v [Sample.A; Sample.B; Sample.C]
                            <-> In v [Sample.C; Sample.A; Sample.B; Sample.A])
    by (intros v; cbn; tauto).
  split; [exact Hsame |]. split; [reflexivity |]. split; [reflexivity |].
  apply (@X2_bounding_box_order_independent Sample.top_view_host Sample.top_plane
           _ _ [] [] _ _ _ _ _ _ _ _ Hsame); reflexivity.
Defined.

(** ** Failures of [getRebarShapeSVG] *)

Lemma bind_inl_inv {A B} (m : M A) (k : A -> M B) out e :
  bind m k = (out, inl e) ->
  m = (out, inl e) \/
  exists o1 x o2, m = (o1, inr x) /\ k x = (o2, inl e) /\ out = (o1 ++ o2)%list.
Proof.
  unfold bind. destruct m as [o1 [e' | x]].
  - intros E. inversion E; subst. left. reflexivity.
  - destruct (k x) as [o2 r] eqn:Hk. intros E. inversion E; subst.
    right. exists o1, x, o2. auto.
Qed.

Lemma py_index_inl_inv {A} (l : list A) i out e :
  py_index l i = (out, inl e) -> e = IndexError.
Proof.
  unfold py_index. destruct (nth_error l i); intros E; inversion E. reflexivity.
Qed.

Lemma py_div_inl_inv a b out e :
  py_div a b = (out, inl e) -> e = ZeroDivisionError /\ b == 0.
Proof.
  unfold py_div. destruct (Qeq_bool b 0) eqn:Hb; intros E; inversion E.
  split; [reflexivity | now apply Qeq_bool_iff].
Qed.

Section RenderFailures.

Context {host : Host}.

Lemma render_edge_error rebar view_plane straight_edges sw color ff fs st edge out e :
  render_edge rebar view_plane straight_edges sw color ff fs st edge
    = (out, inl e) ->
  e = IndexError.
Proof.
  unfold render_edge. destruct (geomType edge); intros E.
  - apply bind_inl_inv in E as [E | (o1 & v1 & o2 & _ & E & _)];
      [eapply py_index_inl_inv; eauto |].
    apply bind_inl_inv in E as [E | (o3 & v2 & o4 & _ & E & _)];
      [eapply py_index_inl_inv; eauto |].
    apply bind_inl_inv in E as [E | (o5 & rot & o6 & _ & E & _)].
    + destruct (same_round _ _) eqn:R; cbn [negb] in E; [discriminate |].
      apply bind_inl_inv in E as [E | (? & ? & ? & _ & E & _)]; [| discriminate].
      apply py_div_inl_inv in E as [_ Hz].
      apply same_round_false in R. contradiction.
    + apply bind_inl_inv in E as [E | (? & ? & ? & _ & E & _)];
        [eapply py_index_inl_inv; eauto | discriminate].
  - apply bind_inl_inv in E as [E | (o1 & v1 & o2 & _ & E & _)];
      [eapply py_index_inl_inv; eauto |].
    apply bind_inl_inv in E as [E | (o3 & v2 & o4 & _ & E & _)];
      [eapply py_index_inl_inv; eauto | discriminate].
  - discriminate.
Qed.

Lemma render_edges_error rebar view_plane straight_edges sw color ff fs edges :
  forall st out e,
    render_edges rebar view_plane straight_edges sw color ff fs edges st
      = (out, inl e) ->
    e = IndexError.
Proof.
  induction edges as [| edge edges IH]; intros st out e E; [discriminate |].
  cbn [render_edges] in E.
  apply bind_inl_inv in E as [E | (o1 & st1 & o2 & _ & E & _)].
  - eapply render_edge_error; eauto.
  - eapply IH; eauto.
Qed.

(** X3.  The edge loop of [getRebarShapeSVG] prints nothing and fails
    only with [IndexError] (the slope division of the label rotation is
    protected by its guard), and only when some straight or curved edge
    lacks an end point or the drawn wire has more straight edges than
    there are true lengths left. *)
Theorem X3_edge_loop_failure rebar view_plane straight_edges sw color ff fs
        edges st out e :
  render_edges rebar view_plane straight_edges sw color ff fs edges st
    = (out, inl e) ->
  out = [] /\ e = IndexError /\
  (forallb has_end_points edges = false \/
   (List.length straight_edges
    < current_straight_edge_index st + count_lines edges)%nat).
Proof.
  intros E. split; [| split].
  - eapply silent_out; [apply render_edges_silent | exact E].
  - eapply render_edges_error; eauto.
  - destruct (forallb has_end_points edges) eqn:Hv; [| left; reflexivity].
    right.
    destruct (Nat.le_gt_cases
                (current_straight_edge_index st + count_lines edges)
                (List.length straight_edges)) as [Hn | Hn]; [| exact Hn].
    destruct (render_edges_total rebar view_plane straight_edges sw color ff fs
                edges st Hv Hn) as [st' Hst'].
    rewrite Hst' in E. discriminate.
Qed.

(** X4.  With a supported view direction and a wire that has a vertex,
    [getRebarShapeSVG] raises [ZeroDivisionError] exactly when the scale
    derivation divides by a zero extent or the final scale is zero. *)
Theorem X4_zero_division_cases rebar view_direction view_plane include_mark
        sw cs ff fs scale max_height max_width min_x min_y max_x max_y :
  view_plane_of rebar view_direction = Some view_plane ->
  getVertexesMinMaxXY (Vertexes (fillet_basewire_of rebar)) view_plane
    = ret (min_x, min_y, max_x, max_y) ->
  let derivation :=
    shape_scale include_mark sw fs scale max_height max_width
      (max_y - min_y) (max_x - min_x) in
  getRebarShapeSVG rebar view_direction include_mark sw cs ff fs
    scale max_height max_width = ([], inl ZeroDivisionError)
  <-> (derivation = raise ZeroDivisionError \/
       exists s, derivation = ret s /\ s == 0).
Proof.
  intros Hplane Hbox derivation. subst derivation.
  unfold getRebarShapeSVG. rewrite Hplane. cbv zeta. rewrite Hbox, bind_ret_l.
  pose proof (shape_scale_silent include_mark sw fs scale max_height max_width
                (max_y - min_y) (max_x - min_x)) as Hsil.
  destruct (shape_scale include_mark sw fs scale max_height max_width
              (max_y - min_y) (max_x - min_x)) as [o [e | s]] eqn:Hs.
  - unfold silent in Hsil. cbn in Hsil. subst o. cbn [bind]. split.
    + intros E. left. inversion E. reflexivity.
    + intros [E | (s & E & _)]; [inversion E; reflexivity | discriminate].
  - unfold silent in Hsil. cbn in Hsil. subst o.
    change (@pair (list string) (PyExc + Q) [] (inr s)) with (ret s).
    rewrite bind_ret_l. unfold translate_x_of, translate_y_of.
    destruct (Qeq_bool s 0) eqn:Hz.
    + apply Qeq_bool_iff in Hz. rewrite (py_div_zero _ s Hz). cbn [bind raise].
      split; [| reflexivity]. intros _. right. exists s. auto.
    + assert (Hnz : ~ s == 0) by (intros H; apply Qeq_bool_iff in H; congruence).
      rewrite !(py_div_nonzero _ s Hnz), !bind_ret_l. split.
      * intros E. apply bind_inl_inv in E as [E | (? & ? & ? & _ & E & _)];
          [apply render_edges_error in E | ]; discriminate.
      * intros [E | (s' & E & Hs')]; [discriminate |].
        inversion E; subst s'. contradiction.
Qed.

End RenderFailures.

Lemma X3_edge_loop_failure_witness :
  @render_edges Sample.top_view_host Sample.L_bar Sample.top_plane
    [mkEdge Line [Sample.A; Sample.B] 10] (1 # 8) "black" "DejaVu Sans" 2
    (Edges (BaseWire Sample.L_bar)) (mkLoopState 0 [] []) = ([], inl IndexError) /\
  (forallb has_end_points (Edges (BaseWire Sample.L_bar)) = false \/
   (1 < 0 + count_lines (Edges (BaseWire Sample.L_bar)))%nat).
Proof.
  assert (E : @render_edges Sample.top_view_host Sample.L_bar Sample.top_plane
                [mkEdge Line [Sample.A; Sample.B] 10] (1 # 8) "black"
                "DejaVu Sans" 2 (Edges (BaseWire Sample.L_bar))
                (mkLoopState 0 [] []) = ([], inl IndexError))
    by (vm_compute; reflexivity).
  split; [exact E |].
  exact (proj2 (proj2 (@X3_edge_loop_failure Sample.top_view_host _ _ _ _ _ _ _
                         _ _ _ _ E))).
Defined.

Lemma X4_zero_division_cases_witness :
  @view_plane_of Sample.top_view_host Sample.L_bar Sample.auto
    = Some Sample.top_plane /\
  @getVertexesMinMaxXY Sample.top_view_host
    (Vertexes (@fillet_basewire_of Sample.top_view_host Sample.L_bar))
    Sample.top_plane = ret (0, 0, 10, 20) /\
  @getRebarShapeSVG Sample.top_view_host Sample.L_bar Sample.auto true
    (1 # 8) "shape color" "DejaVu Sans" 2 0 0 0 = ([], inl ZeroDivisionError).
Proof.
  split; [reflexivity |]. split; [reflexivity |].
  apply (@X4_zero_division_cases Sample.top_view_host Sample.L_bar Sample.auto
           Sample.top_plane true (1 # 8) "shape color" "DejaVu Sans" 2 0 0 0
           0 0 10 20 eq_refl eq_refl).
  right. exists 0. split; reflexivity.
Defined.

(** ** Scale, placement and orientation in [getRebarShapeSVG] *)

Lemma bind_ext {A B} (m : M A) (k1 k2 : A -> M B) :
  (forall x, k1 x = k2 x) -> bind m k1 = bind m k2.
Proof.
  intros H. unfold bind. destruct m as [o [e | x]]; [reflexivity |].
  now rewrite H.
Qed.

Section ScaleAndPlacement.

Context {host : Host}.

(** X5.  When both [max_height] and [max_width] are set, the explicit
    [scale] has no influence at all: two calls that differ only in
    [scale] give the same result. *)
Theorem X5_scale_ignored_with_both_constraints rebar view_direction include_mark
        sw cs ff fs max_height max_width scale1 scale2 :
  truthy max_height = true -> truthy max_width = true ->
  getRebarShapeSVG rebar view_direction include_mark sw cs ff fs
    scale1 max_height max_width
  = getRebarShapeSVG rebar view_direction include_mark sw cs ff fs
      scale2 max_height max_width.
Proof.
  intros Hh Hw. unfold getRebarShapeSVG.
  destruct (view_plane_of rebar view_direction); [| reflexivity].
  cbv zeta. apply bind_ext. intros [[[min_x min_y] max_x] max_y].
  unfold shape_scale. rewrite Hh, Hw. reflexivity.
Qed.

(** X6.  In a returned document the translation of the shape group puts
    the corner [(min_x, min_y)] of the bounding box at the margin reserved
    for the stroke and the labels: after translation its abscissa is
    [(font_size + stroke_width) / scale] and its ordinate
    [(k font_size + stroke_width) / scale] ([k] is 3 with the mark and 1
    without), each up to the half unit lost by rounding the
    translation. *)
Theorem X6_translation_to_margin rebar view_direction view_plane include_mark
        sw cs ff fs scale max_height max_width min_x min_y max_x max_y out svg :
  view_plane_of rebar view_direction = Some view_plane ->
  getVertexesMinMaxXY (Vertexes (fillet_basewire_of rebar)) view_plane
    = ret (min_x, min_y, max_x, max_y) ->
  getRebarShapeSVG rebar view_direction include_mark sw cs ff fs
    scale max_height max_width = (out, inr svg) ->
  exists s tx ty,
    group_scale svg = Some s /\ group_translate svg = Some (tx, ty) /\
    ~ s == 0 /\
    let margin_x := (fs + sw) / s in
    let margin_y := (if include_mark then 3 else 1) * fs / s + sw / s in
    margin_x - (1 # 2) <= min_x + inject_Z tx <= margin_x + (1 # 2) /\
    margin_y - (1 # 2) <= min_y + inject_Z ty <= margin_y + (1 # 2).
Proof.
  intros Hplane Hbox E.
  destruct (getRebarShapeSVG_inv _ _ _ _ _ _ _ _ _ _ _ _ _ Hplane E)
    as (a & b & c & d & s & tx & ty & st
        & Hbox' & _ & Hs & Htx & Hty & _ & _ & ->).
  rewrite Hbox in Hbox'. inversion Hbox'; subst a b c d.
  assert (Hnz : ~ s == 0) by (intros H; apply Qeq_bool_iff in H; congruence).
  exists s, tx, ty. split; [reflexivity |]. split; [reflexivity |].
  split; [exact Hnz |]. cbv zeta.
  unfold translate_x_of, translate_y_of in Htx, Hty.
  repeat (rewrite (py_div_nonzero _ s Hnz) in Htx || rewrite bind_ret_l in Htx).
  repeat (rewrite (py_div_nonzero _ s Hnz) in Hty || rewrite bind_ret_l in Hty).
  inversion Htx as [Etx]. inversion Hty as [Ety].
  pose proof (py_round_near (- (min_x - (fs + sw) / s))) as [Hx1 Hx2].
  pose proof (py_round_near
                (- (min_y - (if include_mark then 3 else 1) * fs / s - sw / s)))
    as [Hy1 Hy2].
  repeat split; lra.
Qed.

(** X7.  The view direction matters only through the plane it resolves
    to: the automatic orientation (a null vector) gives the same result as
    passing the bar's span axis, a vector gives the same result as passing
    the plane built from it, and so does the span axis itself. *)
Theorem X7_view_direction_equivalences rebar include_mark sw cs ff fs
        scale max_height max_width :
  let render view_direction :=
    getRebarShapeSVG rebar view_direction include_mark sw cs ff fs
      scale max_height max_width in
  let span := getRebarsSpanAxis rebar in
  (forall v, isNull v = true -> render (PyVector v) = render (PyVector span)) /\
  (forall v, isNull v = false ->
             render (PyVector v) = render (PyPlane (getSVGPlaneFromAxis v))) /\
  render (PyVector span) = render (PyPlane (getSVGPlaneFromAxis span)).
Proof.
  cbv zeta. unfold getRebarShapeSVG, view_plane_of. repeat split.
  - intros v ->. destruct (isNull (getRebarsSpanAxis rebar)); reflexivity.
  - intros v ->. reflexivity.
  - destruct (isNull (getRebarsSpanAxis rebar)); reflexivity.
Qed.

End ScaleAndPlacement.

Lemma X5_scale_ignored_with_both_constraints_witness :
  truthy 40 = true /\ truthy 60 = true /\
  @getRebarShapeSVG Sample.top_view_host Sample.L_bar Sample.auto true
    (1 # 8) "shape color" "DejaVu Sans" 2 1 40 60
  = @getRebarShapeSVG Sample.top_view_host Sample.L_bar Sample.auto true
      (1 # 8) "shape color" "DejaVu Sans" 2 7 40 60.
Proof.
  split; [reflexivity |]. split; [reflexivity |].
  apply (@X5_scale_ignored_with_both_constraints Sample.top_view_host);
    reflexivity.
Defined.

Lemma X6_translation_to_margin_witness :
  exists svg,
    @getRebarShapeSVG Sample.top_view_host Sample.L_bar Sample.auto true
      (1 # 8) "shape color" "DejaVu Sans" 2 2 0 0 = ([], inr svg) /\
    group_scale svg = Some 2 /\ group_translate svg = Some (1, 3)%Z /\
    (2 + (1 # 8)) / 2 - (1 # 2) <= 0 + inject_Z 1 <= (2 + (1 # 8)) / 2 + (1 # 2).
Proof.
  eexists. split; [vm_compute; reflexivity |].
  split; [reflexivity |]. split; [reflexivity |].
  destruct (@X6_translation_to_margin Sample.top_view_host Sample.L_bar
              Sample.auto Sample.top_plane true (1 # 8) "shape color"
              "DejaVu Sans" 2 2 0 0 0 0 10 20 [] _ eq_refl eq_refl eq_refl)
    as (s & tx & ty & Hs & Ht & _ & Hx & _).
  vm_compute in Hs, Ht. inversion Hs; inversion Ht; subst. exact Hx.
Defined.

(** ** Curved and other edges *)

Section CurvedEdges.

Context {host : Host}.

Lemma render_edges_drawn_curved rebar view_plane straight_edges sw color ff fs
      edges :
  forall st out st',
    render_edges rebar view_plane straight_edges sw color ff fs edges st
      = (out, inr st') ->
    exists drawn,
      rebar_edges_svg st' = rebar_edges_svg st ++ drawn /\
      forall i edge,
        nth_error edges i = Some edge ->
        match geomType edge with
        | Line => True
        | Circle =>
            forall v1 v2,
              nth_error (EdgeVertexes edge) 0 = Some v1 ->
              nth_error (EdgeVertexes edge) 1 = Some v2 ->
              let p1 := getProjectionToSVGPlane v1 view_plane in
              let p2 := getProjectionToSVGPlane v2 view_plane in
              nth_error drawn i
              = Some (if same_round (x_ p1) (x_ p2) || same_round (y_ p1) (y_ p2)
                      then getLineSVG p1 p2 sw color
                      else getRoundCornerSVG edge (Rounding rebar * Diameter rebar)
                             view_plane sw color)
        | OtherGeom => nth_error drawn i = Some (Element "g" [] [])
        end.
Proof.
  induction edges as [| e es IH]; intros st out st' E.
  - cbn in E. inversion E; subst. exists []. rewrite app_nil_r.
    split; [reflexivity |]. intros [| i] ? Hn; discriminate.
  - apply render_edges_cons_inv in E as (st1 & H1 & H2).
    apply render_edge_inv in H1 as (edge_svg & Hedges & Hcase).
    apply IH in H2 as (drawn & Hd & Hnth).
    exists (edge_svg :: drawn). split.
    + rewrite Hd, Hedges, <- app_assoc. reflexivity.
    + intros [| i] edge Hi; cbn in Hi.
      * inversion Hi; subst e. destruct (geomType edge); [exact I | |].
        -- destruct Hcase as (v1' & v2' & Hv1' & Hv2' & -> & _).
           intros v1 v2 Hv1 Hv2. rewrite Hv1 in Hv1'. rewrite Hv2 in Hv2'.
           inversion Hv1'; inversion Hv2'; subst v1' v2'. reflexivity.
        -- destruct Hcase as (-> & _). reflexivity.
      * apply (Hnth i edge Hi).
Qed.

(** X8.  In a returned document drawn at scale [s], the element of a
    curved edge is a straight line between its projected end points when
    these share a rounded x or a rounded y, and otherwise a round corner
    of radius [Rounding * Diameter]; both carry the stroke width divided
    by [s].  An edge that is neither straight nor curved yields an empty
    group. *)
Theorem X8_curved_and_other_edges rebar view_direction view_plane include_mark
        sw cs ff fs scale max_height max_width out svg :
  view_plane_of rebar view_direction = Some view_plane ->
  getRebarShapeSVG rebar view_direction include_mark sw cs ff fs
    scale max_height max_width = (out, inr svg) ->
  exists s,
    group_scale svg = Some s /\
    forall i edge,
      nth_error (sortEdges (Edges (fillet_basewire_of rebar))) i = Some edge ->
      (geomType edge = Circle ->
       forall v1 v2,
         nth_error (EdgeVertexes edge) 0 = Some v1 ->
         nth_error (EdgeVertexes edge) 1 = Some v2 ->
         let p1 := getProjectionToSVGPlane v1 view_plane in
         let p2 := getProjectionToSVGPlane v2 view_plane in
         nth_error (drawn_edges svg) i
         = Some (if (py_round (x_ p1) =? py_round (x_ p2))%Z
                    || (py_round (y_ p1) =? py_round (y_ p2))%Z
                 then getLineSVG p1 p2 (sw / s) (getRebarColor rebar cs)
                 else getRoundCornerSVG edge (Rounding rebar * Diameter rebar)
                        view_plane (sw / s) (getRebarColor rebar cs))) /\
      (geomType edge = OtherGeom ->
       nth_error (drawn_edges svg) i = Some (Element "g" [] [])).
Proof.
  intros Hplane E.
  destruct (getRebarShapeSVG_inv _ _ _ _ _ _ _ _ _ _ _ _ _ Hplane E)
    as (min_x & min_y & max_x & max_y & s & tx & ty & st
        & _ & _ & _ & _ & _ & Hloop & _ & ->).
  exists s. split; [reflexivity |].
  rewrite shape_document_drawn_edges.
  apply render_edges_drawn_curved in Hloop as (drawn & Hd & Hnth).
  cbn in Hd. subst drawn.
  intros i edge Hi. specialize (Hnth i edge Hi). split; intros G; rewrite G in Hnth.
  - exact Hnth.
  - exact Hnth.
Qed.

End CurvedEdges.

Lemma X8_curved_and_other_edges_witness :
  exists svg,
    @getRebarShapeSVG Sample.top_view_host Sample.arc_bar Sample.auto true
      (1 # 8) "shape color" "DejaVu Sans" 2 1 0 0 = ([], inr svg) /\
    nth_error (drawn_edges svg) 1
    = Some (getRoundCornerSVG (mkEdge Circle [Sample.B; mkVector 13 4 0] 5)
              (0 * 8) Sample.top_plane ((1 # 8) / 1) "black") /\
    nth_error (drawn_edges svg) 2 = Some (Element "g" [] []).
Proof.
  eexists. split; [vm_compute; reflexivity |].
  destruct (@X8_curved_and_other_edges Sample.top_view_host Sample.arc_bar
              Sample.auto Sample.top_plane true (1 # 8) "shape color"
              "DejaVu Sans" 2 1 0 0 [] _ eq_refl eq_refl) as (s & Hs & Hedge).
  vm_compute in Hs. inversion Hs; subst s. split.
  - exact (proj1 (Hedge 1%nat _ eq_refl) eq_refl _ _ eq_refl eq_refl).
  - exact (proj2 (Hedge 2%nat _ eq_refl) eq_refl).
Defined.

(** ** View directions of [getRebarShapeCutList] *)

Lemma list_eq_dec_nil {A} (l : list A) : l = [] \/ l <> [].
Proof. destruct l; [left; reflexivity | right; discriminate]. Qed.

Section CutListDirections.

Context {host : Host}.

Variables (include_mark : bool) (sw : Q) (cs ff : string) (fs : Q).
Variables (row_height width : Q).

(** The rows read the directions at the indexes of their bars only. *)
Lemma cut_list_rows_ext max_shape_height l l' rebars : forall i,
  (forall j, (i <= j < i + List.length rebars)%nat ->
             nth_error l j = nth_error l' j) ->
  cut_list_rows (PyList l) include_mark sw cs ff fs row_height width
    max_shape_height i rebars
  = cut_list_rows (PyList l') include_mark sw cs ff fs row_height width
      max_shape_height i rebars.
Proof.
  induction rebars as [| r rs IH]; intros i H; [reflexivity |].
  cbn [cut_list_rows]. cbn [List.length] in H.
  assert (Hrow : cut_list_row (PyList l) include_mark sw cs ff fs row_height
                   width max_shape_height i r
                 = cut_list_row (PyList l') include_mark sw cs ff fs row_height
                     width max_shape_height i r).
  { unfold cut_list_row. cbn [py_getitem]. unfold py_index.
    rewrite (H i) by lia. reflexivity. }
  rewrite Hrow. apply bind_ext. intros row.
  rewrite (IH (S i)); [reflexivity |]. intros j Hj. apply H. lia.
Qed.

Lemma nth_error_firstn_lt {A} (l : list A) : forall n j,
  (j < n)%nat -> nth_error (firstn n l) j = nth_error l j.
Proof.
  induction l as [| a l IH]; intros [| n] [| j] H; cbn; try lia; auto.
  apply IH. lia.
Qed.

(** The body of the function on a non-empty list. *)
Lemma getRebarShapeCutList_nonempty base_rebars_list view_directions :
  base_rebars_list <> [] ->
  getRebarShapeCutList base_rebars_list view_directions include_mark
    sw cs ff fs row_height width
  = (let n := List.length base_rebars_list in
     view_directions <- pad_view_directions n view_directions ;;
     rows <- cut_list_rows view_directions include_mark sw cs ff fs
               row_height width
               (if include_mark then row_height - 2 * fs else row_height)
               0 base_rebars_list ;;
     ret (svg_set
            (svg_set (svg_set (Element "svg" root_attrib rows) "width" (AMm width))
               "height" (AMm (row_height * inject_Z (Z.of_nat n))))
            "viewBox" (AViewBox width (row_height * inject_Z (Z.of_nat n))))).
Proof.
  intros Hne. destruct base_rebars_list; [contradiction | reflexivity].
Qed.

(** X9.  A single vector as [view_directions] is broadcast: the result is
    that of the list repeating it once per bar.  A single plane is not:
    with at least one bar the call raises [TypeError]. *)
Theorem X9_single_view_direction base_rebars_list :
  let cut_list view_directions :=
    getRebarShapeCutList base_rebars_list view_directions include_mark
      sw cs ff fs row_height width in
  (forall v,
      cut_list (PyVector v)
      = cut_list (PyList (repeat (PyVector v) (List.length base_rebars_list)))) /\
  (base_rebars_list <> [] ->
   forall p, cut_list (PyPlane p) = ([], inl TypeError)).
Proof.
  cbv zeta. split.
  - intros v. destruct (list_eq_dec_nil base_rebars_list) as [-> | Hne];
      [reflexivity |].
    rewrite !getRebarShapeCutList_nonempty by exact Hne. cbv zeta.
    cbn [pad_view_directions]. rewrite repeat_length, Nat.ltb_irrefl.
    reflexivity.
  - intros Hne p. destruct base_rebars_list as [| r rs]; [contradiction |].
    reflexivity.
Qed.

(** X10.  Directions beyond the number of bars are never read: a list
    longer than the bar list gives the same result as its prefix of that
    length. *)
Theorem X10_surplus_view_directions_ignored base_rebars_list dirs :
  (List.length base_rebars_list <= List.length dirs)%nat ->
  getRebarShapeCutList base_rebars_list (PyList dirs) include_mark
    sw cs ff fs row_height width
  = getRebarShapeCutList base_rebars_list
      (PyList (firstn (List.length base_rebars_list) dirs)) include_mark
      sw cs ff fs row_height width.
Proof.
  intros Hlen. destruct (list_eq_dec_nil base_rebars_list) as [-> | Hne];
    [reflexivity |].
  rewrite !getRebarShapeCutList_nonempty by exact Hne. cbv zeta.
  cbn [pad_view_directions].
  rewrite firstn_length_le by exact Hlen.
  rewrite Nat.ltb_irrefl.
  destruct (Nat.ltb_spec (List.length dirs) (List.length base_rebars_list));
    [lia |].
  rewrite !bind_ret_l.
  rewrite (cut_list_rows_ext _ dirs
             (firstn (List.length base_rebars_list) dirs) base_rebars_list 0).
  - reflexivity.
  - intros j Hj. symmetry. apply nth_error_firstn_lt. lia.
Qed.

End CutListDirections.

Lemma X10_surplus_view_directions_ignored_witness :
  (List.length [Sample.L_bar] <= List.length [Sample.auto; PyFloat 0])%nat /\
  @getRebarShapeCutList Sample.top_view_host [Sample.L_bar]
    (PyList [Sample.auto; PyFloat 0]) true (1 # 8) "shape color" "DejaVu Sans"
    2 40 60
  = @getRebarShapeCutList Sample.top_view_host [Sample.L_bar]
      (PyList [Sample.auto]) true (1 # 8) "shape color" "DejaVu Sans" 2 40 60.
Proof.
  split; [cbn; lia |].
  apply (@X10_surplus_view_directions_ignored Sample.top_view_host true (1 # 8)
           "shape color" "DejaVu Sans" 2 40 60 [Sample.L_bar]
           [Sample.auto; PyFloat 0]).
  cbn. lia.
Defined.

(** ** Failures and layout of the rows *)

Section CutListRows.

Context {host : Host}.

Variables (include_mark : bool) (sw : Q) (cs ff : string) (fs : Q).
Variables (row_height width : Q).

Let max_shape_height : Q :=
  if include_mark then row_height - 2 * fs else row_height.

Let render (rebar : Rebar) (view_direction : PyVal) : M Svg :=
  getRebarShapeSVG rebar view_direction false sw cs ff fs 1
    max_shape_height width.

Let row (view_directions : PyVal) (i : nat) (rebar : Rebar) : M Svg :=
  cut_list_row view_directions include_mark sw cs ff fs row_height width
    max_shape_height i rebar.

Let rows (view_directions : PyVal) (i : nat) (rebars : list Rebar) : M (list Svg) :=
  cut_list_rows view_directions include_mark sw cs ff fs row_height width
    max_shape_height i rebars.

Lemma cut_list_row_render_error view_directions i rebar view_direction out e :
  py_getitem view_directions i = ret view_direction ->
  render rebar view_direction = (out, inl e) ->
  row view_directions i rebar = (out, inl e).
Proof.
  intros Hi E. subst row. cbv beta. unfold cut_list_row.
  rewrite Hi, bind_ret_l. fold (render rebar view_direction). rewrite E.
  reflexivity.
Qed.

Lemma cut_list_rows_first_failure view_directions r post out e : forall pre i,
  (forall j rebar, nth_error pre j = Some rebar ->
                   exists svg, row view_directions (i + j) rebar = ret svg) ->
  row view_directions (i + List.length pre) r = (out, inl e) ->
  rows view_directions i (pre ++ r :: post) = (out, inl e).
Proof.
  subst rows row. cbv beta.
  induction pre as [| p pre IH]; intros i Hpre E.
  - change (([] ++ r :: post)%list) with (r :: post). cbn [cut_list_rows].
    cbn [List.length] in E. rewrite Nat.add_0_r in E. rewrite E. reflexivity.
  - change (((p :: pre) ++ r :: post)%list) with (p :: (pre ++ r :: post))%list.
    cbn [cut_list_rows].
    destruct (Hpre 0%nat p eq_refl) as [svg Hsvg]. rewrite Nat.add_0_r in Hsvg.
    rewrite Hsvg, bind_ret_l.
    rewrite (IH (S i)).
    + reflexivity.
    + intros j rebar Hj. destruct (Hpre (S j) rebar Hj) as [svg' Hsvg'].
      exists svg'. now replace (S i + j)%nat with (i + S j)%nat by lia.
    + cbn [List.length] in E.
      now replace (S i + List.length pre)%nat with (i + S (List.length pre))%nat
        by lia.
Qed.

(** X11.  The first bar that cannot be rendered aborts the whole cut
    list, and no document is returned: when the bars before it render
    under their directions, an exception of its render is raised by the
    cut list as it is, and an unsupported direction for it makes the cut
    list print the error message and raise [AttributeError]. *)
Theorem X11_first_failure_aborts pre r post dirs view_direction :
  let base_rebars_list := pre ++ r :: post in
  let cut_list :=
    getRebarShapeCutList base_rebars_list (PyList dirs) include_mark
      sw cs ff fs row_height width in
  (List.length base_rebars_list <= List.length dirs)%nat ->
  (forall j rebar,
      nth_error pre j = Some rebar ->
      exists d view_plane out svg,
        nth_error dirs j = Some d /\
        view_plane_of rebar d = Some view_plane /\
        getRebarShapeSVG rebar d false sw cs ff fs 1
          (if include_mark then row_height - 2 * fs else row_height) width
        = (out, inr svg)) ->
  nth_error dirs (List.length pre) = Some view_direction ->
  (forall out e,
      getRebarShapeSVG r view_direction false sw cs ff fs 1
        (if include_mark then row_height - 2 * fs else row_height) width
      = (out, inl e) ->
      cut_list = (out, inl e)) /\
  (supported_view_direction view_direction = false ->
   cut_list = ([invalid_view_direction], inl AttributeError)).
Proof.
  intros base_rebars_list cut_list Hlen Hpre Hd. subst cut_list.
  assert (Hne : base_rebars_list <> []).
  { subst base_rebars_list. destruct pre; discriminate. }
  rewrite getRebarShapeCutList_nonempty by exact Hne. cbv zeta.
  cbn [pad_view_directions].
  destruct (Nat.ltb_spec (List.length dirs) (List.length base_rebars_list));
    [lia |].
  rewrite bind_ret_l. fold max_shape_height.
  assert (Hrows : forall j rebar,
             nth_error pre j = Some rebar ->
             exists svg, row (PyList dirs) (0 + j) rebar = ret svg).
  { intros j rebar Hj. destruct (Hpre j rebar Hj) as (d & pl & o & svg & Hdj & Hp & E).
    exact (cut_list_row_ok include_mark sw cs ff fs row_height width
             dirs j rebar d pl o svg Hdj Hp E). }
  assert (Hget : py_getitem (PyList dirs) (0 + List.length pre) = ret view_direction).
  { cbn. unfold py_index. now rewrite Hd. }
  split.
  - intros out e E.
    pose proof (cut_list_row_render_error _ _ r _ _ _ Hget E) as Hrow.
    pose proof (cut_list_rows_first_failure _ r post _ _ pre 0%nat Hrows Hrow) as H0.
    subst rows. cbv beta in H0. fold base_rebars_list in H0. rewrite H0.
    reflexivity.
  - intros Hv.
    pose proof (cut_list_row_unsupported _ _ include_mark sw cs ff fs row_height
                  width max_shape_height _ r Hget Hv) as Hrow.
    pose proof (cut_list_rows_first_failure _ r post _ _ pre 0%nat Hrows Hrow) as H0.
    subst rows. cbv beta in H0. fold base_rebars_list in H0. rewrite H0.
    reflexivity.
Qed.

End CutListRows.

Lemma X11_first_failure_aborts_witness :
  (List.length ([Sample.L_bar] ++ Sample.straight_bar :: [Sample.L_bar])
   <= List.length [Sample.auto; Sample.auto; Sample.auto])%nat /\
  @getRebarShapeCutList Sample.top_view_host
    ([Sample.L_bar] ++ Sample.straight_bar :: [Sample.L_bar])
    (PyList [Sample.auto; Sample.auto; Sample.auto]) true (1 # 8)
    "shape color" "DejaVu Sans" 2 40 60 = ([], inl ZeroDivisionError).
Proof.
  split; [cbn; lia |].
  refine (proj1 (@X11_first_failure_aborts Sample.top_view_host true (1 # 8)
                   "shape color" "DejaVu Sans" 2 40 60 [Sample.L_bar]
                   Sample.straight_bar [Sample.L_bar]
                   [Sample.auto; Sample.auto; Sample.auto] Sample.auto
                   _ _ eq_refl) [] ZeroDivisionError _).
  - cbn. lia.
  - intros [| j] rebar H; cbn in H; [| destruct j; discriminate].
    inversion H; subst rebar.
    exists Sample.auto, Sample.top_plane. do 2 eexists.
    split; [reflexivity |]. split; [reflexivity |]. vm_compute. reflexivity.
  - vm_compute. reflexivity.
Defined.

(** The size computed under a constraint does not exceed it. *)
Lemma svg_height_fits include_mark sw fs scale max_height max_width h w s :
  0 < h -> 0 <= sw -> ~ max_height == 0 ->
  shape_scale include_mark sw fs scale max_height max_width h w = ret s ->
  svg_height_of include_mark sw fs h s <= max_height.
Proof.
  intros Hh Hsw Hm Hs. apply truthy_true in Hm.
  unfold shape_scale in Hs. rewrite Hm in Hs.
  rewrite py_div_nonzero, bind_ret_l in Hs by lra.
  apply bind_inr_inv in Hs as (o1 & u & o2 & _ & Hs & _).
  inversion Hs as [Es]. unfold svg_height_of.
  set (v := (max_height - fs * (if include_mark then 4 else 2) - 2 * sw) / h).
  pose proof (py_min_le_r u v) as Hmin.
  apply (Qmult_le_l _ _ h Hh) in Hmin.
  assert (Hv : h * v == max_height - fs * (if include_mark then 4 else 2) - 2 * sw).
  { subst v. apply Qmult_div_r. lra. }
  lra.
Qed.

Lemma svg_width_fits include_mark sw fs scale max_height max_width h w s :
  0 < w -> 0 <= sw -> ~ max_width == 0 ->
  shape_scale include_mark sw fs scale max_height max_width h w = ret s ->
  svg_width_of sw fs w s <= max_width.
Proof.
  intros Hw Hsw Hm Hs. apply truthy_true in Hm.
  unfold shape_scale in Hs.
  apply bind_inr_inv in Hs as (o1 & v & o2 & _ & Hs & _).
  rewrite Hm in Hs. rewrite py_div_nonzero, bind_ret_l in Hs by lra.
  inversion Hs as [Es]. unfold svg_width_of.
  set (u := (max_width - 2 * fs - 2 * sw) / w).
  pose proof (py_min_le_l u v) as Hmin.
  apply (Qmult_le_l _ _ w Hw) in Hmin.
  assert (Hu : w * u == max_width - 2 * fs - 2 * sw).
  { subst u. apply Qmult_div_r. lra. }
  lra.
Qed.

Lemma py_round_inject_Z z : py_round (inject_Z z) = z.
Proof.
  unfold py_round. rewrite Qfloor_Z.
  destruct (Qcompare_cases (inject_Z z - inject_Z z) (1 # 2))
    as [[C K] | [[C K] | [C K]]]; rewrite C; try reflexivity; exfalso; lra.
Qed.

Section RowLayout.

Context {host : Host}.

Variables (include_mark : bool) (sw : Q) (cs ff : string) (fs : Q).
Variables (row_height width max_shape_height : Q).

(** X12.  A row of the cut list keeps its shape inside the cell.  For a
    bar with positive projected extents, a non-negative stroke width and a
    cell whose width and shape height are whole non-zero numbers, the
    shape fragment of size [w] x [h] is translated by [(x, y)] with
    [0 <= x], [x + w <= width] and, below the band of [2 font_size] kept
    for the mark, [band <= y] and [y + h <= band + max_shape_height]; the
    two horizontal margins are equal, and so are the two vertical ones. *)
Theorem X12_shape_inside_cell view_directions i rebar view_direction view_plane
        min_x min_y max_x max_y cell_width cell_height out row :
  py_getitem view_directions i = ret view_direction ->
  view_plane_of rebar view_direction = Some view_plane ->
  getVertexesMinMaxXY (Vertexes (fillet_basewire_of rebar)) view_plane
    = ret (min_x, min_y, max_x, max_y) ->
  min_x < max_x -> min_y < max_y -> 0 <= sw ->
  width == inject_Z cell_width -> max_shape_height == inject_Z cell_height ->
  ~ width == 0 -> ~ max_shape_height == 0 ->
  cut_list_row view_directions include_mark sw cs ff fs row_height width
    max_shape_height i rebar = (out, inr row) ->
  let band := if include_mark then 2 * fs else 0 in
  exists svg w h x y shape,
    getRebarShapeSVG rebar view_direction false sw cs ff fs 1
      max_shape_height width = ret svg /\
    viewBox_of svg = Some (w, h) /\
    row = row_of include_mark ff fs row_height width i rebar
            (ATranslate x y) shape /\
    svg_find_g svg (Name rebar) = Some shape /\
    0 <= x /\ x + w <= width /\ x == width - (x + w) /\
    band <= y /\ y + h <= band + max_shape_height /\
    y - band == band + max_shape_height - (y + h).
Proof.
  intros Hi Hplane Hbox Hx Hy Hsw Hwz Hhz Hwn Hhn E. cbv zeta.
  unfold cut_list_row in E. rewrite Hi, bind_ret_l in E.
  apply bind_inr_inv in E as (o1 & svg & o2 & Hsvg & E & ->).
  destruct (getRebarShapeSVG_inv _ _ _ _ _ _ _ _ _ _ _ _ _ Hplane Hsvg)
    as (a & b & c & d & s & tx & ty & st
        & Hbox' & Hs & _ & _ & _ & _ & -> & Hdoc).
  rewrite Hbox in Hbox'. inversion Hbox'; subst a b c d.
  rewrite Hdoc in E. unfold svg_get_mm in E.
  rewrite shape_document_width, bind_ret_l in E.
  rewrite shape_document_height, bind_ret_l in E.
  apply bind_inr_inv in E as (o3 & shape & o4 & Hfind & E & ->).
  destruct (svg_find_g _ (Name rebar)) as [g |] eqn:Hg; [| discriminate].
  inversion Hfind; subst g o3.
  unfold ret in E. inversion E; subst o4 row.
  assert (Hw0 : 0 < max_x - min_x) by lra.
  assert (Hh0 : 0 < max_y - min_y) by lra.
  pose proof (svg_width_fits _ _ _ _ _ _ _ _ _ Hw0 Hsw Hwn Hs) as Hfw.
  pose proof (svg_height_fits _ _ _ _ _ _ _ _ _ Hh0 Hsw Hhn Hs) as Hfh.
  apply py_round_mono in Hfw. apply py_round_mono in Hfh.
  rewrite (py_round_comp _ _ Hwz), py_round_inject_Z in Hfw.
  rewrite (py_round_comp _ _ Hhz), py_round_inject_Z in Hfh.
  rewrite Zle_Qle in Hfw, Hfh.
  exists svg. do 4 eexists. exists shape.
  split; [exact Hsvg |].
  split; [rewrite Hdoc; apply shape_document_viewBox |].
  split; [reflexivity |]. split; [rewrite Hdoc; exact Hg |].
  set (w := inject_Z (py_round (svg_width_of sw fs (max_x - min_x) s))) in *.
  set (h := inject_Z (py_round (svg_height_of false sw fs (max_y - min_y) s))) in *.
  unfold Qdiv. change (/ 2) with (1 # 2).
  repeat split; lra.
Qed.

End RowLayout.

Lemma X12_shape_inside_cell_witness :
  exists row x y w h,
    @cut_list_row Sample.top_view_host (PyList [Sample.auto]) true (1 # 8)
      "shape color" "DejaVu Sans" 2 40 60 36 0 Sample.L_bar = ([], inr row) /\
    0 <= x /\ x + w <= 60 /\ 2 * 2 <= y /\ y + h <= 2 * 2 + 36.
Proof.
  destruct (@cut_list_row Sample.top_view_host (PyList [Sample.auto]) true
              (1 # 8) "shape color" "DejaVu Sans" 2 40 60 36 0 Sample.L_bar)
    as [out [e | row]] eqn:E; [vm_compute in E; discriminate |].
  assert (out = []) as -> by (vm_compute in E; inversion E; reflexivity).
  destruct (@X12_shape_inside_cell Sample.top_view_host true (1 # 8)
              "shape color" "DejaVu Sans" 2 40 60 36 (PyList [Sample.auto])
              0 Sample.L_bar Sample.auto Sample.top_plane 0 0 10 20 60 36
              [] row eq_refl eq_refl eq_refl)
    as (svg & w & h & x & y & shape & _ & _ & _ & _ & H1 & H2 & _ & H3 & H4 & _);
    try reflexivity; try discriminate; [exact E |].
  exists row, x, y, w, h. auto.
Defined.

(** ** [getBaseRebarsList] *)

(** *** The stable sort *)

Lemma insert_by_key_perm x l : Permutation (insert_by_key x l) (x :: l).
Proof.
  induction l as [| y l IH]; cbn; [reflexivity |].
  destruct (fst x <=? fst y)%Z; [reflexivity |].
  rewrite IH. apply perm_swap.
Qed.

Lemma sorted_by_key_perm l : Permutation (sorted_by_key l) l.
Proof.
  induction l as [| x l IH]; cbn; [reflexivity |].
  rewrite insert_by_key_perm. now constructor.
Qed.

Lemma insert_by_key_sorted x l :
  StronglySorted key_le l -> StronglySorted key_le (insert_by_key x l).
Proof.
  induction 1 as [| y l Hl IH Hy]; cbn.
  - repeat constructor.
  - destruct (Z.leb_spec (fst x) (fst y)) as [Hxy | Hxy].
    + constructor; [constructor; assumption |].
      constructor; [exact Hxy |].
      rewrite Forall_forall in *. intros z Hz. specialize (Hy z Hz).
      unfold key_le in *. lia.
    + constructor; [exact IH |].
      rewrite Forall_forall in *. intros z Hz.
      apply (Permutation_in _ (insert_by_key_perm x l)) in Hz.
      destruct Hz as [<- | Hz]; [unfold key_le; lia | auto].
Qed.

Lemma sorted_by_key_sorted l : StronglySorted key_le (sorted_by_key l).
Proof.
  induction l as [| x l IH]; cbn; [constructor |].
  now apply insert_by_key_sorted.
Qed.

(** Stability: the elements of one key keep their order. *)
Lemma insert_by_key_stable k x l :
  filter (fun y => (fst y =? k)%Z) (insert_by_key x l)
  = filter (fun y => (fst y =? k)%Z) (x :: l).
Proof.
  induction l as [| y l IH]; [reflexivity |].
  cbn [insert_by_key]. destruct (Z.leb_spec (fst x) (fst y)) as [Hxy | Hxy];
    [reflexivity |].
  cbn [filter] in *. rewrite IH.
  destruct (Z.eqb_spec (fst x) k) as [Ex | Ex];
    destruct (Z.eqb_spec (fst y) k) as [Ey | Ey]; try reflexivity. lia.
Qed.

Lemma sorted_by_key_stable k l :
  filter (fun y => (fst y =? k)%Z) (sorted_by_key l)
  = filter (fun y => (fst y =? k)%Z) l.
Proof.
  induction l as [| x l IH]; [reflexivity |].
  cbn [sorted_by_key fold_right]. rewrite insert_by_key_stable.
  cbn [filter]. fold (sorted_by_key l). now rewrite IH.
Qed.

(** *** The keys *)

Lemma mark_numbers_inv base_rebars : forall out keyed,
  mark_numbers base_rebars = (out, inr keyed) ->
  out = [] /\ map snd keyed = base_rebars /\
  Forall (fun x => MarkNumber (snd x) = Some (fst x)) keyed.
Proof.
  induction base_rebars as [| r rs IH]; intros out keyed E; cbn in E.
  - inversion E. auto.
  - destruct (MarkNumber r) as [n |] eqn:Hn; [| discriminate].
    apply bind_inr_inv in E as (o1 & k & o2 & Hk & E & ->).
    destruct (IH _ _ Hk) as (-> & Hmap & Hall).
    unfold ret in E. injection E as <- <-. cbn. rewrite Hmap.
    repeat split. constructor; auto.
Qed.

Lemma mark_numbers_total base_rebars :
  forallb has_MarkNumber base_rebars = true ->
  exists keyed, mark_numbers base_rebars = ret keyed.
Proof.
  induction base_rebars as [| r rs IH]; cbn; intros H.
  - eexists. reflexivity.
  - apply andb_true_iff in H as [Hr Hrs]. unfold has_MarkNumber in Hr.
    destruct (MarkNumber r); [| discriminate].
    destruct (IH Hrs) as [keyed ->]. rewrite bind_ret_l. eexists. reflexivity.
Qed.

Lemma mark_numbers_missing base_rebars :
  forallb has_MarkNumber base_rebars = false ->
  mark_numbers base_rebars = raise AttributeError.
Proof.
  induction base_rebars as [| r rs IH]; cbn; intros H; [discriminate |].
  destruct (MarkNumber r) eqn:Hn; [| reflexivity].
  assert (Hr : has_MarkNumber r = true) by (unfold has_MarkNumber; now rewrite Hn).
  rewrite Hr in H. cbn [andb] in H. rewrite (IH H). reflexivity.
Qed.

Lemma sorted_keys_sorted_rebars l :
  StronglySorted key_le l ->
  Forall (fun x => MarkNumber (snd x) = Some (fst x)) l ->
  StronglySorted mark_number_le (map snd l).
Proof.
  induction 1 as [| x l Hl IH Hx]; intros Hall; cbn; constructor.
  - apply IH. now inversion Hall.
  - inversion Hall as [| ? ? Hx' Hl']; subst.
    rewrite Forall_forall in *. intros r Hr.
    apply in_map_iff in Hr as (y & <- & Hy).
    unfold mark_number_le. rewrite Hx', (Hl' y Hy). apply (Hx y Hy).
Qed.

Lemma filter_mark_number_map n l :
  Forall (fun x => MarkNumber (snd x) = Some (fst x)) l ->
  filter (has_mark_number n) (map snd l)
  = map snd (filter (fun y => (fst y =? n)%Z) l).
Proof.
  induction l as [| x l IHl]; intros Hl; [reflexivity |].
  inversion Hl as [| ? ? Hx Hl']; subst. cbn.
  unfold has_mark_number at 1. rewrite Hx.
  destruct (fst x =? n)%Z; cbn; now rewrite IHl.
Qed.

Lemma sorted_base_rebars_inv base_rebars out sorted :
  sorted_base_rebars base_rebars = (out, inr sorted) ->
  out = [] /\
  Permutation sorted base_rebars /\
  StronglySorted mark_number_le sorted /\
  forall n, filter (has_mark_number n) sorted
            = filter (has_mark_number n) base_rebars.
Proof.
  unfold sorted_base_rebars. destruct base_rebars as [| first rest] eqn:Hb.
  - intros E. inversion E.
    split; [reflexivity |]. split; [constructor |]. split; [constructor |].
    reflexivity.
  - rewrite <- Hb. destruct (MarkNumber first); [| discriminate].
    intros E. apply bind_inr_inv in E as (o1 & keyed & o2 & Hk & E & ->).
    apply mark_numbers_inv in Hk as (-> & Hmap & Hall).
    unfold ret in E. inversion E; subst sorted. split; [reflexivity |].
    assert (Hall' : Forall (fun x => MarkNumber (snd x) = Some (fst x))
                      (sorted_by_key keyed)).
    { rewrite Forall_forall in *. intros x Hx. apply Hall.
      apply (Permutation_in _ (sorted_by_key_perm keyed)). exact Hx. }
    split; [| split].
    + rewrite <- Hmap. apply Permutation_map, sorted_by_key_perm.
    + apply sorted_keys_sorted_rebars; [apply sorted_by_key_sorted | exact Hall'].
    + intros n. rewrite <- Hmap.
      rewrite !filter_mark_number_map by assumption.
      now rewrite sorted_by_key_stable.
Qed.

(** *** One bar per mark *)

Lemma mark_in_true m l : mark_in m l = true <-> In m l.
Proof.
  unfold mark_in. rewrite existsb_exists. split.
  - intros (x & Hx & E). apply String.eqb_eq in E. now subst.
  - intros H. exists m. split; [exact H | apply String.eqb_refl].
Qed.

Lemma mark_in_false m l : mark_in m l = false <-> ~ In m l.
Proof.
  rewrite <- mark_in_true. destruct (mark_in m l); split; congruence.
Qed.

Lemma NoDup_snoc {A} (l : list A) x : NoDup l -> ~ In x l -> NoDup (l ++ [x]).
Proof.
  intros Hl Hx.
  apply (Permutation_NoDup (Permutation_cons_append l x)).
  now constructor.
Qed.

Lemma str_int_nonempty n : str_int n <> EmptyString.
Proof.
  unfold str_int, NilZero.string_of_int.
  destruct (Z.to_int n) as [d | d]; [| discriminate].
  unfold NilZero.string_of_uint. destruct d; discriminate.
Qed.

Lemma arch_rebars_of_In Objects r :
  In r (arch_rebars_of Objects) <-> In (ArchRebar r) Objects.
Proof.
  induction Objects as [| o os IH]; cbn; [tauto |].
  destruct o; cbn; rewrite IH; split; intros H;
    try (destruct H as [H | H]; [inversion H; subst | ]); auto; try discriminate.
Qed.

Lemma base_rebars_of_In Objects r :
  In r (base_rebars_of Objects) <-> In (BaseRebar r) Objects.
Proof.
  induction Objects as [| o os IH]; cbn; [tauto |].
  destruct o; cbn; rewrite IH; split; intros H;
    try (destruct H as [H | H]; [inversion H; subst | ]); auto; try discriminate.
Qed.

(** What a deduplicating loop adds: bars of the candidates with their
    non-empty marks, no mark twice, every non-empty mark of a candidate
    recorded. *)
Lemma add_by_mark_spec key candidates : forall rebars marks out rebars' marks',
  add_by_mark key candidates rebars marks = (out, inr (rebars', marks')) ->
  out = [] /\
  exists new_rebars new_marks,
    rebars' = rebars ++ new_rebars /\ marks' = marks ++ new_marks /\
    Forall2 (fun r m => m <> EmptyString /\ In r candidates /\ key r = Some m)
      new_rebars new_marks /\
    (NoDup marks -> NoDup marks') /\
    (forall m, In m marks -> In m marks') /\
    (forall r m, In r candidates -> key r = Some m -> m <> EmptyString ->
                 In m marks').
Proof.
  induction candidates as [| c cs IH]; intros rebars marks out rebars' marks' E;
    cbn [add_by_mark] in E.
  - inversion E; subst. split; [reflexivity |]. exists [], [].
    rewrite !app_nil_r. repeat split; auto. intros ? ? [].
  - destruct (key c) as [mark |] eqn:Hkey; [| discriminate].
    destruct (String.eqb mark "") eqn:Hempty; cbn [negb andb] in E.
    + apply IH in E as (-> & nr & nm & -> & -> & Hall & Hnd & Hkeep & Hin).
      split; [reflexivity |]. exists nr, nm. repeat split; auto.
      * eapply Forall2_impl; [| exact Hall]. cbn. intros r m (? & ? & ?). auto.
      * intros r m [<- | Hr] Hk Hm; [| eauto].
        rewrite Hkey in Hk. inversion Hk; subst m.
        apply String.eqb_eq in Hempty. contradiction.
    + destruct (mark_in mark marks) eqn:Hseen; cbn [negb] in E.
      * apply IH in E as (-> & nr & nm & -> & -> & Hall & Hnd & Hkeep & Hin).
        split; [reflexivity |]. exists nr, nm. repeat split; auto.
        -- eapply Forall2_impl; [| exact Hall]. cbn. intros r m (? & ? & ?). auto.
        -- intros r m [<- | Hr] Hk Hm; [| eauto].
           rewrite Hkey in Hk. inversion Hk; subst m.
           apply Hkeep. now apply mark_in_true.
      * apply IH in E as (-> & nr & nm & -> & -> & Hall & Hnd & Hkeep & Hin).
        split; [reflexivity |]. exists (c :: nr), (mark :: nm).
        rewrite <- !app_assoc in *. cbn [app] in *. repeat split; auto.
        -- constructor.
           ++ apply String.eqb_neq in Hempty. cbn. auto.
           ++ eapply Forall2_impl; [| exact Hall]. cbn. intros r m (? & ? & ?). auto.
        -- intros Hm. apply Hnd. apply NoDup_snoc; [exact Hm |].
           now apply mark_in_false.
        -- intros m Hm. apply Hkeep. apply in_or_app. now left.
        -- intros r m [<- | Hr] Hk Hm; [| eauto].
           rewrite Hkey in Hk. inversion Hk; subst m.
           apply Hkeep. apply in_or_app. right. now left.
Qed.

Lemma add_by_mark_total key candidates : forall rebars marks,
  forallb (fun r => match key r with Some _ => true | None => false end)
    candidates = true ->
  exists result, add_by_mark key candidates rebars marks = ret result.
Proof.
  induction candidates as [| c cs IH]; intros rebars marks H; cbn in *.
  - eexists. reflexivity.
  - apply andb_true_iff in H as [Hc Hcs].
    destruct (key c); [| discriminate].
    destruct (negb _ && negb _); apply IH; exact Hcs.
Qed.

Lemma add_by_mark_missing key candidates : forall rebars marks,
  forallb (fun r => match key r with Some _ => true | None => false end)
    candidates = false ->
  add_by_mark key candidates rebars marks = raise AttributeError.
Proof.
  induction candidates as [| c cs IH]; intros rebars marks H; cbn in *;
    [discriminate |].
  destruct (key c); [| reflexivity].
  cbn in H. destruct (negb _ && negb _); apply IH; exact H.
Qed.

(** *** The function *)

Lemma sorted_base_rebars_total base_rebars :
  forallb has_MarkNumber base_rebars = true ->
  exists sorted, sorted_base_rebars base_rebars = ret sorted.
Proof.
  intros H. unfold sorted_base_rebars.
  destruct base_rebars as [| first rest] eqn:Hb; [eexists; reflexivity |].
  rewrite <- Hb in *.
  destruct (mark_numbers_total _ H) as [keyed Hk].
  assert (Hf : has_MarkNumber first = true).
  { rewrite Hb in H. cbn in H. now apply andb_true_iff in H. }
  unfold has_MarkNumber in Hf. destruct (MarkNumber first); [| discriminate].
  rewrite Hk, bind_ret_l. eexists. reflexivity.
Qed.

Lemma sorted_base_rebars_missing base_rebars :
  forallb has_MarkNumber base_rebars = false ->
  sorted_base_rebars base_rebars = raise AttributeError.
Proof.
  intros H. unfold sorted_base_rebars.
  destruct base_rebars as [| first rest] eqn:Hb; [discriminate |].
  rewrite <- Hb in *. destruct (MarkNumber first); [| reflexivity].
  rewrite (mark_numbers_missing _ H). reflexivity.
Qed.

(** X13.  Asked for every bar, [getBaseRebarsList] returns the ["Rebar"]
    objects in document order followed by the ["RebarShape"] objects
    sorted by mark number: the second part holds each such object exactly
    once, in ascending order of mark number, bars of equal number in
    document order. *)
Theorem X13_all_rebars_listed Objects out rebars :
  getBaseRebarsList (Some Objects) false = (out, inr rebars) ->
  out = [] /\
  exists base,
    rebars = arch_rebars_of Objects ++ base /\
    Permutation base (base_rebars_of Objects) /\
    StronglySorted mark_number_le base /\
    forall n, filter (has_mark_number n) base
              = filter (has_mark_number n) (base_rebars_of Objects).
Proof.
  unfold getBaseRebarsList. rewrite bind_ret_l. intros E.
  apply bind_inr_inv in E as (o1 & base & o2 & Hs & E & ->).
  apply sorted_base_rebars_inv in Hs as (-> & Hperm & Hsorted & Hstable).
  unfold ret in E. injection E as <- <-.
  split; [reflexivity |]. exists base. auto.
Qed.

(** The bars kept one per mark, with their marks. *)
Lemma getBaseRebarsList_one_per_mark Objects out rebars :
  getBaseRebarsList (Some Objects) true = (out, inr rebars) ->
  exists marks,
    Forall2 (kept_mark Objects) rebars marks /\
    NoDup marks /\
    (forall r m, In (ArchRebar r) Objects -> Mark r = Some m ->
                 m <> EmptyString -> In m marks) /\
    (forall r n, In (BaseRebar r) Objects -> MarkNumber r = Some n ->
                 In (str_int n) marks).
Proof.
  unfold getBaseRebarsList. intros E.
  apply bind_inr_inv in E as (o1 & [rebars1 marks1] & o2 & Harch & E & ->).
  apply bind_inr_inv in E as (o3 & base & o4 & Hs & E & ->).
  apply bind_inr_inv in E as (o5 & [rebars2 marks2] & o6 & Hbase & E & ->).
  unfold ret in E. injection E as <- <-.
  apply sorted_base_rebars_inv in Hs as (-> & Hperm & _ & _).
  apply add_by_mark_spec in Harch
    as (-> & nr1 & nm1 & -> & -> & Hall1 & Hnd1 & _ & Hin1).
  apply add_by_mark_spec in Hbase
    as (-> & nr2 & nm2 & -> & -> & Hall2 & Hnd2 & Hkeep2 & Hin2).
  cbn [app] in *. exists (nm1 ++ nm2). split; [| split; [| split]].
  - apply Forall2_app.
    + eapply Forall2_impl; [| exact Hall1]. cbn. intros r m (Hm & Hr & Hk).
      split; [exact Hm |]. left. split; [now apply arch_rebars_of_In | exact Hk].
    + eapply Forall2_impl; [| exact Hall2]. cbn. intros r m (Hm & Hr & Hk).
      split; [exact Hm |]. right. split; [| exact Hk].
      apply base_rebars_of_In. eapply Permutation_in; eauto.
  - apply Hnd2, Hnd1. constructor.
  - intros r m Hr Hk Hm. apply Hkeep2. apply (Hin1 r m); auto.
    now apply arch_rebars_of_In.
  - intros r n Hr Hk. apply (Hin2 r (str_int n)).
    + apply base_rebars_of_In in Hr.
      eapply Permutation_in; [apply Permutation_sym; exact Hperm | exact Hr].
    + unfold base_mark. now rewrite Hk.
    + apply str_int_nonempty.
Qed.

(** X14.  Asked for one bar per mark, [getBaseRebarsList] returns bars
    with pairwise distinct, non-empty marks (the [Mark] of a ["Rebar"]
    object, the printed [MarkNumber] of a ["RebarShape"] object), and
    every non-empty mark and every mark number of the document is the
    mark of a returned bar. *)
Theorem X14_one_rebar_per_mark Objects out rebars :
  getBaseRebarsList (Some Objects) true = (out, inr rebars) ->
  exists marks,
    Forall2 (kept_mark Objects) rebars marks /\
    NoDup marks /\
    (forall r m, In (ArchRebar r) Objects -> Mark r = Some m ->
                 m <> EmptyString -> In m marks) /\
    (forall r n, In (BaseRebar r) Objects -> MarkNumber r = Some n ->
                 In (str_int n) marks).
Proof. exact (getBaseRebarsList_one_per_mark Objects out rebars). Qed.

Lemma forallb_pointwise {A} (f g : A -> bool) l :
  (forall a, f a = g a) -> forallb f l = forallb g l.
Proof.
  intros H. induction l as [| a l IH]; cbn; [reflexivity |].
  now rewrite H, IH.
Qed.

Lemma forallb_Permutation {A} (f : A -> bool) l l' :
  Permutation l l' -> forallb f l = forallb f l'.
Proof.
  induction 1; cbn; try congruence.
  - now rewrite !andb_assoc, (andb_comm (f y)).
Qed.

(** X15.  [getBaseRebarsList] prints nothing and returns the empty list
    when no document is open.  On a document it fails only with
    [AttributeError], exactly when a ["RebarShape"] object has no
    [MarkNumber] or, asked for one bar per mark, a ["Rebar"] object has
    no [Mark]. *)
Theorem X15_getBaseRebarsList_outcome Objects one_rebar_per_mark :
  getBaseRebarsList None one_rebar_per_mark = ret [] /\
  let complete :=
    (negb one_rebar_per_mark || forallb has_Mark (arch_rebars_of Objects))
    && forallb has_MarkNumber (base_rebars_of Objects) in
  (complete = true ->
   exists rebars,
     getBaseRebarsList (Some Objects) one_rebar_per_mark = ret rebars) /\
  (complete = false ->
   getBaseRebarsList (Some Objects) one_rebar_per_mark = raise AttributeError).
Proof.
  split; [reflexivity |]. cbv zeta. unfold getBaseRebarsList. split.
  - intros H. apply andb_true_iff in H as [Harch Hbase].
    destruct (sorted_base_rebars_total _ Hbase) as [sorted Hs].
    destruct one_rebar_per_mark; cbn [negb orb] in Harch.
    + destruct (add_by_mark_total arch_mark (arch_rebars_of Objects) [] [] Harch)
        as [[rebars1 marks1] ->].
      rewrite bind_ret_l, Hs, bind_ret_l.
      assert (Hb : forallb (fun r => match base_mark r with
                                     | Some _ => true | None => false end)
                     sorted = true).
      { apply sorted_base_rebars_inv in Hs as (_ & Hperm & _ & _).
        rewrite (forallb_Permutation _ _ _ Hperm).
        etransitivity; [| exact Hbase]. apply forallb_pointwise.
        intros r. unfold base_mark, has_MarkNumber.
        destruct (MarkNumber r); reflexivity. }
      destruct (add_by_mark_total base_mark sorted rebars1 marks1 Hb)
        as [[rebars2 marks2] ->].
      rewrite bind_ret_l. eexists. reflexivity.
    + rewrite bind_ret_l, Hs, bind_ret_l. eexists. reflexivity.
  - intros H. apply andb_false_iff in H as [Harch | Hbase].
    + destruct one_rebar_per_mark; cbn [negb orb] in Harch; [| discriminate].
      rewrite (add_by_mark_missing arch_mark _ [] [] Harch). reflexivity.
    + rewrite (sorted_base_rebars_missing _ Hbase).
      destruct one_rebar_per_mark.
      * destruct (add_by_mark arch_mark (arch_rebars_of Objects) [] [])
          as [o [e | [rebars1 marks1]]] eqn:Ea.
        -- assert (Hc : forallb has_Mark (arch_rebars_of Objects) = false).
           { destruct (forallb has_Mark (arch_rebars_of Objects)) eqn:Hc;
               [| reflexivity].
             destruct (add_by_mark_total arch_mark _ [] [] Hc) as [res Hres].
             rewrite Hres in Ea. discriminate. }
           rewrite (add_by_mark_missing arch_mark _ [] [] Hc) in Ea.
           inversion Ea. reflexivity.
        -- apply add_by_mark_spec in Ea as (-> & _). reflexivity.
      * reflexivity.
Qed.

Lemma X13_all_rebars_listed_witness :
  getBaseRebarsList (Some SampleDocument.document) false
  = ([], inr [Sample.L_bar; Sample.straight_bar; Sample.L_bar;
              Sample.numbered_bar; Sample.hook_bar]) /\
  exists base,
    [Sample.L_bar; Sample.straight_bar; Sample.L_bar;
     Sample.numbered_bar; Sample.hook_bar]
    = arch_rebars_of SampleDocument.document ++ base /\
    StronglySorted mark_number_le base.
Proof.
  split; [reflexivity |].
  destruct (X13_all_rebars_listed SampleDocument.document []
              [Sample.L_bar; Sample.straight_bar; Sample.L_bar;
               Sample.numbered_bar; Sample.hook_bar] eq_refl)
    as (_ & base & Hbase & _ & Hsorted & _).
  exists base. split; [exact Hbase | exact Hsorted].
Defined.

Lemma X14_one_rebar_per_mark_witness :
  getBaseRebarsList (Some SampleDocument.document) true
  = ([], inr [Sample.L_bar; Sample.straight_bar; Sample.hook_bar]) /\
  exists marks,
    Forall2 (kept_mark SampleDocument.document)
      [Sample.L_bar; Sample.straight_bar; Sample.hook_bar] marks /\
    NoDup marks.
Proof.
  split; [reflexivity |].
  destruct (X14_one_rebar_per_mark SampleDocument.document []
              [Sample.L_bar; Sample.straight_bar; Sample.hook_bar] eq_refl)
    as (marks & Hall & Hnd & _).
  exists marks. split; [exact Hall | exact Hnd].
Defined.

Lemma X15_getBaseRebarsList_outcome_witness :
  (exists rebars,
      getBaseRebarsList (Some SampleDocument.document) true = ret rebars) /\
  getBaseRebarsList (Some [BaseRebar Sample.L_bar]) false
  = raise AttributeError.
Proof.
  split.
  - exact (proj1 (proj2 (X15_getBaseRebarsList_outcome
                           SampleDocument.document true)) eq_refl).
  - exact (proj2 (proj2 (X15_getBaseRebarsList_outcome
                           [BaseRebar Sample.L_bar] false)) eq_refl).
Defined.

(** ** The cut list of the active document *)

Lemma add_by_mark_empty_marks key candidates rebars marks :
  Forall (fun r => key r = Some EmptyString) candidates ->
  add_by_mark key candidates rebars marks = ret (rebars, marks).
Proof.
  induction 1 as [| r rs Hr _ IH]; cbn [add_by_mark]; [reflexivity |].
  rewrite Hr. cbn. exact IH.
Qed.

Section DocumentCutList.

Context {host : Host}.

Variables (include_mark : bool) (sw : Q) (cs ff : string) (fs : Q).
Variables (row_height width : Q).

(** X16.  Called without a bar list, [getRebarShapeCutList] draws the
    active document one bar per mark: a returned sheet has exactly one row
    per distinct non-empty mark of the document (the [Mark] of a
    ["Rebar"] object, the printed [MarkNumber] of a ["RebarShape"]
    object), row [i] being that of the [i]-th kept bar. *)
Theorem X16_cut_list_of_document Objects view_directions out doc :
  getRebarShapeCutList_of_document (Some Objects) None view_directions
    include_mark sw cs ff fs row_height width = (out, inr doc) ->
  exists rebars marks,
    Forall2 (kept_mark Objects) rebars marks /\
    NoDup marks /\
    (forall r m, In (ArchRebar r) Objects -> Mark r = Some m ->
                 m <> EmptyString -> In m marks) /\
    (forall r n, In (BaseRebar r) Objects -> MarkNumber r = Some n ->
                 In (str_int n) marks) /\
    List.length (children_of doc) = List.length marks /\
    forall i rebar,
      nth_error rebars i = Some rebar ->
      exists offset shape,
        nth_error (children_of doc) i
        = Some (row_of include_mark ff fs row_height width i rebar offset shape) /\
        is_g_with_id (Name rebar) shape = true.
Proof.
  unfold getRebarShapeCutList_of_document. intros E.
  apply bind_inr_inv in E as (o1 & rebars & o2 & Hlist & E & ->).
  apply getBaseRebarsList_one_per_mark in Hlist
    as (marks & Hall & Hnd & Harch & Hbase).
  exists rebars, marks. do 4 (split; [assumption |]).
  rewrite <- (Forall2_length Hall).
  destruct (list_eq_dec_nil rebars) as [-> | Hne].
  - cbn in E. inversion E; subst. split; [reflexivity |].
    intros [| i] ? H; discriminate.
  - rewrite getRebarShapeCutList_nonempty in E by exact Hne. cbv zeta in E.
    apply bind_inr_inv in E as (o3 & vds & o4 & _ & E & ->).
    apply bind_inr_inv in E as (o5 & rows & o6 & Hrows & E & ->).
    unfold ret in E. inversion E; subst doc.
    apply cut_list_rows_inv in Hrows as (Hlen & Hnth).
    cbn [svg_set children_of]. split; [exact Hlen |].
    intros i rebar Hi. destruct (Hnth i rebar Hi) as (offset & shape & H1 & H2).
    exists offset, shape. split; [exact H1 | exact H2].
Qed.

(** X17.  Called without a bar list when no document is open, or when the
    document has no ["RebarShape"] object and every ["Rebar"] object has
    an empty [Mark], [getRebarShapeCutList] prints nothing and returns the
    empty sheet of one row's size; [view_directions] is not looked at. *)
Theorem X17_no_marked_bar_empty_sheet ActiveDocument view_directions :
  match ActiveDocument with
  | None => True
  | Some Objects =>
      base_rebars_of Objects = [] /\
      Forall (fun r => Mark r = Some EmptyString) (arch_rebars_of Objects)
  end ->
  getRebarShapeCutList_of_document ActiveDocument None view_directions
    include_mark sw cs ff fs row_height width
  = ret (Element "svg"
           [("height"%string, AMm row_height);
            ("width"%string, AMm width);
            ("viewBox"%string, AViewBox width row_height)] []).
Proof.
  unfold getRebarShapeCutList_of_document, getBaseRebarsList.
  destruct ActiveDocument as [Objects |]; [| reflexivity].
  intros [Hbase Harch]. rewrite Hbase.
  rewrite (add_by_mark_empty_marks arch_mark _ [] [] Harch).
  reflexivity.
Qed.

End DocumentCutList.

Lemma X16_cut_list_of_document_witness :
  exists doc,
    @getRebarShapeCutList_of_document Sample.top_view_host
      (Some SampleDocument.drawable_document) None Sample.auto true (1 # 8)
      "shape color" "DejaVu Sans" 2 40 60 = ([], inr doc) /\
    exists rebars marks,
      Forall2 (kept_mark SampleDocument.drawable_document) rebars marks /\
      NoDup marks /\
      List.length (children_of doc) = List.length marks.
Proof.
  eexists. split; [vm_compute; reflexivity |].
  destruct (@X16_cut_list_of_document Sample.top_view_host true (1 # 8)
              "shape color" "DejaVu Sans" 2 40 60
              SampleDocument.drawable_document Sample.auto [] _ eq_refl)
    as (rebars & marks & Hall & Hnd & _ & _ & Hlen & _).
  exists rebars, marks. split; [exact Hall |]. split; [exact Hnd | exact Hlen].
Defined.

Lemma X17_no_marked_bar_empty_sheet_witness :
  (base_rebars_of SampleDocument.unmarked_document = [] /\
   Forall (fun r => Mark r = Some EmptyString)
     (arch_rebars_of SampleDocument.unmarked_document)) /\
  @getRebarShapeCutList_of_document Sample.top_view_host
    (Some SampleDocument.unmarked_document) None (PyFloat 0) true (1 # 8)
    "shape color" "DejaVu Sans" 2 40 60
  = ret (Element "svg"
           [("height"%string, AMm 40);
            ("width"%string, AMm 60);
            ("viewBox"%string, AViewBox 60 40)] []).
Proof.
  assert (H : base_rebars_of SampleDocument.unmarked_document = [] /\
              Forall (fun r => Mark r = Some EmptyString)
                (arch_rebars_of SampleDocument.unmarked_document)).
  { split; [reflexivity | repeat constructor]. }
  split; [exact H |].
  exact (@X17_no_marked_bar_empty_sheet Sample.top_view_host true (1 # 8)
           "shape color" "DejaVu Sans" 2 40 60
           (Some SampleDocument.unmarked_document) (PyFloat 0) H).
Defined.

(** ** The marks written in the rows *)

Section RowMarks.

Context {host : Host}.

Variables (sw : Q) (cs ff : string) (fs : Q).
Variables (row_height width : Q).

(** With [include_mark], every row carries the mark of its bar. *)
Lemma cut_list_rows_marks view_directions max_shape_height rebars :
  forall i out rows,
  cut_list_rows view_directions true sw cs ff fs row_height width
    max_shape_height i rebars = (out, inr rows) ->
  map row_mark rows = map (fun r => Some (mark_of r)) rebars.
Proof.
  induction rebars as [| r rs IH]; intros i out rows E.
  - cbn in E. inversion E. reflexivity.
  - cbn [cut_list_rows] in E.
    apply bind_inr_inv in E as (o1 & row & o2 & Hrow & E & ->).
    apply bind_inr_inv in E as (o3 & rows' & o4 & Hrows & E & ->).
    unfold ret in E. inversion E; subst rows.
    apply cut_list_row_inv in Hrow as (offset & shape & -> & _).
    cbn [map]. f_equal. exact (IH _ _ _ Hrows).
Qed.

(** The mark written for a kept bar is the mark it was kept under, when
    no ["RebarShape"] object has a [Mark]. *)
Lemma kept_mark_written Objects rebars marks :
  (forall r, In (BaseRebar r) Objects -> Mark r = None) ->
  Forall2 (kept_mark Objects) rebars marks ->
  map (fun r => label_str (mark_of r)) rebars = marks.
Proof.
  intros Hbase. induction 1 as [| r m rs ms Hk _ IH]; [reflexivity |].
  cbn [map]. f_equal; [| exact IH].
  destruct Hk as (_ & [[_ Hm] | [Hin Hm]]); unfold mark_of.
  - unfold arch_mark in Hm. now rewrite Hm.
  - rewrite (Hbase r Hin). unfold base_mark in Hm.
    destruct (MarkNumber r); inversion Hm. reflexivity.
Qed.

(** X18.  In the cut list of the active document drawn with marks, where
    ["RebarShape"] objects have a [MarkNumber] and no [Mark], the texts
    written in the rows are pairwise distinct and include every non-empty
    [Mark] and every printed [MarkNumber] of the document: each mark is
    shown exactly once. *)
Theorem X18_each_mark_shown_once Objects view_directions out doc :
  (forall r, In (BaseRebar r) Objects -> Mark r = None) ->
  getRebarShapeCutList_of_document (Some Objects) None view_directions
    true sw cs ff fs row_height width = (out, inr doc) ->
  exists marks,
    map (fun row => option_map label_str (row_mark row)) (children_of doc)
    = map Some marks /\
    NoDup marks /\
    (forall r m, In (ArchRebar r) Objects -> Mark r = Some m ->
                 m <> EmptyString -> In m marks) /\
    (forall r n, In (BaseRebar r) Objects -> MarkNumber r = Some n ->
                 In (str_int n) marks).
Proof.
  intros Hnomark E. unfold getRebarShapeCutList_of_document in E.
  apply bind_inr_inv in E as (o1 & rebars & o2 & Hlist & E & ->).
  apply getBaseRebarsList_one_per_mark in Hlist
    as (marks & Hall & Hnd & Harch & Hbase).
  exists marks. split; [| auto].
  rewrite <- (kept_mark_written Objects rebars marks Hnomark Hall).
  destruct (list_eq_dec_nil rebars) as [-> | Hne].
  - cbn in E. inversion E. reflexivity.
  - rewrite getRebarShapeCutList_nonempty in E by exact Hne. cbv zeta in E.
    apply bind_inr_inv in E as (o3 & vds & o4 & _ & E & ->).
    apply bind_inr_inv in E as (o5 & rows & o6 & Hrows & E & ->).
    unfold ret in E. inversion E; subst doc.
    cbn [svg_set children_of].
    rewrite <- (map_map row_mark (option_map label_str)).
    rewrite (cut_list_rows_marks _ _ _ _ _ _ Hrows).
    now rewrite !map_map.
Qed.

End RowMarks.

Lemma X18_each_mark_shown_once_witness :
  exists doc,
    @getRebarShapeCutList_of_document Sample.top_view_host
      (Some SampleDocument.drawable_document) None Sample.auto true (1 # 8)
      "shape color" "DejaVu Sans" 2 40 60 = ([], inr doc) /\
    exists marks,
      map (fun row => option_map label_str (row_mark row)) (children_of doc)
      = map Some marks /\
      NoDup marks /\
      (forall r m, In (ArchRebar r) SampleDocument.drawable_document ->
                   Mark r = Some m -> m <> EmptyString -> In m marks) /\
      (forall r n, In (BaseRebar r) SampleDocument.drawable_document ->
                   MarkNumber r = Some n -> In (str_int n) marks).
Proof.
  eexists. split; [vm_compute; reflexivity |].
  apply (@X18_each_mark_shown_once Sample.top_view_host (1 # 8)
           "shape color" "DejaVu Sans" 2 40 60
           SampleDocument.drawable_document Sample.auto []).
  - intros r [H | [H | [H | [H | [H | []]]]]]; inversion H; reflexivity.
  - vm_compute. reflexivity.
Defined.
